(** * image_optimizer.pyw: the conversion worker, embedded and verified

    A shallow embedding of [Worker] from [src/image_optimizer.pyw] (the
    background thread that drives [cwebp] over a set of folders) and of the
    parts of [App] that do not draw (the labels, the run history), together
    with the properties its specification states about the worker and
    further properties read off the code.

    Layout:
    - [Float64]  binary64 arithmetic as Python uses it in [_emit_progress]
    - [PyStr]    the few [str] and [pathlib] operations the worker calls
    - the data model ([FolderBatch], [FolderSummary], the summary dict)
    - the operating-system interface and the command monad
    - the worker's methods, one definition per method of the source
    - [App]'s size and percentage labels, its run history and what it does
      when a run ends
    - the theorems, one per specification claim (C1 to C10)
    - further properties of the code (X1 to X17) *)

From Stdlib Require Import ZArith QArith Qround Qpower Lia Lqa.
From Stdlib Require Import String Ascii List Bool DecimalString Sorted.
Import ListNotations.

Set Implicit Arguments.

(* ===================================================================== *)
(** * Binary64 arithmetic *)
(* ===================================================================== *)

(** [_emit_progress] evaluates [int((processed / total) * 100)]: a true
    division of two ints, a float product, and a truncation.  CPython rounds
    the quotient of two ints correctly (round to nearest, ties to even, to a
    53-bit significand, gradual underflow down to [2^-1074]) and raises
    [OverflowError] when the rounded quotient reaches [2^1024]; the product
    is an IEEE 754 multiplication; [int] truncates toward zero and raises on
    an infinity.  Finite doubles are represented by the rational they
    denote. *)

Module Float64.

Local Open Scope Q_scope.

Definition prec : Z := 53.
Definition emin : Z := -1074.
Definition emax : Z := 1024.

Definition pow2 (e : Z) : Q := 2 ^ e.

(** [ilog2 x] is the integer [k] with [2^k <= x < 2^(k+1)], for [0 < x]. *)
Definition ilog2 (x : Q) : Z :=
  let k := (Z.log2 (Qnum x) - Z.log2 (Zpos (Qden x)))%Z in
  if Qle_bool (pow2 k) x then k else (k - 1)%Z.

(** Exponent of the unit in the last place of the double nearest to [x]. *)
Definition cexp (x : Q) : Z := Z.max (ilog2 x - (prec - 1)) emin.

(** Nearest integer, ties to even. *)
Definition rne (x : Q) : Z :=
  let f := Qfloor x in
  match Qcompare (x - inject_Z f) (1 # 2) with
  | Lt => f
  | Gt => (f + 1)%Z
  | Eq => if Z.even f then f else (f + 1)%Z
  end.

Definition round_pos (x : Q) : Q :=
  inject_Z (rne (x / pow2 (cexp x))) * pow2 (cexp x).

(** The double nearest to the rational [x] (before the overflow test). *)
Definition round (x : Q) : Q :=
  match Qcompare x 0 with
  | Eq => 0
  | Gt => round_pos x
  | Lt => - round_pos (- x)
  end.

Definition overflows (x : Q) : bool :=
  Qle_bool (pow2 emax) x || Qle_bool x (- pow2 emax).

(** A Python float: a finite double, an infinity, or a NaN. *)
Inductive pyfloat : Type :=
| Fin (q : Q)
| Inf (negative : bool)
| NaN.

(** The exceptions this arithmetic can raise, and the result of a Python
    expression: a value or a raised exception. *)
Inductive pyexc : Type := OverflowError | ZeroDivisionError | ValueError.

Inductive raises (A : Type) : Type :=
| Value (a : A)
| Raise (e : pyexc).
Arguments Value {A} a.
Arguments Raise {A} e.

(** [a / b] on two ints. *)
Definition int_truediv (a b : Z) : raises pyfloat :=
  if (b =? 0)%Z then Raise ZeroDivisionError
  else
    let r := round (inject_Z a / inject_Z b) in
    if overflows r then Raise OverflowError else Value (Fin r).

Definition is_neg (q : Q) : bool := negb (Qle_bool 0 q).

(** [x * n] for a float [x] and an int [n] that converts to a double
    exactly (here the literal [100]). *)
Definition float_mul_int (x : pyfloat) (n : Z) : pyfloat :=
  match x with
  | Fin q =>
      let r := round (q * inject_Z n) in
      if overflows r then Inf (is_neg r) else Fin r
  | Inf s =>
      if (n =? 0)%Z then NaN else Inf (xorb s (n <? 0)%Z)
  | NaN => NaN
  end.

(** [int(x)]: truncation toward zero. *)
Definition int_of_float (x : pyfloat) : raises Z :=
  match x with
  | Fin q => Value (if Qle_bool 0 q then Qfloor q else Qceiling q)
  | Inf _ => Raise OverflowError
  | NaN => Raise ValueError
  end.

(** [a - b] on two finite doubles (the clock readings of
    [time.perf_counter]). *)
Definition float_sub (a b : Q) : pyfloat :=
  let r := round (a - b) in
  if overflows r then Inf (is_neg r) else Fin r.

(** [max(0.0, x)]: Python keeps the first argument unless the second is
    strictly greater. *)
Definition float_max0 (x : pyfloat) : pyfloat :=
  match x with
  | Fin q => if Qle_bool q 0 then Fin 0 else Fin q
  | Inf false => Inf false
  | Inf true => Fin 0
  | NaN => Fin 0
  end.

End Float64.

(* ===================================================================== *)
(** * Strings and paths *)
(* ===================================================================== *)

(** Python [str] values are represented by their UTF-8 bytes.  The worker
    only compares lower-cased suffixes with ASCII literals, and no character
    outside ASCII lower-cases to one of the letters of those literals, so
    lower-casing the ASCII range is all that is observed. *)

Module PyStr.

Local Open Scope string_scope.

Definition lower_char (c : ascii) : ascii :=
  let n := nat_of_ascii c in
  if (65 <=? n)%nat && (n <=? 90)%nat then ascii_of_nat (n + 32) else c.

(** [s.lower()] *)
Fixpoint lower (s : string) : string :=
  match s with
  | EmptyString => EmptyString
  | String c r => String (lower_char c) (lower r)
  end.

(** [s.rfind(c)], counting from index [i] for the head of [s]. *)
Fixpoint rfind_from (c : ascii) (s : string) (i : nat) : option nat :=
  match s with
  | EmptyString => None
  | String a r =>
      match rfind_from c r (S i) with
      | Some j => Some j
      | None => if Ascii.eqb a c then Some i else None
      end
  end.

Definition rfind (c : ascii) (s : string) : option nat := rfind_from c s 0.

(** [str(n)] for an int. *)
Definition str_of_int (n : Z) : string := NilZero.string_of_int (Z.to_int n).

(** Whitespace as [str.strip] sees it, in the ASCII range. *)
Definition is_space (c : ascii) : bool :=
  let n := nat_of_ascii c in
  ((9 <=? n)%nat && (n <=? 13)%nat) || ((28 <=? n)%nat && (n <=? 32)%nat).

Fixpoint lstrip (s : string) : string :=
  match s with
  | EmptyString => EmptyString
  | String c r => if is_space c then lstrip r else s
  end.

Fixpoint rstrip (s : string) : string :=
  match s with
  | EmptyString => EmptyString
  | String c r =>
      match rstrip r with
      | EmptyString => if is_space c then EmptyString else String c EmptyString
      | r' => String c r'
      end
  end.

(** [s.strip()] *)
Definition strip (s : string) : string := rstrip (lstrip s).

(** [sep.join(items)] *)
Fixpoint join (sep : string) (items : list string) : string :=
  match items with
  | [] => EmptyString
  | [x] => x
  | x :: rest => x ++ sep ++ join sep rest
  end.

(** [s in items] for a tuple of strings. *)
Definition str_in (s : string) (items : list string) : bool :=
  existsb (String.eqb s) items.

(** Truth value of a string: empty is false. *)
Definition truthy (s : string) : bool := negb (String.eqb s EmptyString).

End PyStr.

(** A [pathlib.Path], as pathlib keeps it: the anchor (drive and root) and
    the components below it.  [str] joins with the POSIX separator; nothing
    below depends on which separator is used. *)
Record Path : Type := mkPath { anchor : string; parts : list string }.

Module PyPath.

Local Open Scope string_scope.

(** [p.name]: the last component, empty when there is none. *)
Definition name (p : Path) : string := last (parts p) "".

(** [p.parent]: [p] itself when it has no component. *)
Definition parent (p : Path) : Path :=
  mkPath (anchor p) (removelast (parts p)).

(** [p / child] for a single component [child]. *)
Definition child (p : Path) (c : string) : Path :=
  mkPath (anchor p) (parts p ++ [c]).

(** [str(p)] *)
Definition str (p : Path) : string :=
  match anchor p, parts p with
  | EmptyString, [] => "."
  | a, ps => a ++ PyStr.join "/" ps
  end.

(** [PurePath.suffix] (CPython 3.8 to 3.13): the part of the name from its
    last dot, unless that dot is the first or the last character. *)
Definition suffix_of_name (n : string) : string :=
  match PyStr.rfind "." n with
  | Some i =>
      if (0 <? i)%nat && (i <? String.length n - 1)%nat
      then substring i (String.length n - i) n
      else ""
  | None => ""
  end.

Definition stem_of_name (n : string) : string :=
  match PyStr.rfind "." n with
  | Some i =>
      if (0 <? i)%nat && (i <? String.length n - 1)%nat
      then substring 0 i n
      else n
  | None => n
  end.

Definition suffix (p : Path) : string := suffix_of_name (name p).
Definition stem (p : Path) : string := stem_of_name (name p).

Definition eqb (p q : Path) : bool :=
  String.eqb (anchor p) (anchor q)
  && (length (parts p) =? length (parts q))%nat
  && forallb (fun ab => String.eqb (fst ab) (snd ab)) (combine (parts p) (parts q)).

(** [d] is [p] or one of its ancestors: what [shutil.rmtree(d)] removes. *)
Fixpoint is_prefix (xs ys : list string) : bool :=
  match xs, ys with
  | [], _ => true
  | x :: xs', y :: ys' => String.eqb x y && is_prefix xs' ys'
  | _ :: _, [] => false
  end.

Definition within (d p : Path) : bool :=
  String.eqb (anchor d) (anchor p) && is_prefix (parts d) (parts p).

End PyPath.

(* ===================================================================== *)
(** * Data model *)
(* ===================================================================== *)

Local Open Scope string_scope.
Local Open Scope Z_scope.

Definition SUPPORTED_EXTENSIONS : list string := [".jpg"; ".jpeg"; ".png"; ".webp"].
Definition OUTPUT_DIR_NAME : string := "webp_optimized".
Definition ENCODER_NAME : string := "cwebp".

Module FolderBatch.
Record t : Type := make {
  folder : Path;
  all_images : list Path;
  convertible_images : list Path;
  skipped_webp : list Path
}.
End FolderBatch.

Module FolderSummary.
Record t : Type := make {
  folder : string;
  converted : Z;
  skipped_existing : Z;
  errors : list string;
  bytes_original : Z;
  bytes_converted : Z;
  archive_size : option Z;
  archive_path : option string;
  duration_seconds : Float64.pyfloat
}.
End FolderSummary.

(** The values a summary dict holds. *)
#[warnings="-register-all"] Inductive pyval : Type :=
| VNone
| VBool (b : bool)
| VInt (n : Z)
| VFloat (x : Float64.pyfloat)
| VStr (s : string)
| VList (items : list pyval)
| VDict (items : list (string * pyval)).

(** [d.get(key)] on the items of a dict. *)
Fixpoint dict_get (key : string) (items : list (string * pyval)) : option pyval :=
  match items with
  | [] => None
  | (k, v) :: rest => if String.eqb k key then Some v else dict_get key rest
  end.

(** [v.get(key)] when [v] is a dict. *)
Definition py_get (key : string) (v : pyval) : option pyval :=
  match v with
  | VDict items => dict_get key items
  | _ => None
  end.

Definition optional {A : Type} (f : A -> pyval) (o : option A) : pyval :=
  match o with
  | Some a => f a
  | None => VNone
  end.

(** [dataclasses.asdict] on a [FolderSummary]: one key per field, in
    declaration order. *)
Definition asdict (s : FolderSummary.t) : pyval :=
  VDict [ ("folder", VStr (FolderSummary.folder s));
          ("converted", VInt (FolderSummary.converted s));
          ("skipped_existing", VInt (FolderSummary.skipped_existing s));
          ("errors", VList (map VStr (FolderSummary.errors s)));
          ("bytes_original", VInt (FolderSummary.bytes_original s));
          ("bytes_converted", VInt (FolderSummary.bytes_converted s));
          ("archive_size", optional VInt (FolderSummary.archive_size s));
          ("archive_path", optional VStr (FolderSummary.archive_path s));
          ("duration_seconds", VFloat (FolderSummary.duration_seconds s)) ].

(** The worker's constructor arguments. *)
Record Worker : Type := mkWorker {
  folders : list Path;
  quality : Z;
  use_cbz : bool;
  replace_originals : bool;
  skip_webp : bool
}.

(* ===================================================================== *)
(** * The operating system, the signals, and the command monad *)
(* ===================================================================== *)

(** What a library call that can fail returns: its value, or the text of the
    exception it raised (the [{exc}] of the worker's messages). *)
Inductive result (A : Type) : Type :=
| Ok (a : A)
| Failed (exc : string).
Arguments Ok {A} a.
Arguments Failed {A} exc.

(** How [subprocess.run(cmd, ...)] ends. *)
Inductive process_result : Type :=
| ProcNotFound                                   (* FileNotFoundError *)
| ProcError (exc : string)                       (* any other exception *)
| ProcExit (returncode : Z) (stderr : string).   (* stderr already decoded *)

(** Every interaction of the worker with its environment. *)
Inductive OsCall : Type :=
| CallPerfCounter
| CallWhich (program : string)
| CallIsInterruptionRequested
| CallExists (p : Path)
| CallIsFile (p : Path)
| CallListDir (p : Path)
| CallRmTree (p : Path)
| CallMkdir (p : Path)
| CallUnlink (p : Path)
| CallMove (src dst : Path)
| CallStat (p : Path)
| CallRun (cmd : list string)
| CallZipWrite (archive : Path) (members : list (Path * string)).

(** What an observer of a run sees, in order: the four Qt signals of the
    worker and its calls into the operating system. *)
Inductive Event : Type :=
| Progress (percentage : Z)
| Status (message : string)
| SummaryReady (summary : pyval)
| Finished
| Called (c : OsCall).

(** The environment answers each call and moves to a new state; nothing is
    assumed about how it answers, so files may appear, vanish or change
    between two calls and the interruption flag may be raised at any time.
    Calls that the source makes outside any [try] ([exists], [is_file],
    [iterdir], [shutil.which]) are taken to return. *)
Class OS (W : Type) : Type := {
  perf_counter : W -> Q * W;
  which : string -> W -> bool * W;
  isInterruptionRequested : W -> bool * W;
  exists_ : Path -> W -> bool * W;
  is_file : Path -> W -> bool * W;
  listdir : Path -> W -> list string * W;
  rmtree : Path -> W -> result unit * W;
  mkdir : Path -> W -> result unit * W;
  unlink : Path -> W -> result unit * W;
  move : Path -> Path -> W -> result unit * W;
  stat_size : Path -> W -> result Z * W;
  subprocess_run : list string -> W -> process_result * W;
  zip_write : Path -> list (Path * string) -> W -> result unit * W
}.

(** How a command ends: normally, or with an exception nothing catches
    (which ends the thread). *)
Inductive outcome (A : Type) : Type :=
| Done (a : A)
| Uncaught (e : Float64.pyexc).
Arguments Done {A} a.
Arguments Uncaught {A} e.

(** A command reads and changes the environment and leaves a trace. *)
Definition M (W A : Type) : Type := W -> outcome A * W * list Event.

Definition ret {W A : Type} (a : A) : M W A := fun w => (Done a, w, []).

Definition bind {W A B : Type} (m : M W A) (k : A -> M W B) : M W B :=
  fun w =>
    match m w with
    | (Done a, w1, t1) =>
        match k a w1 with
        | (r, w2, t2) => (r, w2, (t1 ++ t2)%list)
        end
    | (Uncaught e, w1, t1) => (Uncaught e, w1, t1)
    end.

Definition emit {W : Type} (e : Event) : M W unit := fun w => (Done tt, w, [e]).

Definition call {W A : Type} (c : OsCall) (op : W -> A * W) : M W A :=
  fun w => let (a, w1) := op w in (Done a, w1, [Called c]).

Definition lift {W A : Type} (r : Float64.raises A) : M W A :=
  fun w =>
    match r with
    | Float64.Value a => (Done a, w, [])
    | Float64.Raise e => (Uncaught e, w, [])
    end.

Declare Scope cmd_scope.
Delimit Scope cmd_scope with cmd.
Notation "x <- m ;; k" := (bind m (fun x => k))
  (at level 100, m at next level, right associativity) : cmd_scope.
Notation "m ;; k" := (bind m (fun _ => k))
  (at level 100, right associativity) : cmd_scope.
Notation "' p <- m ;; k" := (bind m (fun x => let 'p := x in k))
  (at level 100, p pattern, m at next level, right associativity) : cmd_scope.

(* ===================================================================== *)
(** * The worker *)
(* ===================================================================== *)

(** [len(xs)] *)
Definition len {A : Type} (xs : list A) : Z := Z.of_nat (length xs).

(** [sum(f(x) for x in xs)] *)
Definition sum_of {A : Type} (f : A -> Z) (xs : list A) : Z :=
  fold_left (fun acc x => acc + f x) xs 0.

(** [xs.insert(i, x)] for [0 <= i]. *)
Definition list_insert {A : Type} (i : nat) (x : A) (xs : list A) : list A :=
  (firstn i xs ++ x :: skipn i xs)%list.

(** How a loop of [run] is left: by running off its end (or [continue]),
    or by the [return] that ends [run] on cancellation. *)
Inductive loop_exit (A : Type) : Type :=
| Completed (a : A)
| Returned.
Arguments Completed {A} a.
Arguments Returned {A}.

(** The per-folder accumulators of [run]. *)
Record FolderAcc : Type := mkAcc {
  converted_count : Z;
  acc_bytes_original : Z;
  acc_bytes_converted : Z;
  folder_errors : list string
}.

(** [total_files if total_files > 0 else total_convertible] *)
Definition work_units (total_files total_convertible : Z) : Z :=
  if total_files >? 0 then total_files else total_convertible.

Definition is_webp (path : Path) : bool :=
  String.eqb (PyStr.lower (PyPath.suffix path)) ".webp".

Definition is_supported (path : Path) : bool :=
  PyStr.str_in (PyStr.lower (PyPath.suffix path)) SUPPORTED_EXTENSIONS.

Definition size_or_zero (r : result Z) : Z :=
  match r with
  | Ok n => n
  | Failed _ => 0
  end.

(** The archive members [zipf.write(p, arcname=p.name)] adds. *)
Definition members_of (files : list Path) : list (Path * string) :=
  map (fun p => (p, PyPath.name p)) files.

Definition archive_made (summary : FolderSummary.t) : bool :=
  match FolderSummary.archive_path summary with
  | Some p => PyStr.truthy p
  | None => false
  end.

(** The dict [_build_run_summary] returns, once it has read the clock. *)
Definition summary_dict (folder_summaries : list FolderSummary.t)
    (duration : Float64.pyfloat)
    (total_work_units processed_units expected_conversions : Z)
    (cancelled : bool) : pyval :=
  let total_converted := sum_of FolderSummary.converted folder_summaries in
  let total_skipped := sum_of FolderSummary.skipped_existing folder_summaries in
  let total_errors := sum_of (fun s => len (FolderSummary.errors s)) folder_summaries in
  let total_bytes_original := sum_of FolderSummary.bytes_original folder_summaries in
  let total_bytes_converted := sum_of FolderSummary.bytes_converted folder_summaries in
  let total_bytes_saved := Z.max 0 (total_bytes_original - total_bytes_converted) in
  let archives_created :=
    sum_of (fun _ => 1) (filter archive_made folder_summaries) in
  VDict [
    ("cancelled", VBool cancelled);
    ("duration_seconds", VFloat duration);
    ("total_images", VInt total_work_units);
    ("processed_images", VInt processed_units);
    ("expected_conversions", VInt expected_conversions);
    ("totals", VDict [
       ("converted", VInt total_converted);
       ("skipped_existing", VInt total_skipped);
       ("errors", VInt total_errors);
       ("bytes_original", VInt total_bytes_original);
       ("bytes_converted", VInt total_bytes_converted);
       ("bytes_saved", VInt total_bytes_saved);
       ("archives", VInt archives_created) ]);
    ("folders", VList (map asdict folder_summaries)) ].

Section WorkerMethods.

Context {W : Type} {os : OS W}.
Variable self : Worker.

Local Open Scope cmd_scope.

(** [path.iterdir()]: the directory's entries, each joined to [path]. *)
Definition iterdir (p : Path) : M W (list Path) :=
  names <- call (CallListDir p) (listdir p) ;;
  ret (map (PyPath.child p) names).

Definition _encoder_available : M W bool :=
  found <- call (CallWhich ENCODER_NAME) (which ENCODER_NAME) ;;
  if found then ret true
  else
    emit (Status ("Unable to find '" ++ ENCODER_NAME
                  ++ "' executable. Please install it and make sure it is on PATH.")) ;;
    ret false.

(** [[path for path in folder.iterdir()
      if path.is_file() and path.suffix.lower() in SUPPORTED_EXTENSIONS]] *)
Fixpoint supported_files (paths : list Path) : M W (list Path) :=
  match paths with
  | [] => ret []
  | path :: rest =>
      f <- call (CallIsFile path) (is_file path) ;;
      tl <- supported_files rest ;;
      ret (if f && is_supported path then path :: tl else tl)
  end.

Fixpoint _prepare_batches_from (todo : list Path) (batches : list FolderBatch.t)
    (total_convertible total_files : Z) : M W (list FolderBatch.t * Z * Z) :=
  match todo with
  | [] => ret (batches, total_convertible, total_files)
  | folder :: rest =>
      present <- call (CallExists folder) (exists_ folder) ;;
      if negb present then
        emit (Status ("Folder '" ++ PyPath.str folder ++ "' does not exist, skipping.")) ;;
        _prepare_batches_from rest batches total_convertible total_files
      else
        entries <- iterdir folder ;;
        all_images <- supported_files entries ;;
        let skipped_webp :=
          if skip_webp self then filter is_webp all_images else [] in
        let convertible_images :=
          filter (fun path => negb (skip_webp self && is_webp path)) all_images in
        _prepare_batches_from rest
          (batches ++ [FolderBatch.make folder all_images convertible_images skipped_webp])%list
          (total_convertible + len convertible_images)
          (total_files + len all_images)
  end.

Definition _prepare_batches : M W (list FolderBatch.t * Z * Z) :=
  _prepare_batches_from (folders self) [] 0 0.

(** The caller catches every exception of this method, so it returns the
    directory or the text of what was raised. *)
Definition _prepare_output_dir (folder : Path) : M W (result Path) :=
  let outdir := PyPath.child folder OUTPUT_DIR_NAME in
  present <- call (CallExists outdir) (exists_ outdir) ;;
  removed <- (if present then call (CallRmTree outdir) (rmtree outdir)
              else ret (Ok tt)) ;;
  match removed with
  | Failed exc => ret (Failed exc)
  | Ok _ =>
      made <- call (CallMkdir outdir) (mkdir outdir) ;;
      match made with
      | Failed exc => ret (Failed exc)
      | Ok _ => ret (Ok outdir)
      end
  end.

Definition _cleanup_dir (directory : Path) : M W unit :=
  present <- call (CallExists directory) (exists_ directory) ;;
  if negb present then ret tt
  else
    removed <- call (CallRmTree directory) (rmtree directory) ;;
    match removed with
    | Ok _ => ret tt
    | Failed exc =>
        emit (Status ("Error removing folder " ++ PyPath.str directory ++ ": " ++ exc))
    end.

Definition _build_cwebp_command (source target : Path) : list string :=
  let cmd := [ENCODER_NAME; "-q"; PyStr.str_of_int (quality self);
              PyPath.str source; "-o"; PyPath.str target] in
  if String.eqb (PyStr.lower (PyPath.suffix source)) ".png" && (quality self =? 100)
  then list_insert 1 "-lossless" cmd
  else cmd.

(** Returns [(success, original_size, converted_size, error_message)]. *)
Definition _convert_image (source outdir : Path)
    : M W (bool * Z * Z * option string) :=
  let target := PyPath.child outdir (PyPath.stem source ++ ".webp") in
  let cmd := _build_cwebp_command source target in
  st <- call (CallStat source) (stat_size source) ;;
  let original_size := size_or_zero st in
  r <- call (CallRun cmd) (subprocess_run cmd) ;;
  match r with
  | ProcNotFound =>
      emit (Status ("'" ++ ENCODER_NAME ++ "' executable not found while converting "
                    ++ PyPath.name source ++ ".")) ;;
      ret (false, original_size, 0,
           Some (PyPath.name source ++ ": encoder '" ++ ENCODER_NAME ++ "' not found."))
  | ProcError exc =>
      emit (Status ("Unexpected error converting " ++ PyPath.name source ++ ": " ++ exc)) ;;
      ret (false, original_size, 0,
           Some (PyPath.name source ++ ": unexpected error " ++ exc))
  | ProcExit returncode decoded =>
      if negb (returncode =? 0) then
        let stderr :=
          PyStr.strip (if PyStr.truthy decoded then decoded else "Unknown error.") in
        emit (Status ("Error converting " ++ PyPath.name source ++ ": " ++ stderr)) ;;
        ret (false, original_size, 0, Some (PyPath.name source ++ ": " ++ stderr))
      else
        present <- call (CallExists target) (exists_ target) ;;
        converted_size <-
          (if present then
             st' <- call (CallStat target) (stat_size target) ;;
             ret (size_or_zero st')
           else ret 0) ;;
        ret (true, original_size, converted_size, None)
  end.

(** First loop of [_replace_originals]: delete each original. *)
Fixpoint delete_originals (originals : list Path) (errors : list string)
    : M W (list string) :=
  match originals with
  | [] => ret errors
  | original :: rest =>
      present <- call (CallExists original) (exists_ original) ;;
      if negb present then delete_originals rest errors
      else
        removed <- call (CallUnlink original) (unlink original) ;;
        match removed with
        | Ok _ => delete_originals rest errors
        | Failed exc =>
            let message := "Error deleting " ++ PyPath.name original ++ ": " ++ exc in
            emit (Status message) ;;
            delete_originals rest (errors ++ [message])%list
        end
  end.

(** Second loop of [_replace_originals]: move each output next to the
    originals. *)
Fixpoint move_outputs (folder : Path) (outputs : list Path) (errors : list string)
    : M W (list string) :=
  match outputs with
  | [] => ret errors
  | optimized :: rest =>
      let destination := PyPath.child folder (PyPath.name optimized) in
      moved <- call (CallMove optimized destination) (move optimized destination) ;;
      match moved with
      | Ok _ => move_outputs folder rest errors
      | Failed exc =>
          let message := "Error moving " ++ PyPath.name optimized ++ ": " ++ exc in
          emit (Status message) ;;
          move_outputs folder rest (errors ++ [message])%list
      end
  end.

Definition _replace_originals (batch : FolderBatch.t) (outdir : Path)
    : M W (list string) :=
  emit (Status ("Replacing originals in '"
                ++ PyPath.name (FolderBatch.folder batch) ++ "'...")) ;;
  errors <- delete_originals (FolderBatch.convertible_images batch) [] ;;
  outputs <- iterdir outdir ;;
  errors <- move_outputs (FolderBatch.folder batch) outputs errors ;;
  _cleanup_dir outdir ;;
  ret errors.

(** Returns [(archive_path, archive_size, errors)]. *)
Definition _create_archive (batch : FolderBatch.t) (outdir : Path)
    : M W (option Path * option Z * list string) :=
  let archive_ext := if use_cbz self then ".cbz" else ".zip" in
  let archive_label := if use_cbz self then "CBZ" else "ZIP" in
  let archive_name := PyPath.name (FolderBatch.folder batch) ++ archive_ext in
  let archive_path := PyPath.child (PyPath.parent (FolderBatch.folder batch)) archive_name in
  emit (Status ("Creating " ++ archive_label ++ " archive for '"
                ++ PyPath.name (FolderBatch.folder batch) ++ "'...")) ;;
  present <- call (CallExists archive_path) (exists_ archive_path) ;;
  removed <- (if present then call (CallUnlink archive_path) (unlink archive_path)
              else ret (Ok tt)) ;;
  match removed with
  | Failed exc =>
      let message := "Unable to remove existing archive " ++ archive_name ++ ": " ++ exc in
      emit (Status message) ;;
      _cleanup_dir outdir ;;
      ret (None, None, [message])
  | Ok _ =>
      optimized_files <- iterdir outdir ;;
      let members :=
        (members_of optimized_files
         ++ (if skip_webp self then members_of (FolderBatch.skipped_webp batch) else []))%list in
      written <- call (CallZipWrite archive_path members) (zip_write archive_path members) ;;
      match written with
      | Failed exc =>
          let message := "Error creating archive for '"
                         ++ PyPath.name (FolderBatch.folder batch) ++ "': " ++ exc in
          emit (Status message) ;;
          _cleanup_dir outdir ;;
          ret (None, None, [message])
      | Ok _ =>
          present <- call (CallExists archive_path) (exists_ archive_path) ;;
          sized <-
            (if present then
               st <- call (CallStat archive_path) (stat_size archive_path) ;;
               match st with
               | Ok n => ret (Some n, [])
               | Failed exc =>
                   let message := "Unable to read archive size for '"
                                  ++ archive_name ++ "': " ++ exc in
                   emit (Status message) ;;
                   ret (None, [message])
               end
             else ret (None, [])) ;;
          _cleanup_dir outdir ;;
          present <- call (CallExists archive_path) (exists_ archive_path) ;;
          ret (if present then Some archive_path else None, fst sized, snd sized)
      end
  end.

(** [int((processed / total) * 100)], the value [_emit_progress] caps. *)
Definition percentage_of (processed total : Z) : Float64.raises Z :=
  match Float64.int_truediv processed total with
  | Float64.Value ratio => Float64.int_of_float (Float64.float_mul_int ratio 100)
  | Float64.Raise e => Float64.Raise e
  end.

Definition _emit_progress (processed total : Z) : M W unit :=
  if total <=? 0 then ret tt
  else
    uncapped <- lift (percentage_of processed total) ;;
    let percentage := Z.min 100 uncapped in
    emit (Progress percentage).

Definition _build_run_summary (folder_summaries : list FolderSummary.t)
    (run_start : Q) (total_work_units processed_units expected_conversions : Z)
    (cancelled : bool) : M W pyval :=
  now <- call CallPerfCounter perf_counter ;;
  let duration := Float64.float_max0 (Float64.float_sub now run_start) in
  ret (summary_dict folder_summaries duration total_work_units processed_units
         expected_conversions cancelled).

(** The [return] taken when an interruption is seen: status, summary with
    [cancelled=True], [finished]. *)
Definition cancel_run {A : Type} (folder_summaries : list FolderSummary.t)
    (run_start : Q) (total_work_units processed_units total_convertible : Z)
    : M W (loop_exit A) :=
  summary <- _build_run_summary folder_summaries run_start total_work_units
               processed_units total_convertible true ;;
  emit (SummaryReady summary) ;;
  emit Finished ;;
  ret Returned.

(** [for source in batch.convertible_images: ...] *)
Fixpoint convert_images (folder_summaries : list FolderSummary.t) (run_start : Q)
    (total_work_units total_convertible : Z) (batch : FolderBatch.t) (outdir : Path)
    (sources : list Path) (acc : FolderAcc) (processed_units : Z)
    : M W (loop_exit (FolderAcc * Z)) :=
  match sources with
  | [] => ret (Completed (acc, processed_units))
  | source :: rest =>
      interrupted <- call CallIsInterruptionRequested isInterruptionRequested ;;
      if interrupted then
        emit (Status "Conversion cancelled.") ;;
        _cleanup_dir outdir ;;
        cancel_run folder_summaries run_start total_work_units processed_units
          total_convertible
      else
        emit (Status ("[" ++ PyPath.name (FolderBatch.folder batch) ++ "] Processing "
                      ++ PyPath.name source ++ "...")) ;;
        '(success, original_size, converted_size, error_message) <-
          _convert_image source outdir ;;
        let processed_units := processed_units + 1 in
        _emit_progress processed_units total_work_units ;;
        let acc :=
          if success then
            mkAcc (converted_count acc + 1)
                  (acc_bytes_original acc + original_size)
                  (acc_bytes_converted acc + converted_size)
                  (folder_errors acc)
          else
            match error_message with
            | Some message =>
                if PyStr.truthy message then
                  mkAcc (converted_count acc) (acc_bytes_original acc)
                        (acc_bytes_converted acc)
                        (folder_errors acc ++ [message])%list
                else acc
            | None => acc
            end in
        convert_images folder_summaries run_start total_work_units total_convertible
          batch outdir rest acc processed_units
  end.

(** One iteration of [for batch in batches: ...]. *)
Definition process_batch (run_start : Q) (total_work_units total_convertible : Z)
    (batch : FolderBatch.t) (folder_summaries : list FolderSummary.t)
    (processed_units : Z) : M W (loop_exit (list FolderSummary.t * Z)) :=
  interrupted <- call CallIsInterruptionRequested isInterruptionRequested ;;
  if interrupted then
    emit (Status "Conversion cancelled.") ;;
    cancel_run folder_summaries run_start total_work_units processed_units
      total_convertible
  else
    folder_start <- call CallPerfCounter perf_counter ;;
    let folder_name := PyPath.name (FolderBatch.folder batch) in
    emit (Status ("Processing folder '" ++ folder_name ++ "'...")) ;;
    prepared <- _prepare_output_dir (FolderBatch.folder batch) ;;
    match prepared with
    | Failed exc =>
        let error_msg :=
          "Unable to prepare output directory for " ++ folder_name ++ ": " ++ exc in
        emit (Status error_msg) ;;
        now <- call CallPerfCounter perf_counter ;;
        let folder_summary :=
          FolderSummary.make (PyPath.str (FolderBatch.folder batch)) 0
            (len (FolderBatch.skipped_webp batch)) [error_msg] 0 0 None None
            (Float64.float_sub now folder_start) in
        ret (Completed ((folder_summaries ++ [folder_summary])%list, processed_units))
    | Ok outdir =>
        if match FolderBatch.convertible_images batch with [] => true | _ => false end
           && negb (replace_originals self) then
          let message := "No images to convert in " ++ folder_name ++ ", skipping." in
          emit (Status message) ;;
          _cleanup_dir outdir ;;
          now <- call CallPerfCounter perf_counter ;;
          let folder_summary :=
            FolderSummary.make (PyPath.str (FolderBatch.folder batch)) 0
              (len (FolderBatch.skipped_webp batch)) [message] 0 0 None None
              (Float64.float_sub now folder_start) in
          ret (Completed ((folder_summaries ++ [folder_summary])%list, processed_units))
        else
          converted <- convert_images folder_summaries run_start total_work_units
                         total_convertible batch outdir
                         (FolderBatch.convertible_images batch)
                         (mkAcc 0 0 0 []) processed_units ;;
          match converted with
          | Returned => ret Returned
          | Completed (acc, processed_units) =>
              '(archive_path, archive_size, folder_errors) <-
                (if replace_originals self then
                   errors <- _replace_originals batch outdir ;;
                   ret (None, None, (folder_errors acc ++ errors)%list)
                 else
                   '(archive_path, archive_size, archive_errors) <-
                     _create_archive batch outdir ;;
                   ret (archive_path, archive_size,
                        (folder_errors acc ++ archive_errors)%list)) ;;
              let skipped_units :=
                len (FolderBatch.all_images batch)
                - len (FolderBatch.convertible_images batch) in
              processed_units <-
                (if skipped_units >? 0 then
                   let processed_units := processed_units + skipped_units in
                   _emit_progress processed_units total_work_units ;;
                   ret processed_units
                 else ret processed_units) ;;
              now <- call CallPerfCounter perf_counter ;;
              let folder_summary :=
                FolderSummary.make (PyPath.str (FolderBatch.folder batch))
                  (converted_count acc)
                  (len (FolderBatch.skipped_webp batch))
                  folder_errors
                  (acc_bytes_original acc)
                  (acc_bytes_converted acc)
                  archive_size
                  (option_map PyPath.str archive_path)
                  (Float64.float_sub now folder_start) in
              ret (Completed ((folder_summaries ++ [folder_summary])%list,
                              processed_units))
          end
    end.

(** [for batch in batches: ...] *)
Fixpoint process_batches (run_start : Q) (total_work_units total_convertible : Z)
    (batches : list FolderBatch.t) (folder_summaries : list FolderSummary.t)
    (processed_units : Z) : M W (loop_exit (list FolderSummary.t * Z)) :=
  match batches with
  | [] => ret (Completed (folder_summaries, processed_units))
  | batch :: rest =>
      step <- process_batch run_start total_work_units total_convertible batch
                folder_summaries processed_units ;;
      match step with
      | Returned => ret Returned
      | Completed (folder_summaries, processed_units) =>
          process_batches run_start total_work_units total_convertible rest
            folder_summaries processed_units
      end
  end.

Definition run : M W unit :=
  run_start <- call CallPerfCounter perf_counter ;;
  let folder_summaries : list FolderSummary.t := [] in
  let processed_units := 0 in
  available <- _encoder_available ;;
  if negb available then
    summary <- _build_run_summary folder_summaries run_start 0 processed_units 0 false ;;
    emit (SummaryReady summary) ;;
    emit Finished
  else
    '(batches, total_convertible, total_files) <- _prepare_batches ;;
    let total_work_units := work_units total_files total_convertible in
    if total_convertible =? 0 then
      emit (Status "No images to convert in selected folder(s).") ;;
      summary <- _build_run_summary folder_summaries run_start total_work_units
                   processed_units total_convertible false ;;
      emit (SummaryReady summary) ;;
      emit Finished
    else
      looped <- process_batches run_start total_work_units total_convertible
                  batches folder_summaries processed_units ;;
      match looped with
      | Returned => ret tt
      | Completed (folder_summaries, processed_units) =>
          emit (Status "All done!") ;;
          emit (Progress 100) ;;
          summary <- _build_run_summary folder_summaries run_start total_work_units
                       processed_units total_convertible false ;;
          emit (SummaryReady summary) ;;
          emit Finished
      end.

End WorkerMethods.

(* ===================================================================== *)
(** * Observing a run *)
(* ===================================================================== *)

Definition result_of {W A : Type} (x : outcome A * W * list Event) : outcome A :=
  fst (fst x).
Definition world_of {W A : Type} (x : outcome A * W * list Event) : W :=
  snd (fst x).
Definition trace_of {W A : Type} (x : outcome A * W * list Event) : list Event :=
  snd x.

(** The percentages sent on the [progress] signal, in order. *)
Fixpoint progress_values (t : list Event) : list Z :=
  match t with
  | [] => []
  | Progress v :: rest => v :: progress_values rest
  | _ :: rest => progress_values rest
  end.

(** The summaries sent on the [summary_ready] signal, in order. *)
Fixpoint summaries_of (t : list Event) : list pyval :=
  match t with
  | [] => []
  | SummaryReady s :: rest => s :: summaries_of rest
  | _ :: rest => summaries_of rest
  end.

(** The calls made into the operating system, in order. *)
Fixpoint calls_of (t : list Event) : list OsCall :=
  match t with
  | [] => []
  | Called c :: rest => c :: calls_of rest
  | _ :: rest => calls_of rest
  end.

(** The entries of a summary's [folders] list. *)
Definition folders_of (summary : pyval) : list pyval :=
  match py_get "folders" summary with
  | Some (VList entries) => entries
  | _ => []
  end.

(** [summary["totals"][key]] *)
Definition totals_get (key : string) (summary : pyval) : option pyval :=
  match py_get "totals" summary with
  | Some totals => py_get key totals
  | None => None
  end.

(** A call that removes something from the file system, and whether it
    removes the file [p]: [unlink] removes its target, [rmtree] its target
    and everything below. *)
Definition deletes (c : OsCall) (p : Path) : bool :=
  match c with
  | CallUnlink q => PyPath.eqb q p
  | CallRmTree d => PyPath.within d p
  | CallMove src _ => PyPath.eqb src p
  | _ => false
  end.

(** The status line with which [_create_archive] announces itself. *)
Definition announces_archive (message : string) : bool :=
  String.prefix "Creating " message.

Definition is_zip_write (c : OsCall) : bool :=
  match c with
  | CallZipWrite _ _ => true
  | _ => false
  end.

(* ===================================================================== *)
(** * A scripted environment *)
(* ===================================================================== *)

(** A small deterministic environment on which the worker can be run: a
    fixed directory tree, a clock that advances by one second per reading,
    an encoder that fails on listed sources, directories that cannot be
    created, and an interruption raised after a given number of polls. *)
Module Sim.

Record t : Type := make {
  clock : Z;
  encoder_installed : bool;
  polls_before_interrupt : option nat;
  tree : list (Path * list string);
  failing_sources : list string;
  read_only : list Path
}.

Definition tick (w : t) : t :=
  make (clock w + 1) (encoder_installed w) (polls_before_interrupt w) (tree w)
       (failing_sources w) (read_only w).

Definition poll (w : t) : bool * t :=
  match polls_before_interrupt w with
  | None => (false, w)
  | Some O => (true, w)
  | Some (S n) =>
      (false, make (clock w) (encoder_installed w) (Some n) (tree w)
                   (failing_sources w) (read_only w))
  end.

Definition entries (p : Path) (w : t) : list string :=
  match find (fun d => PyPath.eqb (fst d) p) (tree w) with
  | Some d => snd d
  | None => []
  end.

Definition present (p : Path) (w : t) : bool :=
  existsb (fun d => PyPath.eqb (fst d) p
                    || existsb (fun n => PyPath.eqb (PyPath.child (fst d) n) p) (snd d))
          (tree w).

Definition may_create (p : Path) (w : t) : result unit :=
  if existsb (PyPath.eqb p) (read_only w) then Failed "Permission denied" else Ok tt.

Definition size (p : Path) : Z :=
  if existsb (String.eqb OUTPUT_DIR_NAME) (parts p) then 400 else 1000.

Definition encode (cmd : list string) (w : t) : process_result :=
  if existsb (fun arg => PyStr.str_in arg (failing_sources w)) cmd
  then ProcExit 1 "cannot decode"
  else ProcExit 0 "".

#[global] Instance os : OS t := {|
  perf_counter w := (inject_Z (clock w), tick w);
  which _ w := (encoder_installed w, w);
  isInterruptionRequested w := poll w;
  exists_ p w := (present p w, w);
  is_file _ w := (true, w);
  listdir p w := (entries p w, w);
  rmtree _ w := (Ok tt, w);
  mkdir p w := (may_create p w, w);
  unlink _ w := (Ok tt, w);
  move _ _ w := (Ok tt, w);
  stat_size p w := (Ok (size p), w);
  subprocess_run cmd w := (encode cmd w, w);
  zip_write _ _ w := (Ok tt, w)
|}.

End Sim.

(** Two folders used in the examples: [/lib/a] holds a PNG and a JPEG,
    [/lib/b] only a WebP file. *)
Definition dir_a : Path := mkPath "/" ["lib"; "a"].
Definition dir_b : Path := mkPath "/" ["lib"; "b"].
Definition lib_tree : list (Path * list string) :=
  [(dir_a, ["p.png"; "q.jpg"]); (dir_b, ["r.webp"])].

Definition quiet_world : Sim.t := Sim.make 0 true None lib_tree [] [].

(* ===================================================================== *)
(** * Statements used by the theorems *)
(* ===================================================================== *)

(** C1 as the specification words it: the command asks for lossless
    encoding and does not carry the numeric quality among its arguments. *)
Definition lossless_instead_of_quality (cmd : list string) (q : Z) : Prop :=
  In "-lossless" cmd /\ ~ In (PyStr.str_of_int q) cmd.

Definition png_in_a : Path := PyPath.child dir_a "p.png".
Definition webp_out_a : Path :=
  PyPath.child (PyPath.child dir_a OUTPUT_DIR_NAME) "p.webp".
Definition max_quality_worker : Worker := mkWorker [dir_a; dir_b] 100 false false true.

(** What [_emit_progress] sends for [processed] of [total] when its
    arithmetic does not raise (and the cap itself when it does, which makes
    the function monotone in [processed]). *)
Definition capped (processed total : Z) : Z :=
  match percentage_of processed total with
  | Float64.Value v => Z.min 100 v
  | Float64.Raise _ => 100
  end.

(** [always m P Q]: whatever the environment answers, every event [m]
    leaves in the trace satisfies [P], and every value it returns satisfies
    [Q]. *)
Definition always {W A : Type} (m : M W A) (P : Event -> Prop) (Q : A -> Prop) : Prop :=
  forall w : W,
    Forall P (trace_of (m w)) /\ (forall a, result_of (m w) = Done a -> Q a).

Definition anything {A : Type} (_ : A) : Prop := True.

(** A loop that was not left by [return] sealed only summaries in [Inv]. *)
Definition sealed (Inv : FolderSummary.t -> Prop)
    (r : loop_exit (list FolderSummary.t * Z)) : Prop :=
  match r with
  | Completed (fs, _) => Forall Inv fs
  | Returned => True
  end.

Definition folder_path (b : FolderBatch.t) : string :=
  PyPath.str (FolderBatch.folder b).

(** An iteration of the folder loop that was not left by [return] appended
    exactly one summary, for the batch's folder and in [Inv]. *)
Definition appended_one (Inv : FolderSummary.t -> Prop) (batch : FolderBatch.t)
    (fs : list FolderSummary.t) (r : loop_exit (list FolderSummary.t * Z)) : Prop :=
  match r with
  | Completed (fs', _) =>
      exists f, fs' = (fs ++ [f])%list
                /\ FolderSummary.folder f = folder_path batch /\ Inv f
  | Returned => True
  end.

(** A stretch of the folder loop that was not left by [return] appended one
    summary per batch, in order. *)
Definition appended_each (Inv : FolderSummary.t -> Prop) (batches : list FolderBatch.t)
    (fs : list FolderSummary.t) (r : loop_exit (list FolderSummary.t * Z)) : Prop :=
  match r with
  | Completed (fs', _) =>
      exists new, fs' = (fs ++ new)%list
                  /\ map FolderSummary.folder new = map folder_path batches
                  /\ Forall Inv new
  | Returned => True
  end.

(** [quotient] and [scaled] are the two roundings inside [percentage_of]. *)
Definition quotient (p t : Z) : Q := Float64.round (inject_Z p / inject_Z t).
Definition scaled (p t : Z) : Q := Float64.round (quotient p t * inject_Z 100).

(** What the scan guarantees of a batch: every eligible image is an entry
    of the batch's folder with a supported suffix, and the two partitions
    are the filters the skip flag selects. *)
Definition scanned (self : Worker) (b : FolderBatch.t) : Prop :=
  (forall x, In x (FolderBatch.all_images b) ->
     (exists n, x = PyPath.child (FolderBatch.folder b) n) /\ is_supported x = true)
  /\ FolderBatch.convertible_images b
     = filter (fun path => negb (skip_webp self && is_webp path))
              (FolderBatch.all_images b)
  /\ FolderBatch.skipped_webp b
     = (if skip_webp self then filter is_webp (FolderBatch.all_images b) else []).

Definition convertible_count (b : FolderBatch.t) : Z :=
  len (FolderBatch.convertible_images b).
Definition file_count (b : FolderBatch.t) : Z := len (FolderBatch.all_images b).

Definition no_encoder_world : Sim.t := Sim.make 0 false None lib_tree [] [].

(** [summary["totals"]] *)
Definition totals_of (summary : pyval) : pyval :=
  match py_get "totals" summary with
  | Some totals => totals
  | None => VNone
  end.

(** In the dict [d], [bytes_saved] is [max(0, bytes_original -
    bytes_converted)], and not negative. *)
Definition saved_is_clamped_difference (d : pyval) : Prop :=
  exists o c v,
    py_get "bytes_original" d = Some (VInt o)
    /\ py_get "bytes_converted" d = Some (VInt c)
    /\ py_get "bytes_saved" d = Some (VInt v)
    /\ v = Z.max 0 (o - c) /\ 0 <= v.

(** C5 as the specification words it: at the run level and in every folder
    entry of the summary. *)
Definition saved_at_both_levels (summary : pyval) : Prop :=
  saved_is_clamped_difference (totals_of summary)
  /\ forall entry, In entry (folders_of summary) -> saved_is_clamped_difference entry.

(** C5 as the code has it: at the run level; a folder entry carries the two
    byte counts and no [bytes_saved]. *)
Definition saved_at_run_level (summary : pyval) : Prop :=
  saved_is_clamped_difference (totals_of summary)
  /\ forall entry, In entry (folders_of summary) ->
       py_get "bytes_saved" entry = None
       /\ exists o c, py_get "bytes_original" entry = Some (VInt o)
                      /\ py_get "bytes_converted" entry = Some (VInt c).

(** Every summary on the trace satisfies [R]. *)
Definition summaries_satisfy (R : pyval -> Prop) (e : Event) : Prop :=
  match e with
  | SummaryReady s => R s
  | _ => True
  end.

(** A folder entry without an archive: both keys hold [None]. *)
Definition no_archive_entry (entry : pyval) : Prop :=
  py_get "archive_path" entry = Some VNone /\ py_get "archive_size" entry = Some VNone.

Definition no_archive (s : FolderSummary.t) : Prop :=
  FolderSummary.archive_path s = None /\ FolderSummary.archive_size s = None.

(** What C7 asks of each event of a replace-mode run: the archive builder
    neither announces itself nor writes an archive, and no folder entry of
    a summary names an archive. *)
Definition replace_mode_event (e : Event) : Prop :=
  match e with
  | Status message => announces_archive message = false
  | Called c => is_zip_write c = false
  | SummaryReady s => forall entry, In entry (folders_of s) -> no_archive_entry entry
  | _ => True
  end.

(** What C7 asks of each event of the archive builder working on [batch]:
    no call removes one of the batch's images. *)
Definition keeps_images (batch : FolderBatch.t) (e : Event) : Prop :=
  match e with
  | Called c => forall x, In x (FolderBatch.all_images batch) -> deletes c x = false
  | _ => True
  end.

Definition replacing_worker : Worker := mkWorker [dir_a; dir_b] 80 true true false.
Definition batch_a : FolderBatch.t :=
  FolderBatch.make dir_a [PyPath.child dir_a "p.png"; PyPath.child dir_a "q.jpg"]
    [PyPath.child dir_a "p.png"; PyPath.child dir_a "q.jpg"] [].

(** [yields m R]: whatever the environment answers, [R] relates how [m]
    ends to the percentages and the summaries it sent. *)
Definition yields {W A : Type} (m : M W A)
    (R : outcome A -> list Z -> list pyval -> Prop) : Prop :=
  forall w : W,
    R (result_of (m w)) (progress_values (trace_of (m w)))
      (summaries_of (trace_of (m w))).

(** Events that are neither a percentage nor a summary. *)
Definition silent (e : Event) : Prop :=
  match e with
  | Progress _ | SummaryReady _ => False
  | _ => True
  end.

Definition no_progress (e : Event) : Prop :=
  match e with
  | Progress _ => False
  | _ => True
  end.

(** [vs] never decreases and starts at [lo] or above. *)
Fixpoint ascending_from (lo : Z) (vs : list Z) : Prop :=
  match vs with
  | [] => True
  | v :: rest => lo <= v /\ ascending_from v rest
  end.

Definition climbs (lo hi : Z) (vs : list Z) : Prop :=
  lo <= hi /\ ascending_from lo vs /\ Forall (fun v => v <= hi) vs.

(** The percentage that stands for [processed] units out of [total]. *)
Definition level (processed total : Z) : Z :=
  if 0 <? total then capped processed total else 100.

(** What a loop of [run] that starts with [p] processed units sends: if it
    runs to its end with [final a] units, percentages climbing from the
    level of [p] to the level of [final a] and no summary; otherwise
    percentages climbing from the level of [p] and capped at 100. *)
Definition loop_progress {A : Type} (T p : Z) (final : A -> Z)
    (r : outcome (loop_exit A)) (vs : list Z) (ss : list pyval) : Prop :=
  match r with
  | Done (Completed a) =>
      p <= final a /\ climbs (level p T) (level (final a) T) vs /\ ss = []
  | _ => climbs (level p T) 100 vs
  end.

(** C8 as the specification words it, at one input: the reporter sends one
    percentage, between 0 and 100, and changes nothing else. *)
Definition reports_percentage {W : Type} (processed total : Z) (w : W) : Prop :=
  exists v,
    _emit_progress processed total w = (Done tt, w, [Progress v]) /\ 0 <= v <= 100.

Definition batch_b : FolderBatch.t :=
  FolderBatch.make dir_b [PyPath.child dir_b "r.webp"] []
    [PyPath.child dir_b "r.webp"].

(** The note [run] records for a folder with nothing to convert. *)
Definition skip_note (batch : FolderBatch.t) : string :=
  "No images to convert in " ++ PyPath.name (FolderBatch.folder batch) ++ ", skipping.".

(** C10 as the specification words it, for the summary entry of [batch]:
    the note is among the entry's error strings. *)
Definition notes_skip (entry : pyval) (batch : FolderBatch.t) : Prop :=
  exists errs,
    py_get "errors" entry = Some (VList errs) /\ In (VStr (skip_note batch)) errs.

(** A world in which the output directory of [/lib/b] cannot be created. *)
Definition locked_world : Sim.t :=
  Sim.make 0 true None lib_tree [] [PyPath.child dir_b OUTPUT_DIR_NAME].

Definition error_count (s : FolderSummary.t) : Z := len (FolderSummary.errors s).

(** The first steps of [run], named: the clock reading, the encoder check,
    the scan. *)
Definition run_start {W : Type} {os : OS W} (w : W) : Q := fst (perf_counter w).
Definition encoder_check {W : Type} {os : OS W} (w : W) : outcome bool * W * list Event :=
  _encoder_available (snd (perf_counter w)).
Definition scan {W : Type} {os : OS W} (self : Worker) (w : W)
    : outcome (list FolderBatch.t * Z * Z) * W * list Event :=
  _prepare_batches self (world_of (encoder_check w)).

(** What follows a completed stretch of the folder loop. *)
Definition and_then {W : Type} {os : OS W} (self : Worker) (run_started : Q)
    (total_work_units total_convertible : Z) (rest : list FolderBatch.t)
    (r : loop_exit (list FolderSummary.t * Z))
    : M W (loop_exit (list FolderSummary.t * Z)) :=
  match r with
  | Completed (fs, p) =>
      process_batches self run_started total_work_units total_convertible rest fs p
  | Returned => ret Returned
  end.

(** A world in which the interruption is raised after three polls: the
    fourth poll, the one before the second folder, sees it. *)
Definition interrupted_world : Sim.t := Sim.make 0 true (Some 3%nat) lib_tree [] [].

(** An environment in which nothing fails and nobody cancels: the encoder
    exits with status 0 on every command, every file-system operation
    succeeds, and no interruption is ever pending. *)
Record cooperative {W : Type} (os : OS W) : Prop := {
  encoder_succeeds :
    forall cmd w, exists err, fst (subprocess_run cmd w) = ProcExit 0 err;
  unlink_succeeds : forall p w, fst (unlink p w) = Ok tt;
  move_succeeds : forall a b w, fst (move a b w) = Ok tt;
  zip_succeeds : forall a m w, fst (zip_write a m w) = Ok tt;
  stat_succeeds : forall p w, exists n, fst (stat_size p w) = Ok n;
  rmtree_succeeds : forall p w, fst (rmtree p w) = Ok tt;
  mkdir_succeeds : forall p w, fst (mkdir p w) = Ok tt;
  never_interrupted : forall w, fst (isInterruptionRequested w) = false
}.

(** The scripted tree under a cooperative environment whose only state is
    the clock. *)
Module Calm.

Definition t : Type := Z.

#[global] Instance os : OS t := {|
  perf_counter c := (inject_Z c, c + 1);
  which _ c := (true, c);
  isInterruptionRequested c := (false, c);
  exists_ p c := (Sim.present p quiet_world, c);
  is_file _ c := (true, c);
  listdir p c := (Sim.entries p quiet_world, c);
  rmtree _ c := (Ok tt, c);
  mkdir _ c := (Ok tt, c);
  unlink _ c := (Ok tt, c);
  move _ _ c := (Ok tt, c);
  stat_size p c := (Ok (Sim.size p), c);
  subprocess_run _ c := (ProcExit 0 "", c);
  zip_write _ _ c := (Ok tt, c)
|}.

End Calm.

(** C6 as the specification words it, for the summary [f] of the batch
    [b]: everything convertible was converted and nothing is recorded as an
    error. *)
Definition converts_all_without_errors (b : FolderBatch.t) (f : FolderSummary.t) : Prop :=
  FolderSummary.converted f = convertible_count b /\ FolderSummary.errors f = [].

(** C6 as the code has it: the errors list is empty unless the batch had
    nothing to convert and replace mode is off, in which case it holds the
    note. *)
Definition converts_all (self : Worker) (b : FolderBatch.t) (f : FolderSummary.t) : Prop :=
  FolderSummary.folder f = folder_path b
  /\ FolderSummary.converted f = convertible_count b
  /\ FolderSummary.errors f
     = (if (convertible_count b =? 0) && negb (replace_originals self)
        then [skip_note b] else []).

(** [surely m Q]: whatever the environment answers, [m] returns, and what
    it returns satisfies [Q]. *)
Definition surely {W A : Type} (m : M W A) (Q : A -> Prop) : Prop :=
  forall w : W, exists a, result_of (m w) = Done a /\ Q a.

(** How the three loops of [run] end in a cooperative environment: the
    image loop converts every source, an iteration of the folder loop seals
    one summary for its batch, the folder loop seals one per batch; none of
    them sends a summary. *)
Definition all_converted (acc : FolderAcc) (p n : Z)
    (r : outcome (loop_exit (FolderAcc * Z))) (ss : list pyval) : Prop :=
  ss = []
  /\ exists acc' p',
       r = Done (Completed (acc', p'))
       /\ p' = p + n
       /\ converted_count acc' = converted_count acc + n
       /\ folder_errors acc' = folder_errors acc.

Definition folder_sealed (self : Worker) (batch : FolderBatch.t)
    (fs : list FolderSummary.t) (p : Z)
    (r : outcome (loop_exit (list FolderSummary.t * Z))) (ss : list pyval) : Prop :=
  ss = []
  /\ exists f p',
       r = Done (Completed ((fs ++ [f])%list, p'))
       /\ converts_all self batch f
       /\ p <= p' <= p + file_count batch.

Definition folders_sealed (self : Worker) (batches : list FolderBatch.t)
    (fs : list FolderSummary.t) (p : Z)
    (r : outcome (loop_exit (list FolderSummary.t * Z))) (ss : list pyval) : Prop :=
  ss = []
  /\ exists new p',
       r = Done (Completed ((fs ++ new)%list, p'))
       /\ Forall2 (converts_all self) batches new
       /\ p <= p' <= p + sum_of file_count batches.

(* ===================================================================== *)
(** * Further statements about the worker *)
(* ===================================================================== *)

(** [returns m P Q]: whatever the environment answers, [m] raises nothing,
    the value it returns satisfies [Q], and every event it leaves in the
    trace satisfies [P]. *)
Definition returns {W A : Type} (m : M W A) (P : Event -> Prop) (Q : A -> Prop) : Prop :=
  forall w : W,
    Forall P (trace_of (m w)) /\ exists a, result_of (m w) = Done a /\ Q a.

(** [ends_with m R]: whatever the environment answers, [R] relates how [m]
    ends to the trace it leaves. *)
Definition ends_with {W A : Type} (m : M W A)
    (R : outcome A -> list Event -> Prop) : Prop :=
  forall w : W, R (result_of (m w)) (trace_of (m w)).

(** A method that only sends status lines and makes calls in [allowed]. *)
Definition calls_only (allowed : OsCall -> Prop) (e : Event) : Prop :=
  match e with
  | Called c => allowed c
  | Status _ => True
  | _ => False
  end.

(** Events other than the two that end a run. *)
Definition ongoing (e : Event) : Prop :=
  match e with
  | SummaryReady _ | Finished => False
  | _ => True
  end.

(** A trace that ends a run: one summary, sent last but for [finished]. *)
Definition concluded (t : list Event) (s : pyval) : Prop :=
  exists pre, t = (pre ++ [SummaryReady s; Finished])%list /\ Forall ongoing pre.

(** [outdir / (source.stem + ".webp")] *)
Definition target_of (source outdir : Path) : Path :=
  PyPath.child outdir (PyPath.stem source ++ ".webp").

(** The calls [_convert_image] makes for [source]. *)
Definition conversion_call (self : Worker) (source outdir : Path) (c : OsCall) : Prop :=
  c = CallStat source
  \/ c = CallRun (_build_cwebp_command self source (target_of source outdir))
  \/ c = CallExists (target_of source outdir)
  \/ c = CallStat (target_of source outdir).

(** What [_convert_image] returns for [source]: on success no message, on
    failure a converted size of zero and a message that starts with the
    file's name. *)
Definition conversion_outcome (source : Path) (r : bool * Z * Z * option string) : Prop :=
  let '(success, _, converted_size, error_message) := r in
  if success then error_message = None
  else converted_size = 0
       /\ exists detail, error_message = Some (PyPath.name source ++ ": " ++ detail).

(** Whether the encoder process ended with exit status 0. *)
Definition exited_cleanly (r : process_result) : bool :=
  match r with
  | ProcExit returncode _ => returncode =? 0
  | _ => false
  end.

(** The calls of the scan: it only looks at the file system. *)
Definition scan_call (c : OsCall) : Prop :=
  match c with
  | CallExists _ | CallListDir _ | CallIsFile _ => True
  | _ => False
  end.

(** [xs] is [ys] with some elements left out, order kept. *)
Inductive subsequence {A : Type} : list A -> list A -> Prop :=
| subsequence_nil : subsequence [] []
| subsequence_keep (x : A) (xs ys : list A) :
    subsequence xs ys -> subsequence (x :: xs) (x :: ys)
| subsequence_drop (y : A) (xs ys : list A) :
    subsequence xs ys -> subsequence xs (y :: ys).

(** How [_prepare_batches] splits the eligible images of a batch. *)
Definition partitioned (self : Worker) (b : FolderBatch.t) : Prop :=
  (forall x, In x (FolderBatch.all_images b) ->
     (exists n, x = PyPath.child (FolderBatch.folder b) n) /\ is_supported x = true)
  /\ (forall x, In x (FolderBatch.convertible_images b) ->
                In x (FolderBatch.skipped_webp b) -> False)
  /\ (forall x, In x (FolderBatch.all_images b) <->
                In x (FolderBatch.convertible_images b)
                \/ In x (FolderBatch.skipped_webp b))
  /\ len (FolderBatch.all_images b)
     = len (FolderBatch.convertible_images b) + len (FolderBatch.skipped_webp b)
  /\ (skip_webp self = true ->
        Forall (fun x => is_webp x = true) (FolderBatch.skipped_webp b)
        /\ Forall (fun x => is_webp x = false) (FolderBatch.convertible_images b))
  /\ (skip_webp self = false ->
        FolderBatch.convertible_images b = FolderBatch.all_images b
        /\ FolderBatch.skipped_webp b = []).

(** What the scan returns, counted from the batches [more] it adds. *)
Definition scanned_more (self : Worker) (todo : list Path)
    (batches : list FolderBatch.t) (total_convertible total_files : Z)
    (r : list FolderBatch.t * Z * Z) : Prop :=
  exists more,
    r = ((batches ++ more)%list,
         total_convertible + sum_of convertible_count more,
         total_files + sum_of file_count more)
    /\ Forall (scanned self) more
    /\ subsequence (map FolderBatch.folder more) todo.

(** [m] leaves the event [e] in its trace, whatever the environment
    answers. *)
Definition attempts {W A : Type} (m : M W A) (e : Event) : Prop :=
  forall w : W, In e (trace_of (m w)).

(** [batch.folder.parent / f"{batch.folder.name}{archive_ext}"] *)
Definition archive_path_of (self : Worker) (batch : FolderBatch.t) : Path :=
  PyPath.child (PyPath.parent (FolderBatch.folder batch))
    (PyPath.name (FolderBatch.folder batch)
     ++ (if use_cbz self then ".cbz" else ".zip")).

(** The calls [_create_archive] makes for [batch]. *)
Definition archive_call (self : Worker) (batch : FolderBatch.t) (outdir : Path)
    (c : OsCall) : Prop :=
  match c with
  | CallExists p => p = archive_path_of self batch \/ p = outdir
  | CallUnlink p => p = archive_path_of self batch
  | CallStat p => p = archive_path_of self batch
  | CallListDir p => p = outdir
  | CallRmTree p => p = outdir
  | CallZipWrite archive members =>
      archive = archive_path_of self batch
      /\ exists names,
           members
           = (members_of (map (PyPath.child outdir) names)
              ++ (if skip_webp self
                  then members_of (FolderBatch.skipped_webp batch) else []))%list
  | _ => False
  end.

(** What [_create_archive] returns: the archive's path or nothing, at most
    one error, and no size next to an error. *)
Definition archive_outcome (self : Worker) (batch : FolderBatch.t)
    (r : option Path * option Z * list string) : Prop :=
  let '(archive_path, archive_size, errors) := r in
  (archive_path = None \/ archive_path = Some (archive_path_of self batch))
  /\ (errors = [] \/ exists message, errors = [message] /\ archive_size = None).

(** The calls [_replace_originals] makes for [batch]. *)
Definition replace_call (batch : FolderBatch.t) (outdir : Path) (c : OsCall) : Prop :=
  match c with
  | CallExists p => In p (FolderBatch.convertible_images batch) \/ p = outdir
  | CallUnlink p => In p (FolderBatch.convertible_images batch)
  | CallListDir p => p = outdir
  | CallRmTree p => p = outdir
  | CallMove src dst =>
      exists n, src = PyPath.child outdir n
                /\ dst = PyPath.child (FolderBatch.folder batch) n
  | _ => False
  end.

(** A duration that is not negative (and not a NaN). *)
Definition nonneg_float (x : Float64.pyfloat) : Prop :=
  match x with
  | Float64.Fin q => (0 <= q)%Q
  | Float64.Inf negative => negative = false
  | Float64.NaN => False
  end.

(** The counters of a run after the folders [fs], with [p] units processed
    out of [T]. *)
Definition counted (T : Z) (fs : list FolderSummary.t) (p : Z) : Prop :=
  0 <= sum_of FolderSummary.converted fs
  /\ sum_of FolderSummary.converted fs <= p
  /\ p <= T.

(** How a loop of [run] ends: it runs to its end with a state in [Q],
    having sent neither a summary nor [finished]; or it is left by the
    [return] of a cancellation, and then the trace ends with the one
    summary, cancelled, built from folder summaries and a count in [S]. *)
Definition loop_ends {A : Type} (T tc : Z) (Q : A -> Prop)
    (S : list FolderSummary.t -> Z -> Prop)
    (r : outcome (loop_exit A)) (t : list Event) : Prop :=
  match r with
  | Done (Completed a) => Forall ongoing t /\ Q a
  | Done Returned =>
      exists fs d p,
        concluded t (summary_dict fs d T p tc true) /\ nonneg_float d /\ S fs p
  | Uncaught _ => False
  end.

(** The image loop after [n] images: every image is one more processed
    unit, and is either one more converted image or one more error. *)
Definition tallied (acc : FolderAcc) (p n : Z) (x : FolderAcc * Z) : Prop :=
  let '(acc', p') := x in
  p' = p + n
  /\ converted_count acc <= converted_count acc'
  /\ exists failures,
       folder_errors acc' = (folder_errors acc ++ failures)%list
       /\ converted_count acc' + len failures = converted_count acc + n.

(** The folder loop after the batches [batches]: one summary each, the
    processed units advanced by at most the files of the batches, and no
    more images converted than units processed. *)
Definition advanced (batches : list FolderBatch.t) (fs : list FolderSummary.t) (p : Z)
    (x : list FolderSummary.t * Z) : Prop :=
  let '(fs', p') := x in
  exists new,
    fs' = (fs ++ new)%list
    /\ map FolderSummary.folder new = map folder_path batches
    /\ p <= p' <= p + sum_of file_count batches
    /\ 0 <= sum_of FolderSummary.converted new <= p' - p.

(** The folder loop when cancelled: summaries of a prefix of the batches,
    with the same bounds. *)
Definition interrupted_after (batches : list FolderBatch.t) (fs : list FolderSummary.t)
    (p : Z) (fs' : list FolderSummary.t) (p' : Z) : Prop :=
  exists new,
    fs' = (fs ++ new)%list
    /\ map FolderSummary.folder new
       = firstn (length new) (map folder_path batches)
    /\ (length new < length batches)%nat
    /\ p <= p' <= p + sum_of file_count batches
    /\ 0 <= sum_of FolderSummary.converted new <= p' - p.

(** How [run] ends. *)
Definition run_ends (r : outcome unit) (t : list Event) : Prop :=
  r = Done tt
  /\ exists fs d T p tc c,
       concluded t (summary_dict fs d T p tc c) /\ nonneg_float d /\ counted T fs p.

(** The counters of a summary dict: images converted, units processed and
    total units are in this order, none is negative, and the duration is
    not negative. *)
Definition consistent_counters (s : pyval) : Prop :=
  exists converted processed total duration,
    totals_get "converted" s = Some (VInt converted)
    /\ py_get "processed_images" s = Some (VInt processed)
    /\ py_get "total_images" s = Some (VInt total)
    /\ py_get "duration_seconds" s = Some (VFloat duration)
    /\ 0 <= converted <= processed
    /\ processed <= total
    /\ nonneg_float duration.

(** A world in which the encoder fails on [/lib/a/p.png]. *)
Definition failing_world : Sim.t :=
  Sim.make 0 true None lib_tree ["/lib/a/p.png"] [].

(** Which folders the summary [s] of a run over the scanned [batches]
    lists: when cancelled, the first few of them, in scan order and never
    all; otherwise all of them in scan order, or none when the scan found
    nothing to convert. *)
Definition lists_folders (batches : list FolderBatch.t) (total_convertible : Z)
    (s : pyval) : Prop :=
  exists fs c,
    py_get "cancelled" s = Some (VBool c)
    /\ py_get "folders" s = Some (VList (map asdict fs))
    /\ if c then
         map FolderSummary.folder fs
         = firstn (length fs) (map folder_path batches)
         /\ (length fs < length batches)%nat
       else
         map FolderSummary.folder fs
         = (if total_convertible =? 0 then [] else map folder_path batches).

(* ===================================================================== *)
(** * The size and percentage labels of the results dialog *)
(* ===================================================================== *)

(** [App._human_size] and [App._percent_saved] turn byte counts into the
    labels of the results dialog and of the history list.  They use three
    more float operations, and the format [.1f]. *)

Module PyFloat.

Import Float64.
Local Open Scope Q_scope.

(** [float(n)] for an int: the nearest double, ties to even;
    [OverflowError] when that is out of range. *)
Definition float_of_int (n : Z) : raises pyfloat :=
  let r := round (inject_Z n) in
  if overflows r then Raise OverflowError else Value (Fin r).

(** [x >= n] for a float [x] and an int [n]: Python compares the two
    exactly. *)
Definition float_ge_int (x : pyfloat) (n : Z) : bool :=
  match x with
  | Fin q => Qle_bool (inject_Z n) q
  | Inf negative => negb negative
  | NaN => false
  end.

(** [x / n] for a float [x] and an int [n] that converts to a double
    exactly (here the literal [1024]). *)
Definition float_div_int (x : pyfloat) (n : Z) : raises pyfloat :=
  if (n =? 0)%Z then Raise ZeroDivisionError
  else
    match x with
    | Fin q =>
        let r := round (q / inject_Z n) in
        Value (if overflows r then Inf (is_neg r) else Fin r)
    | Inf s => Value (Inf (xorb s (n <? 0)%Z))
    | NaN => Value NaN
    end.

End PyFloat.

(** The digits of [n] tenths, for [0 <= n]: ["12.3"] for [123]. *)
Definition tenths (n : Z) : string :=
  PyStr.str_of_int (n / 10) ++ "." ++ PyStr.str_of_int (n mod 10).

(** [f"{x:.1f}"]: the decimal expansion of the double, rounded to one digit
    after the point, ties to even. *)
Definition format_1f (x : Float64.pyfloat) : string :=
  match x with
  | Float64.Fin q =>
      if Float64.is_neg q then "-" ++ tenths (Float64.rne (- q * inject_Z 10))
      else tenths (Float64.rne (q * inject_Z 10))
  | Float64.Inf false => "inf"
  | Float64.Inf true => "-inf"
  | Float64.NaN => "nan"
  end.

(** [units = ["B", "KB", "MB", "GB", "TB"]] *)
Definition units : list string := ["B"; "KB"; "MB"; "GB"; "TB"].

(** The loop of [_human_size]:
    [while size >= 1024 and unit_index < len(units) - 1].  [unit] is
    [units[unit_index]] and [larger] is [units[unit_index + 1:]], so the
    second test is [larger] not being empty. *)
Fixpoint human_size_loop (size : Float64.pyfloat) (unit : string)
    (larger : list string) : Float64.raises (Float64.pyfloat * string) :=
  match larger with
  | [] => Float64.Value (size, unit)
  | next :: rest =>
      if PyFloat.float_ge_int size 1024 then
        match PyFloat.float_div_int size 1024 with
        | Float64.Value size' => human_size_loop size' next rest
        | Float64.Raise e => Float64.Raise e
        end
      else Float64.Value (size, unit)
  end.

Definition _human_size (num_bytes : Z) : Float64.raises string :=
  match PyFloat.float_of_int num_bytes with
  | Float64.Raise e => Float64.Raise e
  | Float64.Value size =>
      match human_size_loop size (hd "" units) (tl units) with
      | Float64.Raise e => Float64.Raise e
      | Float64.Value (size, unit) => Float64.Value (format_1f size ++ " " ++ unit)
      end
  end.

Definition _percent_saved (original_bytes converted_bytes : Z) : Float64.raises string :=
  if original_bytes <=? 0 then Float64.Value "—"
  else
    let saved := Z.max 0 (original_bytes - converted_bytes) in
    match Float64.int_truediv saved original_bytes with
    | Float64.Raise e => Float64.Raise e
    | Float64.Value ratio =>
        let percent := Float64.float_mul_int ratio 100 in
        Float64.Value (format_1f percent ++ "%")
    end.

(** The index in [units] of the unit [_human_size] picks for [n] bytes. *)
Definition unit_index (n : Z) : nat :=
  if n <? 1024 then 0
  else if n <? 1024 ^ 2 then 1
  else if n <? 1024 ^ 3 then 2
  else if n <? 1024 ^ 4 then 3
  else 4.

(** The label [_human_size] shows for [n] bytes when the float arithmetic
    is exact: the size in the largest unit it reaches (at most TB), rounded
    to a tenth, ties to even; a negative size stays in bytes. *)
Definition human_size_label (n : Z) : string :=
  if n <? 0 then "-" ++ PyStr.str_of_int (- n) ++ ".0 B"
  else
    tenths (Float64.rne (inject_Z (10 * n)
                         / inject_Z (1024 ^ Z.of_nat (unit_index n))))
    ++ " " ++ nth (unit_index n) units "".

(** The size [_human_size] holds after [j] divisions by 1024. *)
Definition shrunk (n j : Z) : Q :=
  Float64.round (inject_Z n / inject_Z (1024 ^ j)).

(* ===================================================================== *)
(** * The run history *)
(* ===================================================================== *)

(** [App] keeps the last runs in [history_entries], newest first, and in a
    JSON file.  The entries are dicts of JSON values; the methods below use
    Python's dynamic operations on them, which raise when a value has not
    the type the operation needs. *)

Definition MAX_HISTORY_ENTRIES : nat := 20.

(** Truth value of a Python value. *)
Definition py_truthy (v : pyval) : bool :=
  match v with
  | VNone => false
  | VBool b => b
  | VInt n => negb (n =? 0)
  | VFloat (Float64.Fin q) => negb (Qeq_bool q 0)
  | VFloat _ => true
  | VStr s => PyStr.truthy s
  | VList [] => false
  | VList (_ :: _) => true
  | VDict [] => false
  | VDict (_ :: _) => true
  end.

(** [isinstance(v, dict)] *)
Definition is_dict (v : pyval) : bool :=
  match v with
  | VDict _ => true
  | _ => false
  end.

(** The exceptions of the dynamic operations, and a value or one of
    them. *)
Inductive py_error : Type := AttributeError | TypeError | KeyError | IndexError.

Inductive checked (A : Type) : Type :=
| Good (a : A)
| Bad (e : py_error).
Arguments Good {A} a.
Arguments Bad {A} e.

(** [a or b] *)
Definition py_or (a b : pyval) : pyval := if py_truthy a then a else b.

(** [d.get(key)] and [d.get(key, default)] on the items of a dict. *)
Definition get_or (key : string) (default : pyval) (items : list (string * pyval)) : pyval :=
  match dict_get key items with
  | Some v => v
  | None => default
  end.

(** [v.get(key)]: only a dict has the method. *)
Definition method_get (v : pyval) (key : string) : checked pyval :=
  match v with
  | VDict items => Good (get_or key VNone items)
  | _ => Bad AttributeError
  end.

(** [folders[0].get("folder")].  A string has items but they have no
    [get]; a dict has no key [0]; the other values cannot be indexed. *)
Definition first_folder (folders : pyval) : checked pyval :=
  match folders with
  | VList (first :: _) => method_get first "folder"
  | VList [] => Bad IndexError
  | VStr s => if PyStr.truthy s then Bad AttributeError else Bad IndexError
  | VDict _ => Bad KeyError
  | _ => Bad TypeError
  end.

Fixpoint folders_of_items (items : list pyval) : checked (list pyval) :=
  match items with
  | [] => Good []
  | f :: rest =>
      match method_get f "folder" with
      | Bad e => Bad e
      | Good v =>
          match folders_of_items rest with
          | Bad e => Bad e
          | Good vs => Good (v :: vs)
          end
      end
  end.

(** [[f.get("folder") for f in folders]].  Iterating a string gives
    strings and iterating a dict gives its keys, which have no [get]; the
    other values cannot be iterated. *)
Definition folder_of_each (folders : pyval) : checked (list pyval) :=
  match folders with
  | VList items => folders_of_items items
  | VStr s => if PyStr.truthy s then Bad AttributeError else Good []
  | VDict [] => Good []
  | VDict (_ :: _) => Bad AttributeError
  | _ => Bad TypeError
  end.

(** [v.get(key, default)] *)
Definition method_get_or (v : pyval) (key : string) (default : pyval) : checked pyval :=
  match v with
  | VDict items => Good (get_or key default items)
  | _ => Bad AttributeError
  end.

(** [v > 0]: numbers compare with [0], the other values raise. *)
Definition py_gt_zero (v : pyval) : checked bool :=
  match v with
  | VBool b => Good b
  | VInt n => Good (n >? 0)
  | VFloat (Float64.Fin q) => Good (negb (Qle_bool q 0))
  | VFloat (Float64.Inf negative) => Good (negb negative)
  | VFloat Float64.NaN => Good false
  | _ => Bad TypeError
  end.

(** The part of an [App] the methods below read and write.  Of
    [latest_summary] only the items are kept: the one method that stores a
    summary stores dicts only. *)
Record App : Type := mkApp {
  history_entries : list pyval;
  active_run_context : option (list (string * pyval));
  latest_summary : option (list (string * pyval));
  cancel_requested : bool;
  worker : option Worker
}.

(** What the methods do outside the [App]: they write the JSON file,
    rebuild the list widget, and call Qt widgets and the worker thread. *)
Inductive AppEvent : Type :=
| Saved (entries : list pyval)
| Refreshed (entries : list pyval)
| ControlsEnabled (is_running : bool)      (* [_set_controls_enabled] *)
| StatusText (text : string)               (* [status_label.setText] *)
| Information (title text : string)        (* [QMessageBox.information] *)
| ResultsDialog (summary : pyval)          (* [_show_results_dialog] *)
| InterruptionRequested                    (* [worker.requestInterruption] *)
| CancelEnabled (enabled : bool).          (* [btn_cancel.setEnabled] *)

(** The history file, the clock, the list widget, the worker thread and the
    results dialog.  [read_history] is
    [json.loads(HISTORY_FILE.read_text(encoding="utf-8"))] and
    [write_history] is the body of the [try] of [_save_history]; both can
    fail.  [refresh_history_view] and [show_results_dialog] stand for the Qt
    code of these methods, which is not modelled and may raise;
    [worker_is_running] is [QThread.isRunning]. *)
Class Desk (W : Type) : Type := {
  history_file_exists : W -> bool * W;
  read_history : W -> result pyval * W;
  write_history : list pyval -> W -> result unit * W;
  datetime_now_isoformat : W -> string * W;
  refresh_history_view : list pyval -> W -> result unit * W;
  worker_is_running : W -> bool * W;
  show_results_dialog : pyval -> W -> result unit * W
}.

(** How a method of [App] ends: it returns, or an exception leaves it (and
    goes to the Qt event loop). *)
Inductive ending : Type :=
| Returns
| Raises (e : py_error)
| RaisesInView (exc : string).

Section History.

Context {W : Type} {desk : Desk W}.

(** Python's [str] on JSON values.  The history methods apply it to folder
    paths, which are strings in every entry the application builds; of
    [str] itself only that it leaves a string as it is matters below. *)
Variable str_of : pyval -> string.

Definition _load_history (w : W) : list pyval * W :=
  let (present, w1) := history_file_exists w in
  if negb present then ([], w1)
  else
    let (loaded, w2) := read_history w1 in
    match loaded with
    | Failed _ => ([], w2)
    | Ok raw_data =>
        match raw_data with
        | VList items => (filter is_dict (firstn MAX_HISTORY_ENTRIES items), w2)
        | _ => ([], w2)
        end
    end.

(** The write fails silently. *)
Definition _save_history (self : App) (w : W) : W * list AppEvent :=
  let entries := firstn MAX_HISTORY_ENTRIES (history_entries self) in
  (snd (write_history entries w), [Saved entries]).

Definition _refresh_history_view (self : App) (w : W) : ending * W * list AppEvent :=
  let (r, w1) := refresh_history_view (history_entries self) w in
  (match r with Ok _ => Returns | Failed exc => RaisesInView exc end,
   w1, [Refreshed (history_entries self)]).

(** [str(path) if path is not None else ""] *)
Definition path_text (path : pyval) : pyval :=
  match path with
  | VNone => VStr ""
  | _ => VStr (str_of path)
  end.

Definition _append_history_entry (self : App) (summary : pyval) (w : W)
    : ending * App * W * list AppEvent :=
  match summary with
  | VDict summary_items =>
      if py_truthy (get_or "cancelled" VNone summary_items) then (Returns, self, w, [])
      else
        (* [(self.active_run_context or {}).copy()] *)
        let options :=
          match active_run_context self with
          | Some context => context
          | None => []
          end in
        let folders := py_or (get_or "folders" VNone summary_items) (VList []) in
        let primary_folder := get_or "selected_folder" VNone options in
        match (if negb (py_truthy primary_folder) && py_truthy folders
               then first_folder folders else Good primary_folder) with
        | Bad e => (Raises e, self, w, [])
        | Good primary_folder =>
            let (timestamp, w1) := datetime_now_isoformat w in
            match (if py_truthy (get_or "folders" VNone options)
                   then Good (get_or "folders" VNone options)
                   else match folder_of_each folders with
                        | Good paths => Good (VList paths)
                        | Bad e => Bad e
                        end) with
            | Bad e => (Raises e, self, w1, [])
            | Good entry_folders =>
                let entry_folders :=
                  match entry_folders with
                  | VList paths => VList (map path_text paths)
                  | other => other
                  end in
                let primary_folder :=
                  if py_truthy primary_folder then VStr (str_of primary_folder)
                  else primary_folder in
                let entry :=
                  VDict [ ("timestamp", VStr timestamp);
                          ("primary_folder", primary_folder);
                          ("folders", entry_folders);
                          ("totals", get_or "totals" (VDict []) summary_items);
                          ("duration_seconds",
                           get_or "duration_seconds" VNone summary_items);
                          ("processed_images",
                           get_or "processed_images" VNone summary_items);
                          ("expected_conversions",
                           get_or "expected_conversions" VNone summary_items);
                          ("quality", get_or "quality" VNone options);
                          ("use_cbz", get_or "use_cbz" VNone options);
                          ("replace_originals",
                           get_or "replace_originals" VNone options);
                          ("library_mode", get_or "library_mode" VNone options);
                          ("skip_webp", get_or "skip_webp" VNone options) ] in
                (* [insert(0, entry)], then [del ...[MAX_HISTORY_ENTRIES:]] *)
                let self1 :=
                  mkApp (firstn MAX_HISTORY_ENTRIES (entry :: history_entries self))
                        (active_run_context self) (latest_summary self)
                        (cancel_requested self) (worker self) in
                let (w2, saved) := _save_history self1 w1 in
                let '(r, w3, refreshed) := _refresh_history_view self1 w2 in
                (r, self1, w3, (saved ++ refreshed)%list)
            end
        end
  | _ => (Raises AttributeError, self, w, [])
  end.

(** The window's side of a run: the slots of the worker's [summary_ready]
    and [finished] signals, and the cancel button. *)
Definition _on_worker_summary (self : App) (summary : pyval) : App :=
  match summary with
  | VDict items =>
      mkApp (history_entries self) (active_run_context self) (Some items)
            (cancel_requested self) (worker self)
  | _ => self
  end.

Definition cancel_conversion (self : App) (w : W) : App * W * list AppEvent :=
  match worker self with
  | None => (self, w, [])
  | Some _ =>
      let (running, w1) := worker_is_running w in
      if negb running then (self, w1, [])
      else
        (mkApp (history_entries self) (active_run_context self) (latest_summary self)
               true (worker self),
         w1,
         [StatusText "Attempting to cancel..."; InterruptionRequested;
          CancelEnabled false])
  end.

(** The three assignments that end [on_finished]. *)
Definition forget_run (self : App) : App :=
  mkApp (history_entries self) None None false (worker self).

Definition on_finished (self : App) (w : W) : ending * App * W * list AppEvent :=
  (* [self.latest_summary or {}] *)
  let summary :=
    match latest_summary self with
    | Some items => items
    | None => []
    end in
  let was_cancelled :=
    cancel_requested self || py_truthy (get_or "cancelled" VNone summary) in
  let self0 :=
    mkApp (history_entries self) (active_run_context self) (latest_summary self)
          (cancel_requested self) None in
  if was_cancelled then
    (Returns, forget_run self0, w,
     [ControlsEnabled false; StatusText "Conversion cancelled."])
  else
    match method_get_or (get_or "totals" (VDict []) summary) "converted" (VInt 0) with
    | Bad e => (Raises e, self0, w, [ControlsEnabled false])
    | Good converted_total =>
        match (if py_truthy (VDict summary)
               then if py_truthy (get_or "folders" VNone summary) then Good true
                    else py_gt_zero (get_or "total_images" (VInt 0) summary)
               else Good false) with
        | Bad e => (Raises e, self0, w, [ControlsEnabled false])
        | Good true =>
            let completed :=
              [ControlsEnabled false;
               StatusText ("Completed " ++ str_of converted_total ++ " image(s).")] in
            let '(r, self1, w1, recorded) :=
              _append_history_entry self0 (VDict summary) w in
            match r with
            | Returns =>
                let (shown, w2) := show_results_dialog (VDict summary) w1 in
                match shown with
                | Ok _ =>
                    (Returns, forget_run self1, w2,
                     (completed ++ recorded ++ [ResultsDialog (VDict summary)])%list)
                | Failed exc =>
                    (RaisesInView exc, self1, w2,
                     (completed ++ recorded ++ [ResultsDialog (VDict summary)])%list)
                end
            | _ => (r, self1, w1, (completed ++ recorded)%list)
            end
        | Good false =>
            (Returns, forget_run self0, w,
             [ControlsEnabled false; Information "Done" "No images were converted.";
              StatusText "Idle"])
        end
    end.

End History.

(** The dict [start_conversion] stores in [active_run_context] for a
    run. *)
Definition run_context (selected_folder : string) (folders_to_process : list string)
    (library_mode : bool) (quality : Z) (use_cbz replace_originals skip_webp : bool)
    : list (string * pyval) :=
  [ ("selected_folder", VStr selected_folder);
    ("folders", VList (map VStr folders_to_process));
    ("library_mode", VBool library_mode);
    ("quality", VInt quality);
    ("use_cbz", VBool use_cbz);
    ("replace_originals", VBool replace_originals);
    ("skip_webp", VBool skip_webp) ].

(** A scripted desk: the history file holds what was last written, or what
    the script puts there. *)
Module Shelf.

Record t : Type := make {
  file : option (result pyval);
  writable : bool;
  now : string
}.

#[global] Instance desk : Desk t := {|
  history_file_exists w :=
    (match file w with Some _ => true | None => false end, w);
  read_history w :=
    (match file w with Some r => r | None => Failed "FileNotFoundError" end, w);
  write_history entries w :=
    if writable w then (Ok tt, make (Some (Ok (VList entries))) true (now w))
    else (Failed "PermissionError", w);
  datetime_now_isoformat w := (now w, w);
  refresh_history_view _ w := (Ok tt, w);
  worker_is_running w := (true, w);
  show_results_dialog _ w := (Ok tt, w)
|}.

End Shelf.

(** What [_append_history_entry] does to the history, to the file and to
    the list widget: nothing at all, or the new entry is put first, the
    history is cut to [MAX_HISTORY_ENTRIES], written, and shown. *)
Definition appended {W : Type} {desk : Desk W} (self : App) (w : W)
    (x : ending * App * W * list AppEvent) : Prop :=
  let '(r, self', _, t) := x in
  active_run_context self' = active_run_context self
  /\ ((self' = self /\ t = [] /\ (r = Returns \/ exists e, r = Raises e))
      \/ exists entry,
           is_dict entry = true
           /\ py_get "timestamp" entry = Some (VStr (fst (datetime_now_isoformat w)))
           /\ history_entries self'
              = firstn MAX_HISTORY_ENTRIES (entry :: history_entries self)
           /\ t = [Saved (history_entries self'); Refreshed (history_entries self')]).

(* ===================================================================== *)
(** * Proofs *)
(* ===================================================================== *)

(** ** Binary64 rounding is monotone *)

Module Float64Facts.

Import Float64.
Local Open Scope Q_scope.

Lemma pow2_pos e : 0 < pow2 e.
Proof. unfold pow2. apply Qpower_0_lt. reflexivity. Qed.

Lemma pow2_add a b : pow2 (a + b) == pow2 a * pow2 b.
Proof. unfold pow2. apply Qpower_plus. discriminate. Qed.

Lemma pow2_le a b : (a <= b)%Z -> pow2 a <= pow2 b.
Proof. intros H. unfold pow2. apply Qpower_le_compat_l; [exact H | discriminate]. Qed.

Lemma pow2_lt a b : (a < b)%Z -> pow2 a < pow2 b.
Proof. intros H. unfold pow2. apply Qpower_lt_compat_l; [exact H | reflexivity]. Qed.

Lemma pow2_succ a : pow2 (a + 1) == 2 * pow2 a.
Proof. rewrite pow2_add. unfold pow2 at 2. simpl. ring. Qed.

Lemma pow2_nonneg_Z n : (0 <= n)%Z -> pow2 n == inject_Z (2 ^ n).
Proof. intros H. unfold pow2. rewrite Zpower_Qpower by exact H. reflexivity. Qed.

Lemma pow2_sub a b : pow2 (a - b) == pow2 a / pow2 b.
Proof.
  unfold Z.sub. rewrite pow2_add. unfold pow2 at 2. rewrite Qpower_opp.
  reflexivity.
Qed.

Lemma inject_Z_pos (z : Z) : (0 < z)%Z -> 0 < inject_Z z.
Proof. intros H. change 0 with (inject_Z 0). rewrite <- Zlt_Qlt. exact H. Qed.

Lemma Qdiv_lt_cross (a b c d : Q) :
  0 < b -> 0 < d -> a * d < c * b -> a / b < c / d.
Proof.
  intros Hb Hd H. apply Qlt_shift_div_r; [exact Hb |].
  setoid_replace (c / d * b) with (c * b / d) by (field; lra).
  apply Qlt_shift_div_l; assumption.
Qed.

Lemma Q_as_div (x : Q) : x == inject_Z (Qnum x) / inject_Z (Zpos (Qden x)).
Proof. destruct x as [n d]. simpl. apply Qmake_Qdiv. Qed.

Lemma ilog2_rough (x : Q) :
  0 < x ->
  let k := (Z.log2 (Qnum x) - Z.log2 (Zpos (Qden x)))%Z in
  pow2 (k - 1) < x /\ x < pow2 (k + 1).
Proof.
  intros Hx k.
  assert (Hn : (0 < Qnum x)%Z).
  { destruct x as [n d]. unfold Qlt in Hx. simpl in *. lia. }
  set (n := Qnum x) in *. set (d := Zpos (Qden x)) in *.
  assert (Hd : (0 < d)%Z) by (unfold d; lia).
  pose proof (Z.log2_spec n Hn) as [Ha1 Ha2].
  pose proof (Z.log2_spec d Hd) as [Hb1 Hb2].
  pose proof (Z.log2_nonneg n) as Ha0.
  pose proof (Z.log2_nonneg d) as Hb0.
  set (a := Z.log2 n) in *. set (b := Z.log2 d) in *.
  assert (Hpa : (0 < 2 ^ a)%Z) by (apply Z.pow_pos_nonneg; lia).
  assert (Hpb : (0 < 2 ^ b)%Z) by (apply Z.pow_pos_nonneg; lia).
  assert (Hx' : x == inject_Z n / inject_Z d) by apply Q_as_div.
  assert (HdQ : 0 < inject_Z d) by (apply inject_Z_pos; exact Hd).
  split.
  - replace (k - 1)%Z with (a - (b + 1))%Z by (unfold k; lia).
    rewrite pow2_sub, !pow2_nonneg_Z by lia. rewrite Hx'.
    apply Qdiv_lt_cross; [apply inject_Z_pos, Z.pow_pos_nonneg; lia | exact HdQ |].
    rewrite <- !inject_Z_mult, <- Zlt_Qlt.
    unfold Z.succ in *. rewrite Z.pow_add_r, Z.pow_1_r in * by lia.
    assert (2 ^ a * d <= n * d)%Z by nia.
    assert (n * d < n * (2 ^ b * 2))%Z by nia. lia.
  - replace (k + 1)%Z with ((a + 1) - b)%Z by (unfold k; lia).
    rewrite pow2_sub, !pow2_nonneg_Z by lia. rewrite Hx'.
    apply Qdiv_lt_cross; [exact HdQ | apply inject_Z_pos; exact Hpb |].
    rewrite <- !inject_Z_mult, <- Zlt_Qlt.
    unfold Z.succ in *. rewrite Z.pow_add_r, Z.pow_1_r in * by lia.
    assert (n * 2 ^ b <= n * d)%Z by nia.
    assert (n * d < 2 ^ a * 2 * d)%Z by nia. lia.
Qed.

Lemma ilog2_spec (x : Q) :
  0 < x -> pow2 (ilog2 x) <= x /\ x < pow2 (ilog2 x + 1).
Proof.
  intros Hx. destruct (ilog2_rough Hx) as [Hlo Hhi]. unfold ilog2.
  set (k := (Z.log2 (Qnum x) - Z.log2 (Zpos (Qden x)))%Z) in *.
  destruct (Qle_bool (pow2 k) x) eqn:E.
  - apply Qle_bool_iff in E. split; assumption.
  - split; [apply Qlt_le_weak; exact Hlo |].
    replace (k - 1 + 1)%Z with k by lia.
    apply Qnot_le_lt. intros H. apply Qle_bool_iff in H. congruence.
Qed.

Lemma ilog2_unique (x : Q) (k : Z) :
  pow2 k <= x -> x < pow2 (k + 1) -> ilog2 x = k.
Proof.
  intros Hlo Hhi.
  assert (Hx : 0 < x) by (eapply Qlt_le_trans; [apply pow2_pos | exact Hlo]).
  destruct (ilog2_spec Hx) as [Slo Shi].
  assert (H1 : (k < ilog2 x + 1)%Z).
  { apply Qpower_lt_compat_l_inv with (q := 2); [| reflexivity].
    eapply Qle_lt_trans; [exact Hlo | exact Shi]. }
  assert (H2 : (ilog2 x < k + 1)%Z).
  { apply Qpower_lt_compat_l_inv with (q := 2); [| reflexivity].
    eapply Qle_lt_trans; [exact Slo | exact Hhi]. }
  lia.
Qed.

Lemma ilog2_mono (x y : Q) : 0 < x -> x <= y -> (ilog2 x <= ilog2 y)%Z.
Proof.
  intros Hx Hxy.
  assert (Hy : 0 < y) by (eapply Qlt_le_trans; eassumption).
  destruct (ilog2_spec Hx) as [Xlo _]. destruct (ilog2_spec Hy) as [_ Yhi].
  assert (H : (ilog2 x < ilog2 y + 1)%Z).
  { apply Qpower_lt_compat_l_inv with (q := 2); [| reflexivity].
    eapply Qle_lt_trans; [exact Xlo |]. eapply Qle_lt_trans; eassumption. }
  lia.
Qed.

Lemma rne_bounds (x : Q) : (Qfloor x <= rne x <= Qfloor x + 1)%Z.
Proof.
  unfold rne. destruct (Qcompare _ _); [destruct (Z.even _) | |]; lia.
Qed.

Lemma Qcompare_cases (x y : Q) :
  (Qcompare x y = Eq /\ x == y) \/ (Qcompare x y = Lt /\ x < y) \/
  (Qcompare x y = Gt /\ y < x).
Proof.
  destruct (Qcompare x y) eqn:C.
  - left. split; [reflexivity | apply Qeq_alt; exact C].
  - right; left. split; [reflexivity | apply Qlt_alt; exact C].
  - right; right. split; [reflexivity | apply Qgt_alt; exact C].
Qed.

Lemma rne_mono (x y : Q) : x <= y -> (rne x <= rne y)%Z.
Proof.
  intros Hxy. pose proof (Qfloor_resp_le _ _ Hxy) as Hf.
  pose proof (rne_bounds x) as Bx. pose proof (rne_bounds y) as By.
  destruct (Z.eq_dec (Qfloor x) (Qfloor y)) as [E | NE]; [| lia].
  unfold rne in *. rewrite E in *.
  generalize dependent (inject_Z (Qfloor y)). intros c Bx By.
  destruct (Qcompare_cases (x - c) (1 # 2)) as [[-> Cx] | [[-> Cx] | [-> Cx]]];
    destruct (Qcompare_cases (y - c) (1 # 2)) as [[-> Cy] | [[-> Cy] | [-> Cy]]];
    try (destruct (Z.even (Qfloor y)); lia); try lia; exfalso; lra.
Qed.

Lemma rne_Z (z : Z) : rne (inject_Z z) = z.
Proof.
  unfold rne. rewrite Qfloor_Z.
  assert (H : inject_Z z - inject_Z z < 1 # 2) by (ring_simplify; reflexivity).
  destruct (Qcompare_cases (inject_Z z - inject_Z z) (1 # 2))
    as [[_ C] | [[-> _] | [_ C]]]; [exfalso; lra | reflexivity | exfalso; lra].
Qed.

Lemma rne_comp (x y : Q) : x == y -> rne x = rne y.
Proof.
  intros E. unfold rne. rewrite (Qfloor_comp _ _ E).
  rewrite (Qcompare_comp (x - inject_Z (Qfloor y)) (y - inject_Z (Qfloor y))
             (ltac:(rewrite E; reflexivity)) (1 # 2) (1 # 2) (Qeq_refl _)).
  reflexivity.
Qed.

Lemma cexp_mono (x y : Q) : 0 < x -> x <= y -> (cexp x <= cexp y)%Z.
Proof.
  intros Hx Hxy. unfold cexp. pose proof (ilog2_mono Hx Hxy). lia.
Qed.

Lemma scaled_le (x : Q) (m e : Z) :
  x <= inject_Z m * pow2 e -> x / pow2 e <= inject_Z m.
Proof.
  intros H. apply Qle_shift_div_r; [apply pow2_pos | exact H].
Qed.

Lemma scaled_ge (x : Q) (m e : Z) :
  inject_Z m * pow2 e <= x -> inject_Z m <= x / pow2 e.
Proof.
  intros H. apply Qle_shift_div_l; [apply pow2_pos | exact H].
Qed.

Lemma round_pos_le (x : Q) (m : Z) :
  x <= inject_Z m * pow2 (cexp x) -> round_pos x <= inject_Z m * pow2 (cexp x).
Proof.
  intros H. unfold round_pos.
  apply Qmult_le_compat_r; [| apply Qlt_le_weak, pow2_pos].
  rewrite <- Zle_Qle. rewrite <- (rne_Z m). apply rne_mono, scaled_le, H.
Qed.

Lemma round_pos_ge (x : Q) (m : Z) :
  inject_Z m * pow2 (cexp x) <= x -> inject_Z m * pow2 (cexp x) <= round_pos x.
Proof.
  intros H. unfold round_pos.
  apply Qmult_le_compat_r; [| apply Qlt_le_weak, pow2_pos].
  rewrite <- Zle_Qle. rewrite <- (rne_Z m) at 1. apply rne_mono, scaled_ge, H.
Qed.

Lemma round_pos_nonneg (x : Q) : 0 <= x -> 0 <= round_pos x.
Proof.
  intros Hx.
  assert (H : inject_Z 0 * pow2 (cexp x) <= round_pos x).
  { apply round_pos_ge. ring_simplify. exact Hx. }
  ring_simplify in H. exact H.
Qed.

Lemma round_pos_mono (x y : Q) :
  0 < x -> x <= y -> round_pos x <= round_pos y.
Proof.
  intros Hx Hxy.
  assert (Hy : 0 < y) by (eapply Qlt_le_trans; eassumption).
  pose proof (cexp_mono Hx Hxy) as He.
  destruct (Z.eq_dec (cexp x) (cexp y)) as [E | NE].
  - unfold round_pos. rewrite E.
    apply Qmult_le_compat_r; [| apply Qlt_le_weak, pow2_pos].
    rewrite <- Zle_Qle. apply rne_mono.
    apply Qmult_le_compat_r; [exact Hxy |].
    apply Qlt_le_weak, Qinv_lt_0_compat, pow2_pos.
  - destruct (ilog2_spec Hx) as [_ Xhi]. destruct (ilog2_spec Hy) as [Ylo _].
    assert (Ey : cexp y = (ilog2 y - (prec - 1))%Z).
    { unfold cexp in *. lia. }
    assert (Ex : (ilog2 x - (prec - 1) <= cexp x)%Z).
    { unfold cexp. lia. }
    (* round_pos x <= 2^53 * 2^(cexp x) <= 2^52 * 2^(cexp y) <= round_pos y *)
    apply Qle_trans with (inject_Z (2 ^ 53) * pow2 (cexp x)).
    { apply round_pos_le. rewrite <- pow2_nonneg_Z by lia. rewrite <- pow2_add.
      apply Qlt_le_weak. eapply Qlt_le_trans; [exact Xhi |].
      apply pow2_le. unfold prec in *. lia. }
    apply Qle_trans with (inject_Z (2 ^ 52) * pow2 (cexp y)).
    { rewrite <- !pow2_nonneg_Z by lia. rewrite <- !pow2_add.
      apply pow2_le. lia. }
    apply round_pos_ge. rewrite <- pow2_nonneg_Z by lia. rewrite <- pow2_add.
    eapply Qle_trans; [| exact Ylo]. apply pow2_le. rewrite Ey. unfold prec. lia.
Qed.

Lemma round_zero (x : Q) : x == 0 -> round x = 0.
Proof.
  intros E. unfold round. apply Qeq_alt in E. rewrite E. reflexivity.
Qed.

Lemma round_of_pos (x : Q) : 0 < x -> round x = round_pos x.
Proof.
  intros H. unfold round. apply Qgt_alt in H. rewrite H. reflexivity.
Qed.

Lemma round_nonneg (x : Q) : 0 <= x -> 0 <= round x.
Proof.
  intros Hx. destruct (Qlt_le_dec 0 x) as [P | N].
  - rewrite (round_of_pos P). apply round_pos_nonneg, Hx.
  - rewrite round_zero; [apply Qle_refl | lra].
Qed.

Lemma round_mono (x y : Q) : 0 <= x -> x <= y -> round x <= round y.
Proof.
  intros Hx Hxy. destruct (Qlt_le_dec 0 x) as [P | N].
  - rewrite (round_of_pos P).
    rewrite (@round_of_pos y) by (eapply Qlt_le_trans; eassumption).
    apply round_pos_mono; assumption.
  - rewrite (@round_zero x) by lra. apply round_nonneg. lra.
Qed.

End Float64Facts.

(** ** The percentage computation *)

Module PercentageFacts.

Import Float64 Float64Facts.

Lemma ratio_nonneg (p t : Z) : 0 <= p -> 0 < t -> (0 <= inject_Z p / inject_Z t)%Q.
Proof.
  intros Hp Ht. apply Qle_shift_div_l; [apply inject_Z_pos; exact Ht |].
  ring_simplify. change 0%Q with (inject_Z 0). rewrite <- Zle_Qle. exact Hp.
Qed.

Lemma ratio_mono (p p' t : Z) :
  p <= p' -> 0 < t -> (inject_Z p / inject_Z t <= inject_Z p' / inject_Z t)%Q.
Proof.
  intros Hp Ht. apply Qmult_le_compat_r.
  - rewrite <- Zle_Qle. exact Hp.
  - apply Qlt_le_weak, Qinv_lt_0_compat, inject_Z_pos, Ht.
Qed.

Lemma quotient_nonneg (p t : Z) : 0 <= p -> 0 < t -> (0 <= quotient p t)%Q.
Proof. intros Hp Ht. apply round_nonneg, ratio_nonneg; assumption. Qed.

Lemma quotient_mono (p p' t : Z) :
  0 <= p -> p <= p' -> 0 < t -> (quotient p t <= quotient p' t)%Q.
Proof.
  intros H0 Hp Ht. apply round_mono; [apply ratio_nonneg | apply ratio_mono]; assumption.
Qed.

Lemma times100_nonneg (q : Q) : (0 <= q)%Q -> (0 <= q * inject_Z 100)%Q.
Proof. intros H. apply Qmult_le_0_compat; [exact H | discriminate]. Qed.

Lemma scaled_nonneg (p t : Z) : 0 <= p -> 0 < t -> (0 <= scaled p t)%Q.
Proof.
  intros Hp Ht. apply round_nonneg, times100_nonneg, quotient_nonneg; assumption.
Qed.

Lemma scaled_mono (p p' t : Z) :
  0 <= p -> p <= p' -> 0 < t -> (scaled p t <= scaled p' t)%Q.
Proof.
  intros H0 Hp Ht. apply round_mono.
  - apply times100_nonneg, quotient_nonneg; assumption.
  - apply Qmult_le_compat_r; [apply quotient_mono; assumption | discriminate].
Qed.

Lemma overflows_nonneg (x : Q) :
  (0 <= x)%Q -> overflows x = Qle_bool (pow2 emax) x.
Proof.
  intros Hx. unfold overflows.
  destruct (Qle_bool x (- pow2 emax)) eqn:E; [| apply orb_false_r].
  apply Qle_bool_iff in E. pose proof (pow2_pos emax). exfalso. lra.
Qed.

(** On its domain the computation is a chain of two overflow tests and a
    floor. *)
Lemma percentage_of_unfold (p t : Z) :
  0 <= p -> 0 < t ->
  percentage_of p t =
    if Qle_bool (pow2 emax) (quotient p t) then Raise OverflowError
    else if Qle_bool (pow2 emax) (scaled p t) then Raise OverflowError
    else Value (Qfloor (scaled p t)).
Proof.
  intros Hp Ht. unfold percentage_of, int_truediv.
  destruct (Z.eqb_spec t 0) as [-> | _]; [lia |].
  fold (quotient p t).
  rewrite (overflows_nonneg (quotient_nonneg Hp Ht)).
  destruct (Qle_bool (pow2 emax) (quotient p t)); [reflexivity |].
  unfold float_mul_int. fold (scaled p t).
  rewrite (overflows_nonneg (scaled_nonneg Hp Ht)).
  destruct (Qle_bool (pow2 emax) (scaled p t)); [reflexivity |].
  unfold int_of_float.
  pose proof (scaled_nonneg Hp Ht) as H. apply Qle_bool_iff in H. rewrite H.
  reflexivity.
Qed.

Lemma Qle_bool_false_lt (x y : Q) : Qle_bool x y = false -> (y < x)%Q.
Proof.
  intros E. apply Qnot_le_lt. intros H. apply Qle_bool_iff in H. congruence.
Qed.

Lemma Qle_bool_mono (c x y : Q) :
  (x <= y)%Q -> Qle_bool c x = true -> Qle_bool c y = true.
Proof.
  intros Hxy E. apply Qle_bool_iff. apply Qle_bool_iff in E.
  eapply Qle_trans; eassumption.
Qed.

(** If the computation raises for [p] it raises for every larger count. *)
Lemma percentage_of_raises_mono (p p' t : Z) (e : pyexc) :
  0 <= p -> p <= p' -> 0 < t ->
  percentage_of p t = Raise e -> exists e', percentage_of p' t = Raise e'.
Proof.
  intros H0 Hp Ht. rewrite !percentage_of_unfold by lia.
  destruct (Qle_bool (pow2 emax) (quotient p t)) eqn:E1.
  - rewrite (Qle_bool_mono _ (quotient_mono H0 Hp Ht) E1). eauto.
  - destruct (Qle_bool (pow2 emax) (scaled p t)) eqn:E2; [| discriminate].
    rewrite (Qle_bool_mono _ (scaled_mono H0 Hp Ht) E2).
    destruct (Qle_bool (pow2 emax) (quotient p' t)); eauto.
Qed.

Lemma percentage_of_mono (p p' t v v' : Z) :
  0 <= p -> p <= p' -> 0 < t ->
  percentage_of p t = Value v -> percentage_of p' t = Value v' -> v <= v'.
Proof.
  intros H0 Hp Ht. rewrite !percentage_of_unfold by lia.
  destruct (Qle_bool _ (quotient p t)); [discriminate |].
  destruct (Qle_bool _ (scaled p t)); [discriminate |].
  destruct (Qle_bool _ (quotient p' t)); [discriminate |].
  destruct (Qle_bool _ (scaled p' t)); [discriminate |].
  intros [= <-] [= <-]. apply Qfloor_resp_le, scaled_mono; assumption.
Qed.

Lemma percentage_of_nonneg (p t v : Z) :
  0 <= p -> 0 < t -> percentage_of p t = Value v -> 0 <= v.
Proof.
  intros Hp Ht. rewrite percentage_of_unfold by lia.
  destruct (Qle_bool _ (quotient p t)); [discriminate |].
  destruct (Qle_bool _ (scaled p t)); [discriminate |].
  intros [= <-]. change 0 with (Qfloor (inject_Z 0)).
  apply Qfloor_resp_le, scaled_nonneg; assumption.
Qed.

Lemma capped_mono (p p' t : Z) :
  0 <= p -> p <= p' -> 0 < t -> capped p t <= capped p' t.
Proof.
  intros H0 Hp Ht. unfold capped.
  destruct (percentage_of p t) as [v | e] eqn:E.
  - destruct (percentage_of p' t) as [v' | e'] eqn:E'; [| lia].
    pose proof (percentage_of_mono H0 Hp Ht E E'). lia.
  - destruct (percentage_of_raises_mono H0 Hp Ht E) as [e' ->]. lia.
Qed.

Lemma capped_le_100 (p t : Z) : capped p t <= 100.
Proof. unfold capped. destruct (percentage_of p t); lia. Qed.

(** The largest quotient for which neither the division nor the product
    overflows: [2^1017], since [100 * 2^1017 < 2^1024]. *)
Lemma quotient_bound_finite :
  (round (inject_Z (2 ^ 1017)) < pow2 emax)%Q.
Proof. apply Qlt_alt. vm_compute. reflexivity. Qed.

Lemma scaled_bound_finite :
  (round (round (inject_Z (2 ^ 1017)) * inject_Z 100) < pow2 emax)%Q.
Proof. apply Qlt_alt. vm_compute. reflexivity. Qed.

Lemma percentage_of_defined (p t : Z) :
  0 <= p -> p <= 2 ^ 1017 * t -> 0 < t ->
  percentage_of p t = Value (Qfloor (scaled p t)).
Proof.
  intros H0 Hp Ht. rewrite percentage_of_unfold by lia.
  assert (Hr : (inject_Z p / inject_Z t <= inject_Z (2 ^ 1017))%Q).
  { apply Qle_shift_div_r; [apply inject_Z_pos; exact Ht |].
    rewrite <- inject_Z_mult, <- Zle_Qle. exact Hp. }
  assert (Hq : (quotient p t <= round (inject_Z (2 ^ 1017)))%Q).
  { apply round_mono; [apply ratio_nonneg; assumption | exact Hr]. }
  assert (Hs : (scaled p t <= round (round (inject_Z (2 ^ 1017)) * inject_Z 100))%Q).
  { apply round_mono.
    - apply times100_nonneg, quotient_nonneg; assumption.
    - apply Qmult_le_compat_r; [exact Hq | discriminate]. }
  destruct (Qle_bool (pow2 emax) (quotient p t)) eqn:E1.
  { apply Qle_bool_iff in E1. pose proof quotient_bound_finite. exfalso. lra. }
  destruct (Qle_bool (pow2 emax) (scaled p t)) eqn:E2.
  { apply Qle_bool_iff in E2. pose proof scaled_bound_finite. exfalso. lra. }
  reflexivity.
Qed.

End PercentageFacts.

(** ** C1: the encoder command *)

(** C1, as stated, fails: for [/lib/a/p.png] at quality 100 the command is
    [cwebp -lossless -q 100 ...], so the numeric quality is still passed. *)
Lemma lossless_keeps_quality_argument :
  ~ lossless_instead_of_quality
      (_build_cwebp_command max_quality_worker png_in_a webp_out_a) 100.
Proof.
  intros [_ Habsent]. apply Habsent. vm_compute. tauto.
Qed.

(** C1 (amended): for every source whose lower-cased suffix is [.png] and
    for quality 100, the command is the encoder name, then [-lossless],
    then [-q 100], the source, [-o] and the target: lossless encoding is
    requested in addition to the numeric quality, not instead of it. *)
Theorem lossless_flag_for_png_at_100 (self : Worker) (source target : Path) :
  PyStr.lower (PyPath.suffix source) = ".png" ->
  quality self = 100 ->
  _build_cwebp_command self source target =
    [ENCODER_NAME; "-lossless"; "-q"; "100";
     PyPath.str source; "-o"; PyPath.str target].
Proof.
  intros Hpng Hq. unfold _build_cwebp_command.
  rewrite Hpng, Hq. reflexivity.
Qed.

Lemma lossless_flag_for_png_at_100_witness :
  _build_cwebp_command max_quality_worker png_in_a webp_out_a =
    [ENCODER_NAME; "-lossless"; "-q"; "100";
     PyPath.str png_in_a; "-o"; PyPath.str webp_out_a].
Proof.
  apply (@lossless_flag_for_png_at_100 max_quality_worker png_in_a webp_out_a);
    reflexivity.
Defined.

(** ** Rules for [always] *)

Section AlwaysRules.

Context {W : Type}.
Variable P : Event -> Prop.

Lemma always_ret (A : Type) (Q : A -> Prop) (a : A) :
  Q a -> always (W := W) (ret a) P Q.
Proof.
  intros HQ w. split; [constructor |]. cbn. intros b [= <-]. exact HQ.
Qed.

Lemma always_bind (A B : Type) (m : M W A) (k : A -> M W B)
    (Q1 : A -> Prop) (Q : B -> Prop) :
  always m P Q1 -> (forall a, Q1 a -> always (k a) P Q) -> always (bind m k) P Q.
Proof.
  intros Hm Hk w. specialize (Hm w). unfold bind.
  destruct (m w) as [[[a | e] w1] t1]; cbn in *.
  - destruct Hm as [Ht HQ]. specialize (Hk a (HQ a eq_refl) w1).
    destruct (k a w1) as [[r w2] t2]; cbn in *.
    destruct Hk as [Ht2 HQ2]. split; [apply Forall_app; split; assumption | exact HQ2].
  - destruct Hm as [Ht _]. split; [exact Ht | discriminate].
Qed.

Lemma always_emit (Q : unit -> Prop) (e : Event) :
  P e -> Q tt -> always (W := W) (emit e) P Q.
Proof.
  intros HP HQ w. split; [repeat constructor; exact HP |].
  cbn. intros [] _. exact HQ.
Qed.

Lemma always_call (A : Type) (Q : A -> Prop) (c : OsCall) (op : W -> A * W) :
  P (Called c) -> (forall w, Q (fst (op w))) -> always (call c op) P Q.
Proof.
  intros HP HQ w. unfold call. specialize (HQ w). destruct (op w) as [a w1].
  split; [repeat constructor; exact HP |]. cbn. intros b [= <-]. exact HQ.
Qed.

Lemma always_lift (A : Type) (Q : A -> Prop) (r : Float64.raises A) :
  (forall a, r = Float64.Value a -> Q a) -> always (W := W) (lift r) P Q.
Proof.
  intros HQ w. unfold lift. destruct r as [a | e]; cbn.
  - split; [constructor |]. intros b [= <-]. apply HQ. reflexivity.
  - split; [constructor | discriminate].
Qed.

Lemma always_weaken (A : Type) (m : M W A) (Q Q' : A -> Prop) :
  always m P Q -> (forall a, Q a -> Q' a) -> always m P Q'.
Proof.
  intros Hm Himp w. destruct (Hm w) as [Ht HQ]. split; [exact Ht |].
  intros a E. apply Himp, HQ, E.
Qed.

Lemma bind_ret_l (A B : Type) (a : A) (k : A -> M W B) (w : W) :
  bind (ret a) k w = k a w.
Proof.
  unfold bind, ret. destruct (k a w) as [[r w2] t2]. reflexivity.
Qed.

Lemma bind_assoc (A B C : Type) (m : M W A) (k1 : A -> M W B) (k2 : B -> M W C)
    (w : W) :
  bind (bind m k1) k2 w = bind m (fun a => bind (k1 a) k2) w.
Proof.
  unfold bind. destruct (m w) as [[[a | e] w1] t1]; [| reflexivity].
  destruct (k1 a w1) as [[[b | e] w2] t2]; [| reflexivity].
  destruct (k2 b w2) as [[r w3] t3]. rewrite app_assoc. reflexivity.
Qed.

Lemma always_ext (A : Type) (m m' : M W A) (Q : A -> Prop) :
  (forall w, m w = m' w) -> always m' P Q -> always m P Q.
Proof. intros E H w. rewrite E. apply H. Qed.

Lemma always_bind_ret (A B : Type) (a : A) (k : A -> M W B) (Q : B -> Prop) :
  always (k a) P Q -> always (bind (ret a) k) P Q.
Proof. apply always_ext. apply bind_ret_l. Qed.

Lemma always_bind_assoc (A B C : Type) (m : M W A) (k1 : A -> M W B)
    (k2 : B -> M W C) (Q : C -> Prop) :
  always (bind m (fun a => bind (k1 a) k2)) P Q -> always (bind (bind m k1) k2) P Q.
Proof. apply always_ext. apply bind_assoc. Qed.

End AlwaysRules.

(** Steps through a command, one [bind] at a time. *)
Ltac always_step :=
  lazymatch goal with
  | |- always (ret _) _ _ => apply always_ret
  | |- always (emit _) _ _ => apply always_emit
  | |- always (call _ _) _ _ => apply always_call
  | |- always (lift _) _ _ => apply always_lift
  | |- always (bind (call _ _) _) _ _ =>
      eapply always_bind; [apply always_call with (Q := anything) | intros ? _]
  | |- always (bind (emit _) _) _ _ =>
      eapply always_bind; [apply always_emit with (Q := anything) | intros ? _]
  | |- always (bind (ret _) _) _ _ => apply always_bind_ret
  | |- always (bind (bind _ _) _) _ _ => apply always_bind_assoc
  | |- always (bind (if ?b then _ else _) _) _ _ => destruct b
  | |- always (bind (match ?x with _ => _ end) _) _ _ => destruct x
  | |- always (if ?b then _ else _) _ _ => destruct b
  | |- always (match ?x with _ => _ end) _ _ => destruct x
  end.

Section AlwaysMethods.

Context {W : Type} {os : OS W}.
Variable self : Worker.
Variable P : Event -> Prop.
Hypothesis P_status :
  forall message, announces_archive message = false -> P (Status message).
Hypothesis P_called : forall c, is_zip_write c = false -> P (Called c).

Ltac side :=
  first [exact I | apply P_status; reflexivity | apply P_called; reflexivity
        | intros; exact I].
Ltac walk := repeat (always_step; try side).

Lemma always_cleanup_dir (directory : Path) :
  always (_cleanup_dir directory) P anything.
Proof. unfold _cleanup_dir. walk. Qed.

Lemma always_prepare_output_dir (folder : Path) :
  always (_prepare_output_dir folder) P
    (fun r => forall outdir, r = Ok outdir -> outdir = PyPath.child folder OUTPUT_DIR_NAME).
Proof.
  unfold _prepare_output_dir. walk; intros; congruence.
Qed.

Lemma always_convert_image (source outdir : Path) :
  always (_convert_image self source outdir) P anything.
Proof. unfold _convert_image. walk. Qed.

Lemma always_iterdir (p : Path) :
  always (iterdir p) P (fun l => exists names, l = map (PyPath.child p) names).
Proof. unfold iterdir. walk. eauto. Qed.

Lemma always_encoder_available : always _encoder_available P anything.
Proof. unfold _encoder_available. walk. Qed.

Lemma always_supported_files (paths : list Path) :
  always (supported_files paths) P
    (fun l => forall x, In x l -> In x paths /\ is_supported x = true).
Proof.
  induction paths as [| path rest IH]; cbn [supported_files].
  - walk. intros x [].
  - always_step; try side.
    eapply always_bind; [exact IH | intros tl Htl]. apply always_ret.
    destruct (a && is_supported path) eqn:E.
    + apply andb_prop in E. destruct E as [_ E].
      intros x [<- | Hx]; [split; [left; reflexivity | exact E] |].
      destruct (Htl x Hx). split; [right |]; assumption.
    + intros x Hx. destruct (Htl x Hx). split; [right |]; assumption.
Qed.

Lemma sum_of_snoc (A : Type) (f : A -> Z) (xs : list A) (x : A) :
  sum_of f (xs ++ [x]) = sum_of f xs + f x.
Proof. unfold sum_of. rewrite fold_left_app. reflexivity. Qed.

Lemma always_prepare_batches_from (todo : list Path) :
  forall (batches : list FolderBatch.t) (total_convertible total_files : Z),
    Forall (scanned self) batches ->
    total_convertible = sum_of convertible_count batches ->
    total_files = sum_of file_count batches ->
    always (_prepare_batches_from self todo batches total_convertible total_files) P
      (fun r =>
         Forall (scanned self) (fst (fst r))
         /\ snd (fst r) = sum_of convertible_count (fst (fst r))
         /\ snd r = sum_of file_count (fst (fst r))).
Proof.
  induction todo as [| folder rest IH]; intros batches tc tf Hb Htc Htf;
    cbn [_prepare_batches_from].
  - walk. cbn. auto.
  - always_step; try side. destruct a; cbn [negb].
    + eapply always_bind; [apply always_iterdir | intros entries [names ->]].
      eapply always_bind; [apply always_supported_files | intros all_images Hall].
      apply IH.
      * apply Forall_app. split; [exact Hb |]. constructor; [| constructor].
        split; [| split; reflexivity]. cbn. intros x Hx.
        destruct (Hall x Hx) as [Hin Hsup]. split; [| exact Hsup].
        apply in_map_iff in Hin. destruct Hin as [n [<- _]]. eauto.
      * rewrite sum_of_snoc, Htc. reflexivity.
      * rewrite sum_of_snoc, Htf. reflexivity.
    + always_step; try side. apply IH; assumption.
Qed.

Lemma always_prepare_batches :
  always (_prepare_batches self) P
    (fun r =>
       Forall (scanned self) (fst (fst r))
       /\ snd (fst r) = sum_of convertible_count (fst (fst r))
       /\ snd r = sum_of file_count (fst (fst r))).
Proof.
  apply always_prepare_batches_from; [constructor | reflexivity | reflexivity].
Qed.

Lemma always_delete_originals (originals : list Path) :
  forall errors, always (delete_originals originals errors) P anything.
Proof.
  induction originals as [| original rest IH]; intros errors; cbn [delete_originals].
  - walk.
  - walk; apply IH.
Qed.

Lemma always_move_outputs (folder : Path) (outputs : list Path) :
  forall errors, always (move_outputs folder outputs errors) P anything.
Proof.
  induction outputs as [| optimized rest IH]; intros errors; cbn [move_outputs].
  - walk.
  - walk; apply IH.
Qed.

Lemma always_replace_originals (batch : FolderBatch.t) (outdir : Path) :
  always (_replace_originals batch outdir) P anything.
Proof.
  unfold _replace_originals. always_step; try side.
  eapply always_bind; [apply always_delete_originals | intros errors _].
  eapply always_bind; [apply always_iterdir | intros outputs _].
  eapply always_bind; [apply always_move_outputs | intros errors' _].
  eapply always_bind; [apply always_cleanup_dir | intros _ _].
  walk.
Qed.

Lemma always_build_run_summary (folder_summaries : list FolderSummary.t)
    (run_start : Q) (total_work_units processed_units expected : Z) (cancelled : bool) :
  always (_build_run_summary folder_summaries run_start total_work_units
            processed_units expected cancelled) P
    (fun s => exists duration,
       s = summary_dict folder_summaries duration total_work_units processed_units
             expected cancelled).
Proof. unfold _build_run_summary. walk. eauto. Qed.

End AlwaysMethods.

(** ** An invariant of every run *)

(** The loops of [run] keep every event in [P] and every sealed folder
    summary in [Inv], provided [P] admits what the loops can emit and
    [Inv] admits what a folder of this worker can be sealed with. *)
Section AlwaysRun.

Context {W : Type} {os : OS W}.
Variable self : Worker.
Variable P : Event -> Prop.
Variable Inv : FolderSummary.t -> Prop.
Hypothesis P_status :
  forall message, announces_archive message = false -> P (Status message).
Hypothesis P_called : forall c, is_zip_write c = false -> P (Called c).
Hypothesis P_archive :
  replace_originals self = false ->
  (forall message, P (Status message))
  /\ (forall a m, P (Called (CallZipWrite a m))).
Hypothesis P_progress : forall v, P (Progress v).
Hypothesis P_finished : P Finished.
Hypothesis P_summary :
  forall fs d twu p ec c, Forall Inv fs -> P (SummaryReady (summary_dict fs d twu p ec c)).
Hypothesis Inv_sealed :
  forall f c s e bo bc asz ap d,
    (replace_originals self = true -> asz = None /\ ap = None) ->
    Inv (FolderSummary.make f c s e bo bc asz ap d).

Ltac side :=
  first [exact I | apply P_status; reflexivity | apply P_called; reflexivity
        | apply P_progress | apply P_finished | intros; exact I].
Ltac walk := repeat (always_step; try side).

Lemma always_create_archive (batch : FolderBatch.t) (outdir : Path) :
  replace_originals self = false ->
  always (_create_archive self batch outdir) P anything.
Proof.
  intros Harchive. destruct (P_archive Harchive) as [P_any_status P_zip].
  unfold _create_archive.
  repeat first
    [ eapply always_bind; [apply always_cleanup_dir; assumption | intros _ _]
    | eapply always_bind; [apply always_iterdir; assumption | intros ? _]
    | eapply always_bind;
      [apply always_call with (Q := anything);
       [apply P_zip | intros; exact I] | intros ? _]
    | always_step; try first [side | apply P_any_status] ].
Qed.

Lemma always_emit_progress (processed total : Z) :
  always (W := W) (_emit_progress processed total) P anything.
Proof.
  unfold _emit_progress. destruct (total <=? 0); [walk |].
  eapply always_bind; [apply always_lift with (Q := anything); intros; exact I |].
  intros v _. walk.
Qed.

Lemma always_cancel_run (A : Type) (fs : list FolderSummary.t) (run_start : Q)
    (twu p tc : Z) :
  Forall Inv fs ->
  always (cancel_run (A := A) fs run_start twu p tc) P (fun r => r = Returned).
Proof.
  intros Hfs. unfold cancel_run.
  eapply always_bind; [apply always_build_run_summary; assumption |].
  intros s [d ->]. always_step; [apply P_summary; exact Hfs | exact I |].
  walk. reflexivity.
Qed.

Lemma always_convert_images (fs : list FolderSummary.t) (run_start : Q)
    (twu tc : Z) (batch : FolderBatch.t) (outdir : Path) (sources : list Path) :
  Forall Inv fs ->
  forall acc p,
    always (convert_images self fs run_start twu tc batch outdir sources acc p)
      P anything.
Proof.
  intros Hfs. induction sources as [| source rest IH]; intros acc p;
    cbn [convert_images].
  - walk.
  - always_step; try side. destruct a.
    + always_step; try side.
      eapply always_bind; [apply always_cleanup_dir; assumption | intros _ _].
      eapply always_weaken; [apply always_cancel_run; exact Hfs | intros; exact I].
    + always_step; try side.
      eapply always_bind; [apply always_convert_image; assumption |].
      intros [[[success original_size] converted_size] error_message] _.
      eapply always_bind; [apply always_emit_progress | intros _ _].
      apply IH.
Qed.

Lemma Forall_snoc (A : Type) (R : A -> Prop) (xs : list A) (x : A) :
  Forall R xs -> R x -> Forall R (xs ++ [x]).
Proof. intros H Hx. apply Forall_app. split; [exact H | repeat constructor; exact Hx]. Qed.

Lemma always_process_batch (run_start : Q) (twu tc : Z) (batch : FolderBatch.t)
    (fs : list FolderSummary.t) (p : Z) :
  Forall Inv fs ->
  always (process_batch self run_start twu tc batch fs p) P
    (appended_one Inv batch fs).
Proof.
  intros Hfs. unfold process_batch.
  assert (Hseal : forall c s e bo bc asz ap d p',
            (replace_originals self = true -> asz = None /\ ap = None) ->
            appended_one Inv batch fs
              (Completed
                 ((fs ++ [FolderSummary.make (PyPath.str (FolderBatch.folder batch))
                            c s e bo bc asz ap d])%list, p'))).
  { intros. eexists. split; [reflexivity |]. split; [reflexivity |].
    apply Inv_sealed. assumption. }
  always_step; try side. destruct a.
  { always_step; try side.
    eapply always_weaken; [apply always_cancel_run; exact Hfs | intros r ->; exact I]. }
  always_step; try side. always_step; try side.
  eapply always_bind; [apply always_prepare_output_dir; assumption | intros prepared _].
  destruct prepared as [outdir | exc].
  2: { walk. apply Hseal. intros; split; reflexivity. }
  destruct (match FolderBatch.convertible_images batch with [] => true | _ => false end
            && negb (replace_originals self)).
  { always_step; try side.
    eapply always_bind; [apply always_cleanup_dir; assumption | intros _ _].
    walk. apply Hseal. intros; split; reflexivity. }
  eapply always_bind; [apply always_convert_images; exact Hfs | intros converted _].
  destruct converted as [[acc p'] |]; [| walk; exact I].
  assert (Hcase : replace_originals self = true \/ replace_originals self = false)
    by (destruct (replace_originals self); auto).
  destruct Hcase as [Hreplace | Hreplace]; rewrite Hreplace.
  - apply always_bind_assoc.
    eapply always_bind; [apply always_replace_originals; assumption | intros errors _].
    apply always_bind_ret. cbv beta iota.
    destruct (len (FolderBatch.all_images batch)
              - len (FolderBatch.convertible_images batch) >? 0).
    + apply always_bind_assoc.
      eapply always_bind; [apply always_emit_progress | intros _ _].
      walk. apply Hseal. intros; split; reflexivity.
    + walk. apply Hseal. intros; split; reflexivity.
  - apply always_bind_assoc.
    eapply always_bind; [apply always_create_archive; exact Hreplace |].
    intros [[archive_path archive_size] archive_errors] _.
    apply always_bind_ret. cbv beta iota.
    destruct (len (FolderBatch.all_images batch)
              - len (FolderBatch.convertible_images batch) >? 0).
    + apply always_bind_assoc.
      eapply always_bind; [apply always_emit_progress | intros _ _].
      walk. apply Hseal. congruence.
    + walk. apply Hseal. congruence.
Qed.

Lemma always_process_batches (run_start : Q) (twu tc : Z)
    (batches : list FolderBatch.t) :
  forall fs p,
    Forall Inv fs ->
    always (process_batches self run_start twu tc batches fs p) P
      (appended_each Inv batches fs).
Proof.
  induction batches as [| batch rest IH]; intros fs p Hfs; cbn [process_batches].
  - walk. exists []. rewrite app_nil_r. repeat split; constructor.
  - eapply always_bind; [apply always_process_batch; exact Hfs |].
    intros [[fs' p'] |] Hstep; [| walk; exact I].
    destruct Hstep as (f & -> & Hfolder & Hf).
    eapply always_weaken; [apply IH; apply Forall_snoc; assumption |].
    intros [[fs'' p''] |] Hrest; [| exact I].
    destruct Hrest as (new & -> & Hfolders & Hnew).
    exists (f :: new). rewrite <- app_assoc. split; [reflexivity |].
    split; [cbn; rewrite Hfolder, Hfolders; reflexivity | constructor; assumption].
Qed.

Lemma appended_each_sealed (batches : list FolderBatch.t)
    (fs : list FolderSummary.t) (r : loop_exit (list FolderSummary.t * Z)) :
  Forall Inv fs -> appended_each Inv batches fs r -> sealed Inv r.
Proof.
  intros Hfs. destruct r as [[fs' p'] |]; [| intros; exact I].
  intros (new & -> & _ & Hnew). apply Forall_app. split; assumption.
Qed.

Theorem always_run : always (run self) P anything.
Proof.
  unfold run. always_step; try side.
  eapply always_bind; [apply always_encoder_available; assumption | intros available _].
  destruct available; cbn [negb].
  - eapply always_bind; [apply always_prepare_batches; assumption |].
    intros [[batches tc] tf] _.
    destruct (tc =? 0).
    + always_step; try side.
      eapply always_bind; [apply always_build_run_summary; assumption |].
      intros s [d ->]. always_step; [apply P_summary; constructor | exact I |].
      walk.
    + eapply always_bind;
        [eapply always_weaken;
         [apply always_process_batches; constructor
         | intros r; apply appended_each_sealed; constructor] |].
      intros [[fs p] |] Hfs; [| walk; exact I].
      always_step; try side. always_step; try side.
      eapply always_bind; [apply always_build_run_summary; assumption |].
      intros s [d ->]. always_step; [apply P_summary; exact Hfs | exact I |].
      walk.
  - eapply always_bind; [apply always_build_run_summary; assumption |].
    intros s [d ->]. always_step; [apply P_summary; constructor | exact I |].
    walk.
Qed.

End AlwaysRun.

(** Runs a straight-line command: unfolds the monad and names the answer
    of every call. *)
Ltac name_answer :=
  match goal with
  | |- context [let (_, _) := ?x in _] =>
      lazymatch x with
      | context [match _ with _ => _ end] => fail
      | _ => let E := fresh "E" in destruct x eqn:E; cbn [fst snd] in *
      end
  end.

Ltac run_command :=
  cbv [bind call emit ret lift] in *; cbn;
  repeat (name_answer; subst; cbn).

(** ** C4: the encoder is missing *)

Section EncoderMissing.
Context {W : Type} {os : OS W}.

(** C4: when [cwebp] is not found on the search path, the run emits exactly
    one summary, with [totals.converted = 0], [processed_images = 0],
    [total_images = 0], [cancelled = False] and an empty [folders] list, and
    touches no folder: its only calls are the two clock readings and the
    search for the encoder. *)
Theorem encoder_missing_summary (self : Worker) (w : W) :
  fst (which ENCODER_NAME (snd (perf_counter w))) = false ->
  exists s,
    summaries_of (trace_of (run self w)) = [s]
    /\ totals_get "converted" s = Some (VInt 0)
    /\ py_get "processed_images" s = Some (VInt 0)
    /\ py_get "total_images" s = Some (VInt 0)
    /\ py_get "cancelled" s = Some (VBool false)
    /\ py_get "folders" s = Some (VList [])
    /\ calls_of (trace_of (run self w))
       = [CallPerfCounter; CallWhich ENCODER_NAME; CallPerfCounter]
    /\ result_of (run self w) = Done tt.
Proof.
  intros Hmissing.
  unfold run, _encoder_available, _build_run_summary.
  run_command. eexists. repeat split.
Qed.
End EncoderMissing.

Lemma encoder_missing_summary_witness :
  fst (which ENCODER_NAME (snd (perf_counter no_encoder_world))) = false
  /\ exists s,
      summaries_of (trace_of (run max_quality_worker no_encoder_world)) = [s]
      /\ totals_get "converted" s = Some (VInt 0)
      /\ py_get "processed_images" s = Some (VInt 0)
      /\ py_get "total_images" s = Some (VInt 0)
      /\ py_get "cancelled" s = Some (VBool false)
      /\ py_get "folders" s = Some (VList [])
      /\ calls_of (trace_of (run max_quality_worker no_encoder_world))
         = [CallPerfCounter; CallWhich ENCODER_NAME; CallPerfCounter]
      /\ result_of (run max_quality_worker no_encoder_world) = Done tt.
Proof.
  split; [reflexivity |].
  apply (encoder_missing_summary max_quality_worker no_encoder_world). reflexivity.
Defined.

(** ** C5: bytes saved *)

Lemma summary_on_trace (t : list Event) (s : pyval) :
  In s (summaries_of t) -> In (SummaryReady s) t.
Proof.
  induction t as [| e t IH]; cbn; [tauto |].
  destruct e; cbn; intros H; try (right; apply IH; exact H).
  destruct H as [<- | H]; [left; reflexivity | right; apply IH; exact H].
Qed.

Lemma call_on_trace (t : list Event) (c : OsCall) :
  In c (calls_of t) -> In (Called c) t.
Proof.
  induction t as [| e t IH]; cbn; [tauto |].
  destruct e; cbn; intros H; try (right; apply IH; exact H).
  destruct H as [<- | H]; [left; reflexivity | right; apply IH; exact H].
Qed.

Lemma folders_of_summary_dict fs d twu p ec c :
  folders_of (summary_dict fs d twu p ec c) = map asdict fs.
Proof. reflexivity. Qed.

Lemma summary_dict_saved fs d twu p ec c :
  saved_at_run_level (summary_dict fs d twu p ec c).
Proof.
  split.
  - cbn. do 3 eexists. repeat split; try reflexivity. lia.
  - rewrite folders_of_summary_dict. intros entry Hin.
    apply in_map_iff in Hin. destruct Hin as [f [<- _]].
    split; [reflexivity |]. do 2 eexists. split; reflexivity.
Qed.

(** C5, as stated, fails: in the summary of a two-folder run the entry of
    [/lib/a] has no [bytes_saved] key at all. *)
Lemma folder_entries_carry_no_bytes_saved :
  exists s,
    In s (summaries_of (trace_of (run max_quality_worker quiet_world)))
    /\ ~ saved_at_both_levels s.
Proof.
  eexists. split; [vm_compute; left; reflexivity |].
  intros [_ Hfolders].
  destruct (Hfolders _ (or_introl eq_refl)) as (o & c & v & _ & _ & Hsaved & _).
  vm_compute in Hsaved. discriminate.
Qed.

Section BytesSaved.

Context {W : Type} {os : OS W}.

(** C5 (amended): in every summary a run emits, the run-level
    [totals.bytes_saved] equals [max(0, bytes_original - bytes_converted)]
    and is not negative; a folder entry carries [bytes_original] and
    [bytes_converted] and no [bytes_saved] of its own. *)
Theorem bytes_saved_at_run_level (self : Worker) (w : W) (s : pyval) :
  In s (summaries_of (trace_of (run self w))) -> saved_at_run_level s.
Proof.
  intros Hs. apply summary_on_trace in Hs.
  assert (H : always (run self) (summaries_satisfy saved_at_run_level) anything).
  { apply always_run with (Inv := anything);
      try (intros; exact I); try (intros; split; intros; exact I).
    intros; apply summary_dict_saved. }
  destruct (H w) as [Hall _]. rewrite Forall_forall in Hall.
  apply (Hall _ Hs).
Qed.

End BytesSaved.

Lemma bytes_saved_at_run_level_witness :
  exists s,
    In s (summaries_of (trace_of (run max_quality_worker quiet_world)))
    /\ saved_at_run_level s.
Proof.
  eexists. split; [vm_compute; left; reflexivity |].
  apply (@bytes_saved_at_run_level _ _ max_quality_worker quiet_world).
  vm_compute. left. reflexivity.
Defined.

(** ** C7: replacing and archiving exclude each other *)

Lemma name_child (p : Path) (n : string) : PyPath.name (PyPath.child p n) = n.
Proof. unfold PyPath.name, PyPath.child. cbn. apply last_last. Qed.

(** A supported image is not named like the output directory or like a
    bare archive extension. *)
Lemma supported_entry_name (p : Path) (n : string) :
  is_supported (PyPath.child p n) = true ->
  n <> OUTPUT_DIR_NAME /\ n <> ".zip" /\ n <> ".cbz".
Proof.
  unfold is_supported, PyPath.suffix. rewrite name_child. intros H.
  repeat split; intros ->; vm_compute in H; discriminate.
Qed.

Lemma is_prefix_snoc (l : list string) (a b : string) :
  PyPath.is_prefix (l ++ [a]) (l ++ [b]) = String.eqb a b.
Proof.
  induction l as [| x l IH]; cbn.
  - apply andb_true_r.
  - rewrite String.eqb_refl. exact IH.
Qed.

Lemma within_sibling (p : Path) (a b : string) :
  PyPath.within (PyPath.child p a) (PyPath.child p b) = String.eqb a b.
Proof.
  unfold PyPath.within, PyPath.child. cbn.
  rewrite String.eqb_refl, is_prefix_snoc. reflexivity.
Qed.

Lemma outdir_holds_no_image (folder : Path) (n : string) :
  is_supported (PyPath.child folder n) = true ->
  PyPath.within (PyPath.child folder OUTPUT_DIR_NAME) (PyPath.child folder n) = false.
Proof.
  intros H. rewrite within_sibling. apply String.eqb_neq.
  destruct (supported_entry_name _ _ H) as [Hn _]. congruence.
Qed.

Lemma archive_is_no_image (folder : Path) (ext n : string) :
  ext = ".zip" \/ ext = ".cbz" ->
  is_supported (PyPath.child folder n) = true ->
  PyPath.eqb (PyPath.child (PyPath.parent folder) (PyPath.name folder ++ ext))
             (PyPath.child folder n) = false.
Proof.
  intros Hext H. destruct (supported_entry_name _ _ H) as (_ & Hzip & Hcbz).
  unfold PyPath.eqb, PyPath.child, PyPath.parent, PyPath.name. cbn.
  destruct (parts folder) as [| a l] eqn:E.
  - cbn. assert (Hne : String.eqb ext n = false).
    { apply String.eqb_neq. destruct Hext; congruence. }
    rewrite Hne. rewrite andb_false_r. reflexivity.
  - assert (Hlen : (length (removelast (a :: l) ++ [last (a :: l) "" ++ ext])
                    =? length ((a :: l) ++ [n]))%nat = false).
    { apply Nat.eqb_neq. rewrite !length_app.
      pose proof (@exists_last _ (a :: l) ltac:(discriminate)) as [l' [z Hz]].
      rewrite Hz. rewrite removelast_last, length_app. cbn. lia. }
    rewrite Hlen. rewrite andb_false_r. reflexivity.
Qed.

Lemma no_archive_entry_asdict (f : FolderSummary.t) :
  no_archive f -> no_archive_entry (asdict f).
Proof.
  destruct f as [f c s e bo bc asz ap d]. unfold no_archive. cbn.
  intros [Hp Hs]. subst. split; reflexivity.
Qed.

Section ReplaceOrArchive.

Context {W : Type} {os : OS W}.
Variable self : Worker.

Lemma replace_mode_run :
  replace_originals self = true -> always (run self) replace_mode_event anything.
Proof.
  intros Hreplace.
  apply always_run with (Inv := no_archive).
  - intros message H. exact H.
  - intros c H. exact H.
  - congruence.
  - intros; exact I.
  - exact I.
  - intros fs d twu p ec c Hfs entry Hin.
    rewrite folders_of_summary_dict in Hin. apply in_map_iff in Hin.
    destruct Hin as [f [<- Hf]]. apply no_archive_entry_asdict.
    rewrite Forall_forall in Hfs. apply Hfs, Hf.
  - intros f c s e bo bc asz ap d H. destruct (H Hreplace) as [-> ->].
    split; reflexivity.
Qed.

Lemma archive_keeps_images (batch : FolderBatch.t) :
  scanned self batch ->
  always (_create_archive self batch
            (PyPath.child (FolderBatch.folder batch) OUTPUT_DIR_NAME))
         (keeps_images batch) anything.
Proof.
  intros [Himages _].
  assert (Houtdir : forall x, In x (FolderBatch.all_images batch) ->
            PyPath.within (PyPath.child (FolderBatch.folder batch) OUTPUT_DIR_NAME) x
            = false).
  { intros x Hx. destruct (Himages x Hx) as [[n ->] Hsup].
    apply outdir_holds_no_image, Hsup. }
  assert (Harchive : forall x, In x (FolderBatch.all_images batch) ->
            PyPath.eqb
              (PyPath.child (PyPath.parent (FolderBatch.folder batch))
                 (PyPath.name (FolderBatch.folder batch)
                  ++ (if use_cbz self then ".cbz" else ".zip"))) x = false).
  { intros x Hx. destruct (Himages x Hx) as [[n ->] Hsup].
    apply archive_is_no_image; [destruct (use_cbz self); auto | exact Hsup]. }
  unfold _create_archive, _cleanup_dir, iterdir.
  repeat (always_step;
          try (unfold keeps_images; cbn [deletes];
               first [exact I | exact Houtdir | exact Harchive
                     | intros; exact I | intros; reflexivity])).
Qed.

(** C7: with replace-originals enabled (whatever the archive-format flag),
    the archive builder is never invoked (no run announces an archive or
    writes one) and every folder entry of every emitted summary has
    [archive_path] and [archive_size] set to [None]; and the archive
    builder, working on a scanned batch, makes no call that removes one of
    the batch's images (it unlinks only the old archive and removes only
    the temporary output directory). *)
Theorem replace_excludes_archive_and_archive_keeps_sources :
  (replace_originals self = true ->
   forall w : W,
     (forall message, In (Status message) (trace_of (run self w)) ->
        announces_archive message = false)
     /\ (forall c, In c (calls_of (trace_of (run self w))) -> is_zip_write c = false)
     /\ (forall s entry,
           In s (summaries_of (trace_of (run self w))) ->
           In entry (folders_of s) -> no_archive_entry entry))
  /\ (forall (batch : FolderBatch.t) (w : W) (c : OsCall) (x : Path),
        scanned self batch ->
        In c (calls_of (trace_of
               (_create_archive self batch
                  (PyPath.child (FolderBatch.folder batch) OUTPUT_DIR_NAME) w))) ->
        In x (FolderBatch.all_images batch) ->
        deletes c x = false).
Proof.
  split.
  - intros Hreplace w. destruct (replace_mode_run Hreplace w) as [Hall _].
    rewrite Forall_forall in Hall. split; [| split].
    + intros message Hin. apply (Hall _ Hin).
    + intros c Hin. apply call_on_trace in Hin. apply (Hall _ Hin).
    + intros s0 entry Hs0. apply summary_on_trace in Hs0. apply (Hall _ Hs0).
  - intros batch w c x Hscanned Hc Hx. apply call_on_trace in Hc.
    destruct (archive_keeps_images Hscanned w) as [Hall _].
    rewrite Forall_forall in Hall. apply (Hall _ Hc x Hx).
Qed.

End ReplaceOrArchive.

Lemma replace_excludes_archive_and_archive_keeps_sources_witness :
  (replace_originals replacing_worker = true /\ scanned replacing_worker batch_a)
  /\ Forall (fun c => is_zip_write c = false)
            (calls_of (trace_of (run replacing_worker quiet_world)))
  /\ Forall (fun c => deletes c png_in_a = false)
            (calls_of (trace_of
               (_create_archive replacing_worker batch_a
                  (PyPath.child dir_a OUTPUT_DIR_NAME) quiet_world))).
Proof.
  assert (Hscanned : scanned replacing_worker batch_a).
  { split; [| split; reflexivity].
    intros x [<- | [<- | []]]; (split; [eexists; reflexivity | reflexivity]). }
  destruct (@replace_excludes_archive_and_archive_keeps_sources
              Sim.t Sim.os replacing_worker) as [Hrun Harchive].
  split; [split; [reflexivity | exact Hscanned] |].
  split.
  - apply Forall_forall. intros c Hc.
    destruct (Hrun eq_refl quiet_world) as (_ & Hcalls & _). apply Hcalls, Hc.
  - apply Forall_forall. intros c Hc.
    apply (Harchive batch_a quiet_world c png_in_a Hscanned Hc).
    left. reflexivity.
Defined.

Local Open Scope list_scope.

(** ** C2: progress never goes back *)

Lemma progress_values_app (t1 t2 : list Event) :
  progress_values (t1 ++ t2) = progress_values t1 ++ progress_values t2.
Proof.
  induction t1 as [| e t1 IH]; [reflexivity |].
  destruct e; cbn; rewrite IH; reflexivity.
Qed.

Lemma summaries_of_app (t1 t2 : list Event) :
  summaries_of (t1 ++ t2) = summaries_of t1 ++ summaries_of t2.
Proof.
  induction t1 as [| e t1 IH]; [reflexivity |].
  destruct e; cbn; rewrite IH; reflexivity.
Qed.

Lemma no_progress_values (t : list Event) :
  Forall no_progress t -> progress_values t = [].
Proof.
  induction 1 as [| e t He _ IH]; [reflexivity |].
  destruct e; cbn in *; [contradiction | exact IH ..].
Qed.

Lemma silent_no_progress (t : list Event) : Forall silent t -> Forall no_progress t.
Proof.
  apply Forall_impl. intros [] H; cbn in *; auto.
Qed.

Lemma silent_summaries (t : list Event) : Forall silent t -> summaries_of t = [].
Proof.
  induction 1 as [| e t He _ IH]; [reflexivity |].
  destruct e; cbn in *; try contradiction; exact IH.
Qed.

Lemma level_mono (p p' T : Z) : 0 <= p -> p <= p' -> level p T <= level p' T.
Proof.
  intros H0 Hp. unfold level. destruct (Z.ltb_spec 0 T); [| lia].
  apply PercentageFacts.capped_mono; assumption.
Qed.

Lemma level_le_100 (p T : Z) : level p T <= 100.
Proof.
  unfold level. destruct (0 <? T); [apply PercentageFacts.capped_le_100 | lia].
Qed.

Lemma ascending_from_weaken (lo lo' : Z) (vs : list Z) :
  lo' <= lo -> ascending_from lo vs -> ascending_from lo' vs.
Proof. destruct vs; cbn; [tauto | intros ? [? ?]; split; [lia | assumption]]. Qed.

Lemma ascending_from_app (lo mid : Z) (vs1 vs2 : list Z) :
  ascending_from lo vs1 -> Forall (fun v => v <= mid) vs1 -> lo <= mid ->
  ascending_from mid vs2 -> ascending_from lo (vs1 ++ vs2).
Proof.
  revert lo. induction vs1 as [| v vs1 IH]; cbn; intros lo Ha Hb Hlo H2.
  - apply ascending_from_weaken with mid; assumption.
  - destruct Ha as [Hv Ha]. inversion Hb; subst. split; [exact Hv |].
    apply IH; assumption.
Qed.

Lemma climbs_nil (lo hi : Z) : lo <= hi -> climbs lo hi [].
Proof. intros H. repeat split; [exact H | constructor]. Qed.

Lemma climbs_app (lo mid hi : Z) (vs1 vs2 : list Z) :
  climbs lo mid vs1 -> climbs mid hi vs2 -> climbs lo hi (vs1 ++ vs2).
Proof.
  intros (H1 & A1 & B1) (H2 & A2 & B2). repeat split; [lia | |].
  - apply ascending_from_app with mid; assumption.
  - apply Forall_app. split; [| exact B2].
    eapply Forall_impl; [| exact B1]. cbn. intros; lia.
Qed.

Lemma climbs_one (lo v hi : Z) : lo <= v -> v <= hi -> climbs lo hi [v].
Proof. intros H1 H2. repeat split; [lia | exact H1 | repeat constructor; exact H2]. Qed.

Lemma climbs_raise (lo hi hi' : Z) (vs : list Z) :
  hi <= hi' -> climbs lo hi vs -> climbs lo hi' vs.
Proof.
  intros H (H1 & A & B). repeat split; [lia | exact A |].
  eapply Forall_impl; [| exact B]. cbn. intros; lia.
Qed.

Lemma ascending_from_sorted (lo : Z) (vs : list Z) :
  ascending_from lo vs -> StronglySorted Z.le vs /\ Forall (Z.le lo) vs.
Proof.
  revert lo. induction vs as [| v vs IH]; cbn; intros lo H.
  - split; constructor.
  - destruct H as [Hv H]. destruct (IH v H) as [Hs Hall]. split.
    + constructor; assumption.
    + constructor; [exact Hv |]. eapply Forall_impl; [| exact Hall].
      cbn. intros; lia.
Qed.

Section Yields.

Context {W : Type} {os : OS W}.

Lemma yields_ret (A : Type) (R : outcome A -> list Z -> list pyval -> Prop) (a : A) :
  R (Done a) [] [] -> yields (W := W) (ret a) R.
Proof. intros H w. exact H. Qed.

(** A step that sends neither percentages nor summaries. *)
Lemma yields_bind_silent (A B : Type) (m : M W A) (k : A -> M W B)
    (Q : A -> Prop) (R : outcome B -> list Z -> list pyval -> Prop) :
  always m silent Q ->
  (forall e, R (Uncaught e) [] []) ->
  (forall a, Q a -> yields (k a) R) ->
  yields (bind m k) R.
Proof.
  intros Hm Hraise Hk w. destruct (Hm w) as [Hsilent HQ]. unfold bind.
  destruct (m w) as [[[a | e] w1] t1]; cbn in *.
  - specialize (Hk a (HQ a eq_refl) w1). destruct (k a w1) as [[r w2] t2]; cbn in *.
    rewrite progress_values_app, summaries_of_app.
    rewrite (no_progress_values (silent_no_progress Hsilent)).
    rewrite (silent_summaries Hsilent). exact Hk.
  - rewrite (no_progress_values (silent_no_progress Hsilent)).
    rewrite (silent_summaries Hsilent). apply Hraise.
Qed.

Lemma yields_bind (A B : Type) (m : M W A) (k : A -> M W B)
    (R1 : outcome A -> list Z -> list pyval -> Prop)
    (R : outcome B -> list Z -> list pyval -> Prop) :
  yields m R1 ->
  (forall e vs ss, R1 (Uncaught e) vs ss -> R (Uncaught e) vs ss) ->
  (forall a vs ss, R1 (Done a) vs ss ->
     yields (k a) (fun r vs2 ss2 => R r (vs ++ vs2) (ss ++ ss2))) ->
  yields (bind m k) R.
Proof.
  intros Hm Hraise Hk w. specialize (Hm w). unfold bind.
  destruct (m w) as [[[a | e] w1] t1]; cbn in *.
  - specialize (Hk a _ _ Hm w1). destruct (k a w1) as [[r w2] t2]; cbn in *.
    rewrite progress_values_app, summaries_of_app. exact Hk.
  - apply Hraise, Hm.
Qed.

(** A command that sends no percentage. *)
Lemma yields_no_progress (A : Type) (m : M W A) (Q : A -> Prop)
    (R : outcome A -> list Z -> list pyval -> Prop) :
  always m no_progress Q ->
  (forall e ss, R (Uncaught e) [] ss) ->
  (forall a ss, Q a -> R (Done a) [] ss) ->
  yields m R.
Proof.
  intros Hm Hraise Hdone w. destruct (Hm w) as [Hquiet HQ].
  rewrite (no_progress_values Hquiet).
  destruct (m w) as [[[a | e] w1] t1]; cbn in *.
  - apply Hdone, HQ. reflexivity.
  - apply Hraise.
Qed.

Lemma yields_ext (A : Type) (m m' : M W A)
    (R : outcome A -> list Z -> list pyval -> Prop) :
  (forall w, m w = m' w) -> yields m' R -> yields m R.
Proof. intros E H w. rewrite E. apply H. Qed.

(** [_emit_progress] sends nothing when [total <= 0] and otherwise either
    the capped percentage or, when the arithmetic raises, nothing. *)
Lemma yields_emit_progress (processed total : Z) :
  yields (W := W) (_emit_progress processed total)
    (fun r vs ss =>
       ss = []
       /\ ((r = Done tt /\ (vs = [] \/ (0 < total /\ vs = [capped processed total])))
           \/ (vs = [] /\ exists e, r = Uncaught e))).
Proof.
  intros w. unfold _emit_progress.
  destruct (Z.leb_spec total 0) as [Hle | Hpos]; cbn; [auto |].
  unfold bind, lift, capped.
  destruct (percentage_of processed total) as [v | e]; cbn.
  - split; [reflexivity |]. left. split; [reflexivity |]. right. split; [lia | reflexivity].
  - split; [reflexivity |]. right. split; [reflexivity | eauto].
Qed.

End Yields.

Section ProgressOfLoops.

Context {W : Type} {os : OS W}.
Variable self : Worker.
Variable T : Z.

Lemma yields_weaken (A : Type) (m : M W A)
    (R R' : outcome A -> list Z -> list pyval -> Prop) :
  yields m R -> (forall r vs ss, R r vs ss -> R' r vs ss) -> yields m R'.
Proof. intros H Himp w. apply Himp, H. Qed.

Lemma silent_status message : announces_archive message = false -> silent (Status message).
Proof. intros _. exact I. Qed.

Lemma silent_called c : is_zip_write c = false -> silent (Called c).
Proof. intros _. exact I. Qed.

Lemma quiet_status message :
  announces_archive message = false -> no_progress (Status message).
Proof. intros _. exact I. Qed.

Lemma quiet_called c : is_zip_write c = false -> no_progress (Called c).
Proof. intros _. exact I. Qed.

(** The cancellation exit sends a summary but no percentage, and leaves
    [run]. *)
Lemma cancel_sends_no_progress (A : Type) (fs : list FolderSummary.t)
    (run_start : Q) (twu p tc : Z) :
  always (cancel_run (A := A) fs run_start twu p tc) no_progress
    (fun r => r = Returned).
Proof.
  apply always_cancel_run with (Inv := anything);
    try exact quiet_status; try exact quiet_called; try exact I;
    try (intros; exact I).
  apply Forall_forall. intros; exact I.
Qed.

Lemma raise_keeps_climbing (A : Type) (p : Z) (final : A -> Z) (e : Float64.pyexc)
    (ss : list pyval) :
  loop_progress T p final (Uncaught e) [] ss.
Proof. cbn. apply climbs_nil, level_le_100. Qed.

Lemma return_keeps_climbing (A : Type) (p : Z) (final : A -> Z) (ss : list pyval) :
  loop_progress T p final (Done Returned) [] ss.
Proof. cbn. apply climbs_nil, level_le_100. Qed.

(** Percentages sent while the count went from [p] to [p'], followed by a
    loop that goes on from [p']. *)
Lemma loop_after_prefix (A : Type) (p p' : Z) (final : A -> Z)
    (r : outcome (loop_exit A)) (vs1 vs2 : list Z) (ss2 : list pyval) :
  p <= p' ->
  climbs (level p T) (level p' T) vs1 ->
  loop_progress T p' final r vs2 ss2 ->
  loop_progress T p final r (vs1 ++ vs2) ss2.
Proof.
  intros Hp Hfirst Hloop.
  destruct r as [[a |] | e]; cbn in *.
  - destruct Hloop as (Hfin & Hclimb & ->).
    split; [lia | split; [exact (climbs_app Hfirst Hclimb) | reflexivity]].
  - apply (climbs_app Hfirst Hloop).
  - apply (climbs_app Hfirst Hloop).
Qed.

(** What one [_emit_progress] sends when the count reaches [p']. *)
Lemma one_emission_climbs (p p' : Z) (vs : list Z) :
  0 <= p -> p <= p' ->
  vs = [] \/ (0 < T /\ vs = [capped p' T]) ->
  climbs (level p T) (level p' T) vs.
Proof.
  intros H0 Hp [-> | [HT ->]].
  - apply climbs_nil, level_mono; assumption.
  - assert (E : level p' T = capped p' T)
      by (unfold level; destruct (Z.ltb_spec 0 T); [reflexivity | lia]).
    rewrite <- E. apply climbs_one; [apply level_mono; assumption | lia].
Qed.

Lemma progress_then_loop (A : Type) (p p' : Z) (final : A -> Z)
    (r : outcome (loop_exit A)) (vs1 vs2 : list Z) (ss2 : list pyval) :
  0 <= p -> p <= p' ->
  vs1 = [] \/ (0 < T /\ vs1 = [capped p' T]) ->
  loop_progress T p' final r vs2 ss2 ->
  loop_progress T p final r (vs1 ++ vs2) ss2.
Proof.
  intros H0 Hp Hvs1. apply loop_after_prefix; [exact Hp |].
  apply one_emission_climbs; assumption.
Qed.

Lemma yields_convert_images (fs : list FolderSummary.t) (run_start : Q) (tc : Z)
    (batch : FolderBatch.t) (outdir : Path) (sources : list Path) :
  forall acc p,
    0 <= p ->
    yields (convert_images self fs run_start T tc batch outdir sources acc p)
      (loop_progress T p snd).
Proof.
  induction sources as [| source rest IH]; intros acc p Hp; cbn [convert_images].
  - apply yields_ret. cbn. repeat split; [lia | lia | constructor].
  - eapply yields_bind_silent with (Q := anything);
      [apply always_call; [exact I | intros; exact I]
      | intros e; apply raise_keeps_climbing | intros interrupted _].
    destruct interrupted.
    + eapply yields_no_progress with (Q := fun r => r = Returned).
      * always_step; [exact I | exact I |].
        eapply always_bind;
          [apply always_cleanup_dir; [exact quiet_status | exact quiet_called] |].
        intros _ _. apply cancel_sends_no_progress.
      * intros e ss. apply raise_keeps_climbing.
      * intros a ss ->. apply return_keeps_climbing.
    + eapply yields_bind_silent with (Q := anything);
        [apply always_emit; exact I
        | intros e; apply raise_keeps_climbing | intros _ _].
      eapply yields_bind_silent with (Q := anything);
        [apply always_convert_image; [exact silent_status | exact silent_called]
        | intros e; apply raise_keeps_climbing | ].
      intros [[[success original_size] converted_size] error_message] _.
      eapply yields_bind; [apply yields_emit_progress | |].
      * intros e vs ss (-> & [[E _] | [-> _]]); [discriminate |].
        apply raise_keeps_climbing.
      * intros [] vs ss (-> & [[_ Hvs] | [_ [e E]]]); [| discriminate].
        eapply yields_weaken; [apply IH; lia |].
        intros r vs2 ss2 Hloop. cbn [app].
        apply progress_then_loop with (p' := p + 1); try assumption; lia.
Qed.

Lemma completed_keeps_level (fs : list FolderSummary.t) (p : Z) :
  loop_progress T p snd (Done (Completed (fs, p))) [] [].
Proof.
  cbn. split; [lia | split; [apply climbs_nil; lia | reflexivity]].
Qed.

(** The end of an iteration of the folder loop, after the output strategy:
    the skipped files are counted, the folder is sealed. *)
Lemma yields_seal_folder (skipped_units p : Z) (fs : list FolderSummary.t)
    (seal : Q -> FolderSummary.t) :
  0 <= p ->
  yields
    (bind (if skipped_units >? 0
           then bind (_emit_progress (p + skipped_units) T)
                     (fun _ => ret (p + skipped_units))
           else ret p)
          (fun processed_units =>
             bind (call CallPerfCounter perf_counter)
                  (fun now => ret (Completed (fs ++ [seal now], processed_units)))))
    (loop_progress T p snd).
Proof.
  intros Hp. destruct (Z.gtb_spec skipped_units 0) as [Hsk | Hsk].
  - eapply yields_ext; [intros w; apply bind_assoc |].
    eapply yields_bind; [apply yields_emit_progress | |].
    + intros e vs ss (-> & [[E _] | [-> _]]); [discriminate |].
      apply raise_keeps_climbing.
    + intros [] vs ss (-> & [[_ Hvs] | [_ [e E]]]); [| discriminate].
      eapply yields_ext; [intros w; apply bind_ret_l |].
      eapply yields_bind_silent with (Q := anything);
        [apply always_call; [exact I | intros; exact I] | | intros now _].
      * intros e. cbn [app]. rewrite app_nil_r.
        apply climbs_raise with (level (p + skipped_units) T);
          [apply level_le_100 |].
        apply one_emission_climbs; [exact Hp | lia | exact Hvs].
      * apply yields_ret. cbn [app]. rewrite app_nil_r.
        rewrite <- (app_nil_r vs).
        apply progress_then_loop with (p' := p + skipped_units);
          [exact Hp | lia | exact Hvs | apply completed_keeps_level].
  - eapply yields_ext; [intros w; apply bind_ret_l |].
    eapply yields_bind_silent with (Q := anything);
      [apply always_call; [exact I | intros; exact I]
      | intros e; apply raise_keeps_climbing | intros now _].
    apply yields_ret. apply completed_keeps_level.
Qed.

Lemma yields_process_batch (run_start : Q) (tc : Z) (batch : FolderBatch.t)
    (fs : list FolderSummary.t) (p : Z) :
  0 <= p ->
  yields (process_batch self run_start T tc batch fs p) (loop_progress T p snd).
Proof.
  intros Hp. unfold process_batch.
  eapply yields_bind_silent with (Q := anything);
    [apply always_call; [exact I | intros; exact I]
    | intros e; apply raise_keeps_climbing | intros interrupted _].
  destruct interrupted.
  { eapply yields_no_progress with (Q := fun r => r = Returned).
    - always_step; [exact I | exact I |]. apply cancel_sends_no_progress.
    - intros e ss. apply raise_keeps_climbing.
    - intros a ss ->. apply return_keeps_climbing. }
  eapply yields_bind_silent with (Q := anything);
    [apply always_call; [exact I | intros; exact I]
    | intros e; apply raise_keeps_climbing | intros folder_start _].
  eapply yields_bind_silent with (Q := anything);
    [apply always_emit; exact I
    | intros e; apply raise_keeps_climbing | intros _ _].
  eapply yields_bind_silent;
    [apply always_prepare_output_dir; exact silent_called
    | intros e; apply raise_keeps_climbing | intros prepared _].
  destruct prepared as [outdir | exc].
  2: { eapply yields_bind_silent with (Q := anything);
         [apply always_emit; exact I
         | intros e; apply raise_keeps_climbing | intros _ _].
       eapply yields_bind_silent with (Q := anything);
         [apply always_call; [exact I | intros; exact I]
         | intros e; apply raise_keeps_climbing | intros now _].
       apply yields_ret. apply completed_keeps_level. }
  destruct (match FolderBatch.convertible_images batch with [] => true | _ => false end
            && negb (replace_originals self)).
  { eapply yields_bind_silent with (Q := anything);
      [apply always_emit; exact I
      | intros e; apply raise_keeps_climbing | intros _ _].
    eapply yields_bind_silent with (Q := anything);
      [apply always_cleanup_dir; [exact silent_status | exact silent_called]
      | intros e; apply raise_keeps_climbing | intros _ _].
    eapply yields_bind_silent with (Q := anything);
      [apply always_call; [exact I | intros; exact I]
      | intros e; apply raise_keeps_climbing | intros now _].
    apply yields_ret. apply completed_keeps_level. }
  eapply yields_bind; [apply yields_convert_images; exact Hp | |].
  { intros e vs ss H. exact H. }
  intros [[acc p'] |] vs ss Hloop.
  2: { apply yields_ret. rewrite !app_nil_r. exact Hloop. }
  destruct Hloop as (Hp' & Hclimb & ->). cbn [snd] in *.
  eapply yields_weaken with (R := loop_progress T p' snd).
  2: { intros r vs2 ss2 H. cbn [app]. apply loop_after_prefix with (p' := p'); assumption. }
  assert (Hp'0 : 0 <= p') by lia.
  destruct (replace_originals self) eqn:Hreplace.
  - eapply yields_ext; [intros w; apply bind_assoc |].
    eapply yields_bind_silent with (Q := anything);
      [apply always_replace_originals; [exact silent_status | exact silent_called]
      | intros e; apply raise_keeps_climbing | intros errors _].
    eapply yields_ext; [intros w; apply bind_ret_l |]. cbv beta iota.
    apply yields_seal_folder with
      (seal := fun now =>
         FolderSummary.make _ _ _ _ _ _ _ _ (Float64.float_sub now folder_start)).
    exact Hp'0.
  - eapply yields_ext; [intros w; apply bind_assoc |].
    eapply yields_bind_silent with (Q := anything);
      [apply always_create_archive;
       [exact silent_status | exact silent_called
       | intros _; split; intros; exact I | exact Hreplace]
      | intros e; apply raise_keeps_climbing | ].
    intros [[archive_path archive_size] archive_errors] _.
    eapply yields_ext; [intros w; apply bind_ret_l |]. cbv beta iota.
    apply yields_seal_folder with
      (seal := fun now =>
         FolderSummary.make _ _ _ _ _ _ _ _ (Float64.float_sub now folder_start)).
    exact Hp'0.
Qed.

Lemma yields_process_batches (run_start : Q) (tc : Z) (batches : list FolderBatch.t) :
  forall fs p,
    0 <= p ->
    yields (process_batches self run_start T tc batches fs p) (loop_progress T p snd).
Proof.
  induction batches as [| batch rest IH]; intros fs p Hp; cbn [process_batches].
  - apply yields_ret. apply completed_keeps_level.
  - eapply yields_bind; [apply yields_process_batch; exact Hp | |].
    { intros e vs ss H. exact H. }
    intros [[fs' p'] |] vs ss Hloop.
    2: { apply yields_ret. rewrite !app_nil_r. exact Hloop. }
    destruct Hloop as (Hp' & Hclimb & ->). cbn [snd] in *.
    eapply yields_weaken; [apply IH; lia |].
    intros r vs2 ss2 H. cbn [app]. apply loop_after_prefix with (p' := p'); assumption.
Qed.

End ProgressOfLoops.

Section ProgressOfRun.

Context {W : Type} {os : OS W}.
Variable self : Worker.

Lemma ends_without_progress (fs : list FolderSummary.t) (run_start : Q)
    (twu p ec : Z) (cancelled : bool) :
  always
    (bind (_build_run_summary fs run_start twu p ec cancelled)
          (fun summary => bind (emit (SummaryReady summary)) (fun _ => emit Finished)))
    no_progress anything.
Proof.
  eapply always_bind; [apply always_build_run_summary; exact (@quiet_called) |].
  intros s _. repeat (always_step; try exact I).
Qed.

Lemma yields_run :
  yields (run self)
    (fun _ vs _ => Forall (fun v => v <= 100) vs /\ exists lo, ascending_from lo vs).
Proof.
  assert (Hnone : Forall (fun v => v <= 100) [] /\ exists lo, ascending_from lo [])
    by (split; [constructor | exists 0; exact I]).
  unfold run.
  eapply yields_bind_silent with (Q := anything);
    [apply always_call; [exact I | intros; exact I]
    | intros e; exact Hnone | intros run_start _].
  eapply yields_bind_silent with (Q := anything);
    [apply always_encoder_available; [exact (@silent_status) | exact (@silent_called)]
    | intros e; exact Hnone | intros available _].
  destruct available; cbn [negb].
  2: { eapply yields_no_progress; [apply ends_without_progress | |];
         intros; exact Hnone. }
  eapply yields_bind_silent;
    [apply always_prepare_batches; [exact (@silent_status) | exact (@silent_called)]
    | intros e; exact Hnone | ].
  intros [[batches tc] tf] _.
  destruct (tc =? 0).
  { eapply yields_no_progress with (Q := anything);
      [always_step; [exact I | exact I |]; apply ends_without_progress | |];
      intros; exact Hnone. }
  eapply yields_bind;
    [apply yields_process_batches with (p := 0); lia | |].
  - intros e vs ss (_ & Hasc & Hall). split; [exact Hall | eauto].
  - intros [[fs p] |] vs ss Hloop.
    + destruct Hloop as (_ & (_ & Hasc & Hall) & _).
      assert (Hcap : Forall (fun v => v <= 100) vs).
      { eapply Forall_impl; [| exact Hall]. cbn. intros v Hv.
        pose proof (level_le_100 p (work_units tf tc)). lia. }
      intros w. unfold _build_run_summary. run_command.
      split.
      * apply Forall_app. split; [exact Hcap | constructor; [cbn; lia | constructor]].
      * exists (level 0 (work_units tf tc)).
        apply ascending_from_app with (mid := 100);
          [exact Hasc | exact Hcap | apply level_le_100 | cbn; lia].
    + destruct Hloop as (_ & Hasc & Hall).
      apply yields_ret. rewrite app_nil_r. split; [exact Hall | eauto].
Qed.

(** C2: in every run, whatever the environment does, the percentages sent
    on the progress signal never decrease from the first to the last, and
    each is at most 100. *)
Theorem progress_never_decreases (w : W) :
  StronglySorted Z.le (progress_values (trace_of (run self w)))
  /\ Forall (fun v => v <= 100) (progress_values (trace_of (run self w))).
Proof.
  destruct (yields_run w) as [Hcap [lo Hasc]].
  split; [apply (ascending_from_sorted _ _ Hasc) | exact Hcap].
Qed.

End ProgressOfRun.

(** ** C8: the progress reporter *)

(** C8, as stated, fails for counts beyond the range of a double: with
    [processed = 2^1024] and [total = 1] the division [processed / total]
    raises [OverflowError] and nothing is sent. *)
Lemma huge_count_sends_nothing :
  0 < 1 /\ 0 <= 2 ^ 1024 /\ ~ reports_percentage (2 ^ 1024) 1 quiet_world.
Proof.
  split; [lia |]. split; [lia |].
  intros [v [H _]]. vm_compute in H. discriminate.
Qed.

Section ProgressReporter.

Context {W : Type}.

(** C8 (amended): what the reporter does is a function of [(processed,
    total)] alone.  For [total <= 0] it sends nothing.  For [total > 0]
    and [0 <= processed <= 2^1017 * total] (the range in which neither the
    float division nor the product by 100 overflows) it sends exactly one
    integer percentage, [min(100, int((processed / total) * 100))], which
    lies in [0, 100] even when [processed] exceeds [total]. *)
Theorem emit_progress_sends_capped_percentage (processed total : Z) (w : W) :
  (total <= 0 -> _emit_progress processed total w = (Done tt, w, []))
  /\ (0 < total -> 0 <= processed <= 2 ^ 1017 * total ->
      _emit_progress processed total w
        = (Done tt, w, [Progress (capped processed total)])
      /\ 0 <= capped processed total <= 100).
Proof.
  unfold _emit_progress. split.
  - intros Hle. destruct (Z.leb_spec total 0); [reflexivity | lia].
  - intros Hpos [H0 Hmax]. destruct (Z.leb_spec total 0); [lia |].
    pose proof (PercentageFacts.percentage_of_defined H0 Hmax Hpos) as Hdef.
    pose proof (PercentageFacts.percentage_of_nonneg H0 Hpos Hdef) as Hnonneg.
    unfold capped, bind, lift. rewrite Hdef. cbn. split; [reflexivity | lia].
Qed.

End ProgressReporter.

Lemma emit_progress_sends_capped_percentage_witness :
  (0 < 100 /\ 0 <= 29 <= 2 ^ 1017 * 100)
  /\ _emit_progress 29 100 quiet_world = (Done tt, quiet_world, [Progress 28])
  /\ _emit_progress 7 0 quiet_world = (Done tt, quiet_world, []).
Proof.
  destruct (emit_progress_sends_capped_percentage 29 100 quiet_world) as [_ Hpos].
  destruct (emit_progress_sends_capped_percentage 7 0 quiet_world) as [Hzero _].
  split; [lia |]. split.
  - destruct Hpos as [Hsent _]; [lia | lia |]. exact Hsent.
  - apply Hzero. lia.
Defined.

(** ** C9: total work units *)

Lemma sum_of_from (A : Type) (f : A -> Z) (xs : list A) (a : Z) :
  fold_left (fun acc x => acc + f x) xs a = a + sum_of f xs.
Proof.
  unfold sum_of. revert a. induction xs as [| x xs IH]; intros a; cbn; [lia |].
  rewrite IH, (IH (f x)). lia.
Qed.

Lemma sum_of_cons (A : Type) (f : A -> Z) (x : A) (xs : list A) :
  sum_of f (x :: xs) = f x + sum_of f xs.
Proof. unfold sum_of at 1. cbn. apply sum_of_from. Qed.

Lemma len_filter_le (A : Type) (f : A -> bool) (xs : list A) :
  0 <= len (filter f xs) <= len xs.
Proof.
  unfold len. induction xs as [| x xs IH]; cbn; [lia |].
  destruct (f x); cbn [length]; lia.
Qed.

Lemma scanned_counts (self : Worker) (b : FolderBatch.t) :
  scanned self b ->
  incl (FolderBatch.convertible_images b) (FolderBatch.all_images b)
  /\ 0 <= convertible_count b <= file_count b.
Proof.
  intros (_ & Hconv & _). unfold convertible_count, file_count. rewrite Hconv.
  split; [apply incl_filter | apply len_filter_le].
Qed.

Lemma scanned_totals (self : Worker) (batches : list FolderBatch.t) :
  Forall (scanned self) batches ->
  0 <= sum_of convertible_count batches <= sum_of file_count batches.
Proof.
  induction 1 as [| b batches Hb _ IH]; [cbn; lia |].
  rewrite !sum_of_cons. destruct (scanned_counts Hb) as [_ Hc]. lia.
Qed.

Section WorkUnits.

Context {W : Type} {os : OS W}.

(** C9: after scanning, the total work units are the total file count when
    that count is not zero and the convertible count otherwise; every
    batch's convertible images are among its eligible images, so the
    convertible count never exceeds the file count and the fallback can
    only yield zero. *)
Theorem work_units_after_scan (self : Worker) (w : W)
    (batches : list FolderBatch.t) (total_convertible total_files : Z) :
  result_of (_prepare_batches self w) = Done (batches, total_convertible, total_files) ->
  total_files = sum_of file_count batches
  /\ total_convertible = sum_of convertible_count batches
  /\ Forall (fun b => incl (FolderBatch.convertible_images b)
                           (FolderBatch.all_images b)) batches
  /\ 0 <= total_convertible <= total_files
  /\ (total_files <> 0 -> work_units total_files total_convertible = total_files)
  /\ (total_files = 0 ->
      work_units total_files total_convertible = total_convertible
      /\ total_convertible = 0).
Proof.
  intros Hscan.
  destruct (@always_prepare_batches _ _ self anything
              ltac:(intros; exact I) ltac:(intros; exact I) w) as [_ Hpost].
  destruct (Hpost _ Hscan) as (Hall & Htc & Htf). cbn [fst snd] in Hall, Htc, Htf.
  pose proof (scanned_totals Hall) as Hle.
  split; [exact Htf |]. split; [exact Htc |]. split.
  { eapply Forall_impl; [| exact Hall]. intros b Hb. apply (scanned_counts Hb). }
  split; [lia |]. unfold work_units. split.
  - intros Hne. destruct (Z.gtb_spec total_files 0); lia.
  - intros Hzero. destruct (Z.gtb_spec total_files 0); lia.
Qed.

End WorkUnits.

Lemma work_units_after_scan_witness :
  result_of (_prepare_batches max_quality_worker quiet_world)
    = Done ([batch_a; batch_b], 2, 3)
  /\ work_units 3 2 = 3.
Proof.
  assert (Hscan : result_of (_prepare_batches max_quality_worker quiet_world)
                  = Done ([batch_a; batch_b], 2, 3)) by reflexivity.
  split; [exact Hscan |].
  destruct (work_units_after_scan max_quality_worker quiet_world Hscan)
    as (_ & _ & _ & _ & Hnonzero & _).
  apply Hnonzero. discriminate.
Defined.

(** ** Running a command along a known path *)

Section Along.

Context {W : Type} {os : OS W}.

Lemma triple_eta (A : Type) (x : outcome A * W * list Event) :
  x = (result_of x, world_of x, trace_of x).
Proof. destruct x as [[r w] t]. reflexivity. Qed.

Lemma bind_done (A B : Type) (m : M W A) (k : A -> M W B) (w : W) (a : A) :
  result_of (m w) = Done a ->
  bind m k w = (result_of (k a (world_of (m w))),
                world_of (k a (world_of (m w))),
                trace_of (m w) ++ trace_of (k a (world_of (m w)))).
Proof.
  unfold bind. destruct (m w) as [[r w1] t1]. cbn. intros ->.
  destruct (k a w1) as [[r2 w2] t2]. reflexivity.
Qed.

Lemma call_result (A : Type) (c : OsCall) (op : W -> A * W) (w : W) :
  result_of (call c op w) = Done (fst (op w)).
Proof. unfold call. destruct (op w). reflexivity. Qed.

Lemma call_world (A : Type) (c : OsCall) (op : W -> A * W) (w : W) :
  world_of (call c op w) = snd (op w).
Proof. unfold call. destruct (op w). reflexivity. Qed.

Lemma call_trace (A : Type) (c : OsCall) (op : W -> A * W) (w : W) :
  trace_of (call c op w) = [Called c].
Proof. unfold call. destruct (op w). reflexivity. Qed.

Lemma cleanup_returns (directory : Path) (w : W) :
  result_of (_cleanup_dir directory w) = Done tt.
Proof.
  unfold _cleanup_dir. run_command. destruct b; cbn; [| reflexivity].
  run_command. destruct r; reflexivity.
Qed.

End Along.

(** Follows [bind] when the first command is known to return. *)
Ltac along H := rewrite (bind_done _ _ _ H); cbn [result_of world_of trace_of fst snd].

Ltac along_call :=
  match goal with
  | |- context [bind (call ?c ?op) ?k ?w] =>
      rewrite (bind_done (call c op) k w (call_result c op w));
      rewrite ?call_world, ?call_trace; cbn [result_of world_of trace_of fst snd]
  end.

Ltac along_emit :=
  match goal with
  | |- context [bind (emit ?e) ?k ?w] =>
      rewrite (bind_done (emit e) k w (a := tt) eq_refl);
      cbn [result_of world_of trace_of fst snd emit]
  end.

(** ** C10: the note on a folder with nothing to convert *)

(** C10, as stated, fails when the temporary output directory cannot be
    prepared: [/lib/b] has nothing to convert and replace mode is off, yet
    its entry holds the preparation error and not the note. *)
Lemma unprepared_folder_gets_no_note :
  FolderBatch.convertible_images batch_b = []
  /\ replace_originals max_quality_worker = false
  /\ exists s entry,
       summaries_of (trace_of (run max_quality_worker locked_world)) = [s]
       /\ nth_error (folders_of s) 1 = Some entry
       /\ py_get "folder" entry = Some (VStr (PyPath.str (FolderBatch.folder batch_b)))
       /\ ~ notes_skip entry batch_b.
Proof.
  split; [reflexivity |]. split; [reflexivity |].
  eexists. eexists. split; [vm_compute; reflexivity |].
  split; [vm_compute; reflexivity |]. split; [reflexivity |].
  intros [errs [Herrs Hin]]. vm_compute in Herrs. injection Herrs as <-.
  destruct Hin as [H | []]. vm_compute in H. discriminate.
Qed.

Lemma error_total_counts fs (s : FolderSummary.t) more d twu p ec c :
  totals_get "errors" (summary_dict (fs ++ s :: more) d twu p ec c)
  = Some (VInt (sum_of error_count fs + error_count s + sum_of error_count more)).
Proof.
  cbn. do 2 f_equal. fold error_count.
  change (fun s0 : FolderSummary.t => len (FolderSummary.errors s0)) with error_count.
  unfold sum_of at 1. rewrite fold_left_app. cbn. rewrite sum_of_from.
  fold (sum_of error_count fs). lia.
Qed.

Section SkipNote.

Context {W : Type} {os : OS W}.

(** C10 (amended): when the folder loop reaches a batch that has no
    convertible images, replace mode is off, no interruption is pending
    and the batch's temporary output directory has been prepared, the
    iteration seals a summary with [converted = 0] whose errors list is
    exactly the note "No images to convert in <folder>, skipping."; the
    note therefore appears among the entry's error strings and adds one to
    [totals.errors] of any run summary built from a list that holds the
    entry, although nothing failed. *)
Theorem empty_folder_is_noted_as_error (self : Worker) (started : Q)
    (total_work_units total_convertible : Z) (batch : FolderBatch.t)
    (fs : list FolderSummary.t) (p : Z) (outdir : Path) (w : W) :
  replace_originals self = false ->
  FolderBatch.convertible_images batch = [] ->
  fst (isInterruptionRequested w) = false ->
  result_of (_prepare_output_dir (FolderBatch.folder batch)
               (snd (perf_counter (snd (isInterruptionRequested w)))))
    = Done (Ok outdir) ->
  exists s,
    result_of (process_batch self started total_work_units total_convertible
                 batch fs p w) = Done (Completed (fs ++ [s], p))
    /\ FolderSummary.folder s = PyPath.str (FolderBatch.folder batch)
    /\ FolderSummary.converted s = 0
    /\ FolderSummary.errors s = [skip_note batch]
    /\ notes_skip (asdict s) batch
    /\ forall more d twu p' ec c,
         totals_get "errors" (summary_dict (fs ++ s :: more) d twu p' ec c)
         = Some (VInt (sum_of error_count fs + 1 + sum_of error_count more)).
Proof.
  intros Hreplace Hnone Hpoll Hprepared.
  unfold process_batch. along_call. rewrite Hpoll.
  along_call. along_emit. along Hprepared.
  rewrite Hnone, Hreplace. cbn [negb andb].
  along_emit. along (cleanup_returns outdir
    (world_of (_prepare_output_dir (FolderBatch.folder batch)
                 (snd (perf_counter (snd (isInterruptionRequested w))))))).
  along_call. cbn [ret result_of fst].
  eexists. split; [reflexivity |].
  split; [reflexivity |]. split; [reflexivity |]. split; [reflexivity |].
  split.
  - eexists. split; [reflexivity |]. left. reflexivity.
  - intros. rewrite error_total_counts. reflexivity.
Qed.

End SkipNote.

Lemma empty_folder_is_noted_as_error_witness :
  (replace_originals max_quality_worker = false
   /\ FolderBatch.convertible_images batch_b = []
   /\ fst (isInterruptionRequested quiet_world) = false)
  /\ exists s,
    result_of (process_batch max_quality_worker 0 3 2 batch_b [] 2 quiet_world)
      = Done (Completed ([] ++ [s], 2))
    /\ FolderSummary.errors s = ["No images to convert in b, skipping."].
Proof.
  destruct (@empty_folder_is_noted_as_error Sim.t Sim.os max_quality_worker 0 3 2 batch_b [] 2
              (PyPath.child dir_b OUTPUT_DIR_NAME) quiet_world
              eq_refl eq_refl eq_refl eq_refl)
    as (s & Hresult & _ & _ & Herrors & _).
  split; [repeat split |].
  exists s. split; [exact Hresult | exact Herrors].
Defined.

(** ** C3: cancellation between two folders *)

Section Cancellation.

Context {W : Type} {os : OS W}.
Variable self : Worker.

Lemma bind_ext (A B : Type) (m : M W A) (k k' : A -> M W B) (w : W) :
  (forall a w', k a w' = k' a w') -> bind m k w = bind m k' w.
Proof.
  intros E. unfold bind. destruct (m w) as [[[a | e] w1] t1]; [| reflexivity].
  rewrite E. reflexivity.
Qed.

Lemma bind_cong (A B : Type) (m m' : M W A) (k : A -> M W B) (w : W) :
  m w = m' w -> bind m k w = bind m' k w.
Proof. intros E. unfold bind. rewrite E. reflexivity. Qed.

(** The folder loop over [pre ++ rest] is the loop over [pre] followed, if
    it was not left, by the loop over [rest]. *)
Lemma process_batches_app (started : Q) (twu tc : Z) (pre rest : list FolderBatch.t) :
  forall fs p w,
    process_batches self started twu tc (pre ++ rest) fs p w
    = bind (process_batches self started twu tc pre fs p)
           (and_then self started twu tc rest) w.
Proof.
  induction pre as [| batch pre IH]; intros fs p w; cbn [app process_batches].
  - rewrite bind_ret_l. reflexivity.
  - rewrite bind_assoc. apply bind_ext. intros [[fs' p'] |] w'.
    + apply IH.
    + rewrite bind_ret_l. reflexivity.
Qed.

Lemma encoder_check_sends_no_summary (w : W) :
  summaries_of (trace_of (encoder_check w)) = [].
Proof.
  apply silent_summaries. unfold encoder_check.
  apply (@always_encoder_available _ _ silent silent_status silent_called).
Qed.

Lemma scan_sends_no_summary (w : W) :
  summaries_of (trace_of (scan self w)) = [].
Proof.
  apply silent_summaries. unfold scan.
  apply (@always_prepare_batches _ _ self silent silent_status silent_called).
Qed.

Lemma completed_loop_sends_no_summary (started : Q) (twu tc : Z)
    (batches : list FolderBatch.t) (fs fs' : list FolderSummary.t) (p p' : Z) (w : W) :
  0 <= p ->
  result_of (process_batches self started twu tc batches fs p w)
    = Done (Completed (fs', p')) ->
  summaries_of (trace_of (process_batches self started twu tc batches fs p w)) = [].
Proof.
  intros Hp Hdone.
  pose proof (yields_process_batches self twu started tc batches fs Hp w) as H.
  rewrite Hdone in H. destruct H as (_ & _ & Hss). exact Hss.
Qed.

Lemma completed_loop_appends (started : Q) (twu tc : Z)
    (batches : list FolderBatch.t) (fs' : list FolderSummary.t) (p p' : Z) (w : W) :
  result_of (process_batches self started twu tc batches [] p w)
    = Done (Completed (fs', p')) ->
  map FolderSummary.folder fs' = map folder_path batches.
Proof.
  intros Hdone.
  destruct (@always_process_batches _ _ self anything anything
              ltac:(intros; exact I) ltac:(intros; exact I)
              ltac:(intros; split; intros; exact I) ltac:(intros; exact I) I
              ltac:(intros; exact I) ltac:(intros; exact I)
              started twu tc batches [] p ltac:(constructor) w) as [_ Hpost].
  destruct (Hpost _ Hdone) as (new & -> & Hfolders & _). exact Hfolders.
Qed.


End Cancellation.


(** ** C6: a folder in which nothing fails *)

Section SurelyRules.

Context {W : Type} {os : OS W}.

Lemma surely_ret (A : Type) (Q : A -> Prop) (a : A) :
  Q a -> surely (W := W) (ret a) Q.
Proof. intros H w. exists a. split; [reflexivity | exact H]. Qed.

Lemma surely_bind (A B : Type) (m : M W A) (k : A -> M W B)
    (Q1 : A -> Prop) (Q : B -> Prop) :
  surely m Q1 -> (forall a, Q1 a -> surely (k a) Q) -> surely (bind m k) Q.
Proof.
  intros Hm Hk w. destruct (Hm w) as (a & Ha & HQ1).
  rewrite (bind_done m k w Ha). cbn [result_of fst]. apply (Hk a HQ1).
Qed.

Lemma surely_call (A : Type) (Q : A -> Prop) (c : OsCall) (op : W -> A * W) :
  (forall w, Q (fst (op w))) -> surely (call c op) Q.
Proof.
  intros H w. exists (fst (op w)). split; [apply call_result | apply H].
Qed.

Lemma surely_emit (Q : unit -> Prop) (e : Event) :
  Q tt -> surely (W := W) (emit e) Q.
Proof. intros H w. exists tt. split; [reflexivity | exact H]. Qed.

Lemma surely_weaken (A : Type) (m : M W A) (Q Q' : A -> Prop) :
  surely m Q -> (forall a, Q a -> Q' a) -> surely m Q'.
Proof.
  intros Hm Himp w. destruct (Hm w) as (a & Ha & HQ). exists a. auto.
Qed.

Lemma surely_ext (A : Type) (m m' : M W A) (Q : A -> Prop) :
  (forall w, m w = m' w) -> surely m' Q -> surely m Q.
Proof. intros E H w. rewrite E. apply H. Qed.

Lemma surely_bind_ret (A B : Type) (a : A) (k : A -> M W B) (Q : B -> Prop) :
  surely (k a) Q -> surely (bind (ret a) k) Q.
Proof. apply surely_ext. apply bind_ret_l. Qed.

Lemma surely_bind_assoc (A B C : Type) (m : M W A) (k1 : A -> M W B)
    (k2 : B -> M W C) (Q : C -> Prop) :
  surely (bind m (fun a => bind (k1 a) k2)) Q -> surely (bind (bind m k1) k2) Q.
Proof. apply surely_ext. apply bind_assoc. Qed.

(** A step that surely returns and sends neither percentages nor
    summaries. *)
Lemma yields_bind_sure (A B : Type) (m : M W A) (k : A -> M W B)
    (Q0 Q : A -> Prop) (R : outcome B -> list Z -> list pyval -> Prop) :
  always m silent Q0 -> surely m Q ->
  (forall a, Q a -> yields (k a) R) ->
  yields (bind m k) R.
Proof.
  intros Hsilent Hsure Hk w. destruct (Hsure w) as (a & Ha & HQ).
  destruct (Hsilent w) as [Hquiet _].
  rewrite (bind_done m k w Ha). cbn [result_of trace_of fst snd].
  rewrite progress_values_app, summaries_of_app.
  rewrite (no_progress_values (silent_no_progress Hquiet)).
  rewrite (silent_summaries Hquiet). apply (Hk a HQ).
Qed.

End SurelyRules.

Ltac sure_step :=
  cbv beta iota zeta;
  lazymatch goal with
  | |- surely (ret _) _ => apply surely_ret
  | |- surely (emit _) _ => apply surely_emit
  | |- surely (call _ _) _ => apply surely_call
  | |- surely (bind (call _ _) _) _ =>
      eapply surely_bind; [apply surely_call with (Q := anything); intros; exact I
                          | intros ? _]
  | |- surely (bind (emit _) _) _ =>
      eapply surely_bind; [apply surely_emit with (Q := anything); exact I
                          | intros ? _]
  | |- surely (bind (ret _) _) _ => apply surely_bind_ret
  | |- surely (bind (bind _ _) _) _ => apply surely_bind_assoc
  end.

Section Cooperative.

Context {W : Type} {os : OS W}.
Variable self : Worker.
Hypothesis coop : cooperative os.

Lemma surely_cleanup_dir (directory : Path) : surely (_cleanup_dir directory) anything.
Proof.
  intros w. exists tt. split; [apply cleanup_returns | exact I].
Qed.

Lemma surely_prepare_output_dir (folder : Path) :
  surely (_prepare_output_dir folder)
    (fun r => r = Ok (PyPath.child folder OUTPUT_DIR_NAME)).
Proof.
  unfold _prepare_output_dir. sure_step. destruct a.
  - eapply surely_bind;
      [apply surely_call with (Q := fun r => r = Ok tt); intros; apply (rmtree_succeeds coop) |].
    intros r ->.
    eapply surely_bind;
      [apply surely_call with (Q := fun r => r = Ok tt); intros; apply (mkdir_succeeds coop) |].
    intros r ->. apply surely_ret. reflexivity.
  - sure_step.
    eapply surely_bind;
      [apply surely_call with (Q := fun r => r = Ok tt); intros; apply (mkdir_succeeds coop) |].
    intros r ->. apply surely_ret. reflexivity.
Qed.

Lemma surely_convert_image (source outdir : Path) :
  surely (_convert_image self source outdir)
    (fun r => exists o c, r = (true, o, c, None)).
Proof.
  unfold _convert_image. sure_step.
  eapply surely_bind;
    [apply surely_call with (Q := fun r => exists err, r = ProcExit 0 err);
     intros; apply (encoder_succeeds coop) |].
  intros r [err ->]. cbn [Z.eqb negb]. cbv beta iota zeta. sure_step. destruct a0.
  - repeat sure_step. do 2 eexists. reflexivity.
  - repeat sure_step. do 2 eexists. reflexivity.
Qed.

Lemma surely_delete_originals (originals : list Path) :
  forall errors, surely (delete_originals originals errors) (eq errors).
Proof.
  induction originals as [| original rest IH]; intros errors; cbn [delete_originals].
  - apply surely_ret. reflexivity.
  - sure_step. destruct a; cbn [negb]; [| apply IH].
    eapply surely_bind;
      [apply surely_call with (Q := fun r => r = Ok tt); intros; apply (unlink_succeeds coop) |].
    intros r ->. apply IH.
Qed.

Lemma surely_move_outputs (folder : Path) (outputs : list Path) :
  forall errors, surely (move_outputs folder outputs errors) (eq errors).
Proof.
  induction outputs as [| optimized rest IH]; intros errors; cbn [move_outputs].
  - apply surely_ret. reflexivity.
  - eapply surely_bind;
      [apply surely_call with (Q := fun r => r = Ok tt); intros; apply (move_succeeds coop) |].
    intros r ->. apply IH.
Qed.

Lemma surely_replace_originals (batch : FolderBatch.t) (outdir : Path) :
  surely (_replace_originals batch outdir) (eq []).
Proof.
  unfold _replace_originals, iterdir. sure_step.
  eapply surely_bind; [apply surely_delete_originals | intros errors <-].
  sure_step. sure_step. sure_step.
  eapply surely_bind; [apply surely_move_outputs | intros errors <-].
  eapply surely_bind; [apply surely_cleanup_dir | intros _ _].
  apply surely_ret. reflexivity.
Qed.

Lemma surely_create_archive (batch : FolderBatch.t) (outdir : Path) :
  surely (_create_archive self batch outdir) (fun r => snd r = []).
Proof.
  unfold _create_archive, iterdir. sure_step. sure_step.
  eapply surely_bind with (Q1 := fun r => r = Ok tt).
  { destruct a0; [| apply surely_ret; reflexivity].
    apply surely_call. intros. apply (unlink_succeeds coop). }
  intros removed ->. sure_step. sure_step. sure_step.
  eapply surely_bind;
    [apply surely_call with (Q := fun r => r = Ok tt); intros; apply (zip_succeeds coop) |].
  intros r ->. sure_step. destruct a2.
  - sure_step.
    eapply surely_bind;
      [apply surely_call with (Q := fun r => exists n, r = Ok n); intros;
       apply (stat_succeeds coop) |].
    intros r [n ->]. sure_step.
    eapply surely_bind; [apply surely_cleanup_dir | intros _ _].
    sure_step. apply surely_ret. reflexivity.
  - sure_step.
    eapply surely_bind; [apply surely_cleanup_dir | intros _ _].
    sure_step. apply surely_ret. reflexivity.
Qed.

End Cooperative.

Section CooperativeLoops.

Context {W : Type} {os : OS W}.
Variable self : Worker.
Hypothesis coop : cooperative os.
Variable T : Z.
Hypothesis T_positive : 0 < T.

Ltac silent_call :=
  eapply yields_bind_sure with (Q0 := anything) (Q := anything);
  [apply always_call; [exact I | intros; exact I]
  | apply surely_call; intros; exact I | intros ? _].

Ltac silent_emit :=
  eapply yields_bind_sure with (Q0 := anything) (Q := anything);
  [apply always_emit; exact I | apply surely_emit; exact I | intros _ _].

Ltac not_interrupted :=
  eapply yields_bind_sure with (Q0 := anything) (Q := fun b => b = false);
  [apply always_call; [exact I | intros; exact I]
  | apply surely_call; intros; apply (never_interrupted coop) | intros ? ->].

Lemma yields_emit_progress_in_range (p : Z) :
  0 <= p <= T ->
  yields (W := W) (_emit_progress p T) (fun r _ ss => r = Done tt /\ ss = []).
Proof.
  intros [H0 HT] w. unfold _emit_progress.
  destruct (Z.leb_spec T 0); [lia |].
  assert (Hmax : p <= 2 ^ 1017 * T) by nia.
  unfold bind, lift.
  rewrite (PercentageFacts.percentage_of_defined H0 Hmax T_positive). cbn. auto.
Qed.

Lemma yields_convert_images_coop (fs : list FolderSummary.t) (started : Q) (tc : Z)
    (batch : FolderBatch.t) (outdir : Path) (sources : list Path) :
  forall acc p,
    0 <= p -> p + len sources <= T ->
    yields (convert_images self fs started T tc batch outdir sources acc p)
      (fun r _ ss => all_converted acc p (len sources) r ss).
Proof.
  induction sources as [| source rest IH]; intros acc p Hp HT; cbn [convert_images].
  - apply yields_ret. split; [reflexivity |]. exists acc, p.
    unfold len. cbn. repeat split; lia.
  - assert (Hlen : len (source :: rest) = len rest + 1)
      by (unfold len; cbn [length]; lia).
    rewrite Hlen in *. assert (0 <= len rest) by (unfold len; lia).
    not_interrupted. silent_emit.
    eapply yields_bind_sure;
      [apply always_convert_image; [exact silent_status | exact silent_called]
      | apply surely_convert_image; exact coop | ].
    intros r (o & c & ->). cbv beta iota.
    eapply yields_bind; [apply yields_emit_progress_in_range; lia | |].
    + intros e vs ss [E _]. discriminate.
    + intros [] vs ss [_ ->].
      eapply yields_weaken; [apply IH; lia |].
      intros r vs2 ss2 (-> & acc' & p' & -> & -> & Hcount & Herrors).
      split; [reflexivity |]. exists acc', (p + 1 + len rest).
      cbn in Hcount, Herrors. repeat split; [lia | lia | exact Herrors].
Qed.

(** The end of an iteration of the folder loop: the skipped files are
    counted and the folder is sealed. *)
Lemma yields_seal_folder_coop (skipped_units p : Z) (fs : list FolderSummary.t)
    (seal : Q -> FolderSummary.t) :
  0 <= p -> p + skipped_units <= T ->
  yields
    (bind (if skipped_units >? 0
           then bind (_emit_progress (p + skipped_units) T)
                     (fun _ => ret (p + skipped_units))
           else ret p)
          (fun processed_units =>
             bind (call CallPerfCounter perf_counter)
                  (fun now => ret (Completed (fs ++ [seal now], processed_units)))))
    (fun r _ ss =>
       ss = []
       /\ exists now p',
            r = Done (Completed (fs ++ [seal now], p'))
            /\ p <= p' <= p + Z.max 0 skipped_units).
Proof.
  intros Hp HT. destruct (Z.gtb_spec skipped_units 0) as [Hsk | Hsk].
  - eapply yields_ext; [intros w; apply bind_assoc |].
    eapply yields_bind; [apply yields_emit_progress_in_range; lia | |].
    + intros e vs ss [E _]. discriminate.
    + intros [] vs ss [_ ->].
      eapply yields_ext; [intros w; apply bind_ret_l |].
      silent_call. apply yields_ret. split; [reflexivity |].
      eexists _, _. split; [reflexivity | lia].
  - eapply yields_ext; [intros w; apply bind_ret_l |].
    silent_call. apply yields_ret. split; [reflexivity |].
    eexists _, _. split; [reflexivity | lia].
Qed.

Lemma is_nil_len (A : Type) (xs : list A) :
  match xs with [] => true | _ => false end = (len xs =? 0).
Proof. destruct xs; [reflexivity |]. unfold len. cbn [length]. symmetry. apply Z.eqb_neq. lia. Qed.

Lemma yields_process_batch_coop (started : Q) (tc : Z) (batch : FolderBatch.t)
    (fs : list FolderSummary.t) (p : Z) :
  scanned self batch ->
  0 <= p -> p + file_count batch <= T ->
  yields (process_batch self started T tc batch fs p)
    (fun r _ ss => folder_sealed self batch fs p r ss).
Proof.
  intros Hscanned Hp HT.
  destruct (scanned_counts Hscanned) as [_ Hcounts].
  unfold process_batch. not_interrupted. silent_call. silent_emit.
  eapply yields_bind_sure;
    [apply always_prepare_output_dir; exact silent_called
    | apply surely_prepare_output_dir; exact coop | intros r ->].
  cbv beta iota. rewrite is_nil_len. fold (convertible_count batch).
  destruct ((convertible_count batch =? 0) && negb (replace_originals self)) eqn:Hskip.
  { silent_emit.
    eapply yields_bind_sure;
      [apply always_cleanup_dir; [exact silent_status | exact silent_called]
      | apply surely_cleanup_dir | intros _ _].
    silent_call. apply yields_ret. split; [reflexivity |].
    eexists _, p. split; [reflexivity |]. split; [| unfold file_count, len; lia].
    unfold converts_all. cbn [FolderSummary.folder FolderSummary.converted
                               FolderSummary.errors].
    rewrite Hskip. apply andb_prop in Hskip. destruct Hskip as [Hzero _].
    apply Z.eqb_eq in Hzero. rewrite Hzero. repeat split; reflexivity. }
  eapply yields_bind;
    [apply yields_convert_images_coop; [exact Hp | unfold convertible_count, file_count in *; lia] | |].
  { intros e vs ss (_ & acc' & p' & E & _). discriminate. }
  intros step vs ss (-> & acc & p' & [= ->] & -> & Hcount & Herrors).
  cbn in Hcount, Herrors. fold (convertible_count batch) in *.
  assert (Hsealed : forall asz ap errs,
    errs = folder_errors acc ++ [] ->
    yields
      (bind (if len (FolderBatch.all_images batch)
                - len (FolderBatch.convertible_images batch) >? 0
             then bind (_emit_progress
                          (p + convertible_count batch
                           + (len (FolderBatch.all_images batch)
                              - len (FolderBatch.convertible_images batch))) T)
                       (fun _ => ret (p + convertible_count batch
                                      + (len (FolderBatch.all_images batch)
                                         - len (FolderBatch.convertible_images batch))))
             else ret (p + convertible_count batch))
            (fun processed_units =>
               bind (call CallPerfCounter perf_counter)
                    (fun now =>
                       ret (Completed
                              (fs ++ [FolderSummary.make
                                        (PyPath.str (FolderBatch.folder batch))
                                        (converted_count acc)
                                        (len (FolderBatch.skipped_webp batch))
                                        errs
                                        (acc_bytes_original acc)
                                        (acc_bytes_converted acc)
                                        asz ap
                                        (Float64.float_sub now a)],
                               processed_units)))))
      (fun r _ ss2 => folder_sealed self batch fs p r ([] ++ ss2))).
  { intros asz ap errs ->.
    eapply yields_weaken.
    - apply yields_seal_folder_coop with
        (seal := fun now =>
           FolderSummary.make (PyPath.str (FolderBatch.folder batch))
             (converted_count acc) (len (FolderBatch.skipped_webp batch))
             (folder_errors acc ++ []) (acc_bytes_original acc)
             (acc_bytes_converted acc) asz ap (Float64.float_sub now a));
        unfold convertible_count, file_count in *; lia.
    - intros r _ ss2 (-> & now & p'' & -> & Hp'').
      split; [reflexivity |]. eexists _, p''. split; [reflexivity |].
      split; [| unfold convertible_count, file_count in *; lia].
      unfold converts_all. cbn. rewrite Hskip, Hcount, Herrors.
      repeat split; reflexivity || lia. }
  destruct (replace_originals self) eqn:Hreplace.
  - eapply yields_ext; [intros w; apply bind_assoc |].
    eapply yields_bind_sure;
      [apply always_replace_originals; [exact silent_status | exact silent_called]
      | apply surely_replace_originals; exact coop | intros errors <-].
    eapply yields_ext; [intros w; apply bind_ret_l |]. cbv beta iota.
    apply Hsealed. reflexivity.
  - eapply yields_ext; [intros w; apply bind_assoc |].
    eapply yields_bind_sure with (Q := fun r => snd r = []);
      [apply always_create_archive;
       [exact silent_status | exact silent_called
       | intros _; split; intros; exact I | exact Hreplace]
      | apply surely_create_archive; exact coop | ].
    intros [[archive_path archive_size] archive_errors] Hnone. cbn in Hnone. subst.
    eapply yields_ext; [intros w; apply bind_ret_l |]. cbv beta iota.
    apply Hsealed. reflexivity.
Qed.

End CooperativeLoops.

Section CooperativeRun.

Context {W : Type} {os : OS W}.
Variable self : Worker.
Hypothesis coop : cooperative os.

Lemma yields_process_batches_coop (T : Z) (started : Q) (tc : Z)
    (batches : list FolderBatch.t) :
  0 < T ->
  Forall (scanned self) batches ->
  forall fs p,
    0 <= p -> p + sum_of file_count batches <= T ->
    yields (process_batches self started T tc batches fs p)
      (fun r _ ss => folders_sealed self batches fs p r ss).
Proof.
  intros HT Hall. induction Hall as [| batch rest Hbatch Hrest IH];
    intros fs p Hp Hsum; cbn [process_batches].
  - apply yields_ret. split; [reflexivity |]. exists [], p.
    rewrite app_nil_r. repeat split; [constructor | lia | cbn; lia].
  - rewrite sum_of_cons in Hsum.
    pose proof (scanned_totals Hrest) as Htotals.
    destruct (scanned_counts Hbatch) as [_ Hcounts].
    eapply yields_bind;
      [apply yields_process_batch_coop; [exact coop | exact HT | exact Hbatch | exact Hp | lia] | |].
    { intros e vs ss (_ & f & p' & E & _). discriminate. }
    intros step vs ss (-> & f & p' & [= ->] & Hf & Hp').
    eapply yields_weaken; [apply IH; lia |].
    intros r _ ss2 (-> & new & p'' & -> & Hnew & Hp'').
    split; [reflexivity |]. exists (f :: new), p''.
    rewrite <- app_assoc. split; [reflexivity |].
    split; [constructor; assumption | rewrite sum_of_cons; lia].
Qed.


End CooperativeRun.

Lemma calm_is_cooperative : cooperative Calm.os.
Proof.
  constructor; intros; cbn; try reflexivity; eexists; reflexivity.
Qed.



(* ===================================================================== *)
(** * Further properties of the code *)
(* ===================================================================== *)

(** ** Rules for [returns] and [ends_with] *)

Section ReturnsRules.

Context {W : Type}.
Variable P : Event -> Prop.

Lemma returns_ret (A : Type) (Q : A -> Prop) (a : A) :
  Q a -> returns (W := W) (ret a) P Q.
Proof. intros HQ w. split; [constructor | exists a; split; [reflexivity | exact HQ]]. Qed.

Lemma returns_bind (A B : Type) (m : M W A) (k : A -> M W B)
    (Q1 : A -> Prop) (Q : B -> Prop) :
  returns m P Q1 -> (forall a, Q1 a -> returns (k a) P Q) -> returns (bind m k) P Q.
Proof.
  intros Hm Hk w. destruct (Hm w) as [Ht (a & Ha & HQ1)].
  rewrite (bind_done m k w Ha). cbn [result_of trace_of fst snd].
  destruct (Hk a HQ1 (world_of (m w))) as [Ht2 Hr].
  split; [apply Forall_app; split; assumption | exact Hr].
Qed.

Lemma returns_emit (Q : unit -> Prop) (e : Event) :
  P e -> Q tt -> returns (W := W) (emit e) P Q.
Proof.
  intros HP HQ w. split; [repeat constructor; exact HP |].
  exists tt. split; [reflexivity | exact HQ].
Qed.

Lemma returns_call (A : Type) (Q : A -> Prop) (c : OsCall) (op : W -> A * W) :
  P (Called c) -> (forall w, Q (fst (op w))) -> returns (call c op) P Q.
Proof.
  intros HP HQ w. rewrite call_trace, call_result.
  split; [repeat constructor; exact HP |].
  exists (fst (op w)). split; [reflexivity | apply HQ].
Qed.

Lemma returns_weaken (A : Type) (m : M W A) (P' : Event -> Prop) (Q Q' : A -> Prop) :
  returns m P' Q -> (forall e, P' e -> P e) -> (forall a, Q a -> Q' a) ->
  returns m P Q'.
Proof.
  intros Hm HP HQ w. destruct (Hm w) as [Ht (a & Ha & Hq)].
  split; [eapply Forall_impl; [exact HP | exact Ht] |].
  exists a. split; [exact Ha | apply HQ, Hq].
Qed.

Lemma returns_ext (A : Type) (m m' : M W A) (Q : A -> Prop) :
  (forall w, m w = m' w) -> returns m' P Q -> returns m P Q.
Proof. intros E H w. rewrite E. apply H. Qed.

Lemma returns_bind_ret (A B : Type) (a : A) (k : A -> M W B) (Q : B -> Prop) :
  returns (k a) P Q -> returns (bind (ret a) k) P Q.
Proof. apply returns_ext. apply bind_ret_l. Qed.

Lemma returns_bind_assoc (A B C : Type) (m : M W A) (k1 : A -> M W B)
    (k2 : B -> M W C) (Q : C -> Prop) :
  returns (bind m (fun a => bind (k1 a) k2)) P Q -> returns (bind (bind m k1) k2) P Q.
Proof. apply returns_ext. apply bind_assoc. Qed.

Lemma returns_always (A : Type) (m : M W A) (Q : A -> Prop) :
  returns m P Q -> always m P Q.
Proof.
  intros Hm w. destruct (Hm w) as [Ht (a & Ha & HQ)]. split; [exact Ht |].
  intros b Hb. rewrite Ha in Hb. injection Hb as <-. exact HQ.
Qed.

Lemma returns_surely (A : Type) (m : M W A) (Q : A -> Prop) :
  returns m P Q -> surely m Q.
Proof. intros Hm w. destruct (Hm w) as [_ Hr]. exact Hr. Qed.

Lemma returns_surely_any (A : Type) (m : M W A) (Q : A -> Prop) :
  returns m P Q -> surely m anything.
Proof.
  intros Hm w. destruct (Hm w) as [_ (a & Ha & _)]. exists a. split; [exact Ha | exact I].
Qed.

End ReturnsRules.

Ltac returns_step :=
  cbv beta iota zeta;
  lazymatch goal with
  | |- returns (ret _) _ _ => apply returns_ret
  | |- returns (emit _) _ _ => apply returns_emit
  | |- returns (call _ _) _ _ => apply returns_call
  | |- returns (bind (call _ _) _) _ _ =>
      eapply returns_bind; [apply returns_call with (Q := anything) | intros ? _]
  | |- returns (bind (emit _) _) _ _ =>
      eapply returns_bind; [apply returns_emit with (Q := anything) | intros ? _]
  | |- returns (bind (ret _) _) _ _ => apply returns_bind_ret
  | |- returns (bind (bind _ _) _) _ _ => apply returns_bind_assoc
  | |- returns (bind (if ?b then _ else _) _) _ _ => destruct b
  | |- returns (bind (match ?x with _ => _ end) _) _ _ => destruct x
  | |- returns (if ?b then _ else _) _ _ => destruct b
  | |- returns (match ?x with _ => _ end) _ _ => destruct x
  end.

Section EndsRules.

Context {W : Type}.

Lemma ends_ret (A : Type) (R : outcome A -> list Event -> Prop) (a : A) :
  R (Done a) [] -> ends_with (W := W) (ret a) R.
Proof. intros H w. exact H. Qed.

Lemma ends_emit (R : outcome unit -> list Event -> Prop) (e : Event) :
  R (Done tt) [e] -> ends_with (W := W) (emit e) R.
Proof. intros H w. exact H. Qed.

Lemma ends_call (A : Type) (R : outcome A -> list Event -> Prop) (c : OsCall)
    (op : W -> A * W) :
  (forall a, R (Done a) [Called c]) -> ends_with (call c op) R.
Proof. intros H w. rewrite call_result, call_trace. apply H. Qed.

Lemma ends_bind (A B : Type) (m : M W A) (k : A -> M W B) (P : Event -> Prop)
    (Q : A -> Prop) (R : outcome B -> list Event -> Prop) :
  returns m P Q ->
  (forall a t, Q a -> Forall P t -> ends_with (k a) (fun r t2 => R r (t ++ t2))) ->
  ends_with (bind m k) R.
Proof.
  intros Hm Hk w. destruct (Hm w) as [Ht (a & Ha & HQ)].
  rewrite (bind_done m k w Ha). cbn [result_of trace_of fst snd].
  apply (Hk a _ HQ Ht).
Qed.

Lemma ends_bind_call (A B : Type) (c : OsCall) (op : W -> A * W) (k : A -> M W B)
    (R : outcome B -> list Event -> Prop) :
  (forall a, ends_with (k a) (fun r t => R r (Called c :: t))) ->
  ends_with (bind (call c op) k) R.
Proof.
  intros Hk w. rewrite (bind_done (call c op) k w (call_result c op w)).
  rewrite call_trace. cbn [result_of trace_of fst snd]. apply Hk.
Qed.

Lemma ends_bind_emit (B : Type) (e : Event) (k : unit -> M W B)
    (R : outcome B -> list Event -> Prop) :
  ends_with (k tt) (fun r t => R r (e :: t)) ->
  ends_with (bind (emit e) k) R.
Proof.
  intros Hk w. rewrite (bind_done (emit e) k w (a := tt) eq_refl). apply Hk.
Qed.

Lemma ends_weaken (A : Type) (m : M W A) (R R' : outcome A -> list Event -> Prop) :
  ends_with m R -> (forall r t, R r t -> R' r t) -> ends_with m R'.
Proof. intros Hm Himp w. apply Himp, Hm. Qed.

Lemma ends_ext (A : Type) (m m' : M W A) (R : outcome A -> list Event -> Prop) :
  (forall w, m w = m' w) -> ends_with m' R -> ends_with m R.
Proof. intros E H w. rewrite E. apply H. Qed.

Lemma ends_bind_ret (A B : Type) (a : A) (k : A -> M W B)
    (R : outcome B -> list Event -> Prop) :
  ends_with (k a) R -> ends_with (bind (ret a) k) R.
Proof. apply ends_ext. apply bind_ret_l. Qed.

Lemma ends_bind_assoc (A B C : Type) (m : M W A) (k1 : A -> M W B)
    (k2 : B -> M W C) (R : outcome C -> list Event -> Prop) :
  ends_with (bind m (fun a => bind (k1 a) k2)) R -> ends_with (bind (bind m k1) k2) R.
Proof. apply ends_ext. apply bind_assoc. Qed.

Lemma ends_bind_ends (A B : Type) (m : M W A) (k : A -> M W B)
    (R1 : outcome A -> list Event -> Prop) (R : outcome B -> list Event -> Prop) :
  ends_with m R1 ->
  (forall e t, R1 (Uncaught e) t -> R (Uncaught e) t) ->
  (forall a t, R1 (Done a) t -> ends_with (k a) (fun r t2 => R r (t ++ t2))) ->
  ends_with (bind m k) R.
Proof.
  intros Hm He Hk w. specialize (Hm w). unfold bind.
  destruct (m w) as [[[a | e] w1] t1]; cbn in *.
  - specialize (Hk a t1 Hm w1). destruct (k a w1) as [[r w2] t2]. exact Hk.
  - apply He, Hm.
Qed.

End EndsRules.

Ltac ends_step :=
  cbv beta iota zeta;
  lazymatch goal with
  | |- ends_with (ret _) _ => apply ends_ret
  | |- ends_with (emit _) _ => apply ends_emit
  | |- ends_with (call _ _) _ => apply ends_call; intros ?
  | |- ends_with (bind (call _ _) _) _ => apply ends_bind_call; intros ?
  | |- ends_with (bind (emit _) _) _ => apply ends_bind_emit
  | |- ends_with (bind (ret _) _) _ => apply ends_bind_ret
  | |- ends_with (bind (bind _ _) _) _ => apply ends_bind_assoc
  end.

(** ** What each helper of the worker may do *)

Section Helpers.

Context {W : Type} {os : OS W}.
Variable self : Worker.

Lemma returns_cleanup_dir (directory : Path) :
  returns (_cleanup_dir directory)
    (calls_only (fun c => c = CallExists directory \/ c = CallRmTree directory))
    anything.
Proof.
  unfold _cleanup_dir.
  repeat (returns_step; try solve [exact I | intros; exact I | cbn; auto]).
Qed.

Lemma returns_convert_image (source outdir : Path) :
  returns (_convert_image self source outdir)
    (calls_only (conversion_call self source outdir))
    (conversion_outcome source).
Proof.
  unfold _convert_image. fold (target_of source outdir).
  repeat (returns_step;
          try solve [exact I | intros; exact I | cbn; unfold conversion_call; tauto]).
  all: cbn; split; [reflexivity | eexists; reflexivity].
Qed.

End Helpers.

(** ** The scan *)

Lemma subsequence_refl_nil (A : Type) (ys : list A) : subsequence [] ys.
Proof. induction ys; constructor; assumption. Qed.

Lemma filter_split_len (A : Type) (f : A -> bool) (xs : list A) :
  len xs = len (filter (fun x => negb (f x)) xs) + len (filter f xs).
Proof.
  unfold len. induction xs as [| x xs IH]; [reflexivity |].
  cbn [filter]. destruct (f x); cbn [negb length]; lia.
Qed.

Lemma filter_all (A : Type) (f : A -> bool) (xs : list A) :
  (forall x, f x = true) -> filter f xs = xs.
Proof.
  intros H. induction xs as [| x xs IH]; [reflexivity |].
  cbn. rewrite H, IH. reflexivity.
Qed.

Lemma scanned_partitioned (self : Worker) (b : FolderBatch.t) :
  scanned self b -> partitioned self b.
Proof.
  intros (Hall & Hconv & Hskip). unfold partitioned.
  rewrite Hconv, Hskip. split; [exact Hall |].
  destruct (skip_webp self); cbn [andb].
  - split.
    { intros x Hc Hs. apply filter_In in Hc, Hs.
      destruct Hc as [_ Hc], Hs as [_ Hs]. rewrite Hs in Hc. discriminate. }
    split.
    { intros x. rewrite !filter_In. destruct (is_webp x); cbn; tauto. }
    split; [apply filter_split_len |].
    split; [| discriminate]. intros _. split; apply Forall_forall; intros x Hx;
      apply filter_In in Hx; destruct Hx as [_ Hx];
      [exact Hx | destruct (is_webp x); [discriminate | reflexivity]].
  - rewrite filter_all by reflexivity.
    split; [intros x _ [] |]. split; [intros x; cbn; tauto |].
    split; [unfold len; cbn; lia |]. split; [discriminate | auto].
Qed.

Section Scan.

Context {W : Type} {os : OS W}.
Variable self : Worker.

Ltac look := try solve [exact I | intros; exact I].

Lemma returns_iterdir (p : Path) :
  returns (iterdir p) (calls_only scan_call)
    (fun l => exists names, l = map (PyPath.child p) names).
Proof. unfold iterdir. repeat (returns_step; look). eauto. Qed.

Lemma returns_supported_files (paths : list Path) :
  returns (supported_files paths) (calls_only scan_call)
    (fun l => forall x, In x l -> In x paths /\ is_supported x = true).
Proof.
  induction paths as [| path rest IH]; cbn [supported_files].
  - returns_step. intros x [].
  - returns_step; look.
    eapply returns_bind; [exact IH | intros tl Htl]. apply returns_ret.
    destruct (a && is_supported path) eqn:E.
    + apply andb_prop in E. destruct E as [_ E].
      intros x [<- | Hx]; [split; [left; reflexivity | exact E] |].
      destruct (Htl x Hx). split; [right |]; assumption.
    + intros x Hx. destruct (Htl x Hx). split; [right |]; assumption.
Qed.

Lemma returns_prepare_batches_from (todo : list Path) :
  forall (batches : list FolderBatch.t) (total_convertible total_files : Z),
    returns (_prepare_batches_from self todo batches total_convertible total_files)
      (calls_only scan_call)
      (scanned_more self todo batches total_convertible total_files).
Proof.
  induction todo as [| folder rest IH]; intros batches tc tf;
    cbn [_prepare_batches_from].
  - returns_step. exists []. rewrite app_nil_r. cbn.
    split; [repeat f_equal; lia |]. split; constructor.
  - returns_step; look. destruct a; cbn [negb].
    + eapply returns_bind; [apply returns_iterdir | intros entries [names ->]].
      eapply returns_bind; [apply returns_supported_files | intros all_images Hall].
      eapply returns_weaken; [apply IH | auto |].
      intros r (more & -> & Hmore & Hsub).
      match goal with
      | |- scanned_more _ _ _ _ _ ((_ ++ [?b]) ++ _, _, _) => exists (b :: more)
      end.
      rewrite <- app_assoc. cbn [app]. rewrite !sum_of_cons.
      split.
      { unfold convertible_count at 1, file_count at 1.
        cbn [FolderBatch.convertible_images FolderBatch.all_images].
        rewrite !Z.add_assoc. reflexivity. }
      split.
      * constructor; [| exact Hmore].
        split; [| split; reflexivity]. cbn. intros x Hx.
        destruct (Hall x Hx) as [Hin Hsup]. split; [| exact Hsup].
        apply in_map_iff in Hin. destruct Hin as [n [<- _]]. eauto.
      * cbn. constructor. exact Hsub.
    + returns_step; look.
      eapply returns_weaken; [apply IH | auto |].
      intros r (more & -> & Hmore & Hsub). exists more.
      split; [reflexivity |]. split; [exact Hmore | constructor; exact Hsub].
Qed.

Lemma returns_prepare_batches :
  returns (_prepare_batches self) (calls_only scan_call)
    (fun r =>
       Forall (scanned self) (fst (fst r))
       /\ snd (fst r) = sum_of convertible_count (fst (fst r))
       /\ snd r = sum_of file_count (fst (fst r))
       /\ subsequence (map FolderBatch.folder (fst (fst r))) (folders self)).
Proof.
  eapply returns_weaken; [apply returns_prepare_batches_from | auto |].
  intros r (more & -> & Hmore & Hsub). cbn. auto.
Qed.


End Scan.

(** ** How the loops of [run] end *)

Lemma concluded_last (s : pyval) : concluded [SummaryReady s; Finished] s.
Proof. exists []. split; [reflexivity | constructor]. Qed.

Lemma concluded_app (t' t : list Event) (s : pyval) :
  Forall ongoing t' -> concluded t s -> concluded (t' ++ t) s.
Proof.
  intros Ht' (pre & -> & Hpre). exists (t' ++ pre).
  split; [apply app_assoc | apply Forall_app; split; assumption].
Qed.

Lemma concluded_cons (e : Event) (t : list Event) (s : pyval) :
  ongoing e -> concluded t s -> concluded (e :: t) s.
Proof. intros He. apply (@concluded_app [e]). repeat constructor. exact He. Qed.

Lemma concluded_summaries (t : list Event) (s : pyval) :
  concluded t s -> summaries_of t = [s] /\ last t Finished = Finished.
Proof.
  intros (pre & -> & Hpre). rewrite summaries_of_app. split.
  - replace (summaries_of pre) with (@nil pyval); [reflexivity |].
    induction Hpre as [| e pre He _ IH]; [reflexivity |].
    destruct e; cbn; try exact IH; destruct He.
  - change [SummaryReady s; Finished] with ([SummaryReady s] ++ [Finished]).
    rewrite app_assoc. apply last_last.
Qed.


Lemma loop_ends_app (A : Type) (T tc : Z) (Q : A -> Prop)
    (S : list FolderSummary.t -> Z -> Prop) (r : outcome (loop_exit A))
    (t' t : list Event) :
  Forall ongoing t' -> loop_ends T tc Q S r t -> loop_ends T tc Q S r (t' ++ t).
Proof.
  intros Ht'. destruct r as [[a |] | e]; cbn; [| | auto].
  - intros [Ht HQ]. split; [apply Forall_app; split; assumption | exact HQ].
  - intros (fs & d & p & Hc & Hd & HS). exists fs, d, p.
    split; [apply concluded_app; assumption | auto].
Qed.

Lemma loop_ends_cons (A : Type) (T tc : Z) (Q : A -> Prop)
    (S : list FolderSummary.t -> Z -> Prop) (r : outcome (loop_exit A))
    (e : Event) (t : list Event) :
  ongoing e -> loop_ends T tc Q S r t -> loop_ends T tc Q S r (e :: t).
Proof. intros He. apply (@loop_ends_app _ T tc Q S r [e]). repeat constructor. exact He. Qed.

Lemma loop_ends_weaken (A : Type) (T tc : Z) (Q Q' : A -> Prop)
    (S S' : list FolderSummary.t -> Z -> Prop) (r : outcome (loop_exit A))
    (t : list Event) :
  (forall a, Q a -> Q' a) -> (forall fs p, S fs p -> S' fs p) ->
  loop_ends T tc Q S r t -> loop_ends T tc Q' S' r t.
Proof.
  intros HQ HS. destruct r as [[a |] | e]; cbn; [| | auto].
  - intros [Ht Ha]. auto.
  - intros (fs & d & p & Hc & Hd & Hs). exists fs, d, p. auto.
Qed.

Lemma float_max0_nonneg (x : Float64.pyfloat) : nonneg_float (Float64.float_max0 x).
Proof.
  destruct x as [q | [] |]; cbn; try reflexivity; try apply Qle_refl.
  destruct (Qle_bool q 0) eqn:E; cbn; [apply Qle_refl |].
  apply PercentageFacts.Qle_bool_false_lt in E. apply Qlt_le_weak. exact E.
Qed.

Lemma ongoing_calls_only (allowed : OsCall -> Prop) (e : Event) :
  calls_only allowed e -> ongoing e.
Proof. destruct e; cbn; auto. Qed.

Lemma truthy_with_colon (a b : string) :
  PyStr.truthy (a ++ String ":" b)%string = true.
Proof. unfold PyStr.truthy. destruct a; reflexivity. Qed.

Ltac still_ongoing :=
  repeat first
    [ apply Forall_nil
    | apply Forall_cons; [exact I |]
    | assumption
    | eapply Forall_impl; [apply ongoing_calls_only | eassumption]
    | apply Forall_app; split ].

Ltac conclude :=
  repeat first
    [ apply concluded_last
    | apply concluded_cons; [exact I |]
    | apply concluded_app; [solve [still_ongoing] |] ].

Section LoopsEnd.

Context {W : Type} {os : OS W}.
Variable self : Worker.
Variable T : Z.
Hypothesis T_positive : 0 < T.

Lemma returns_emit_progress (p : Z) :
  0 <= p <= T -> returns (W := W) (_emit_progress p T) ongoing anything.
Proof.
  intros [H0 HT] w. unfold _emit_progress.
  destruct (Z.leb_spec T 0); [lia |].
  assert (Hmax : p <= 2 ^ 1017 * T) by nia.
  unfold bind, lift.
  rewrite (PercentageFacts.percentage_of_defined H0 Hmax T_positive). cbn.
  split; [repeat constructor | exists tt; split; [reflexivity | exact I]].
Qed.

Lemma ends_cancel_run (A : Type) (fs : list FolderSummary.t) (started : Q)
    (p tc : Z) (Q : A -> Prop) (S : list FolderSummary.t -> Z -> Prop) :
  S fs p ->
  ends_with (cancel_run (A := A) fs started T p tc) (loop_ends T tc Q S).
Proof.
  intros HS. unfold cancel_run, _build_run_summary.
  repeat ends_step. cbn. eexists fs, _, p.
  split; [conclude |]. split; [apply float_max0_nonneg | exact HS].
Qed.

Lemma ends_convert_images (fs : list FolderSummary.t) (started : Q) (tc : Z)
    (batch : FolderBatch.t) (outdir : Path) (sources : list Path) :
  forall acc p,
    0 <= p -> p + len sources <= T ->
    ends_with
      (convert_images self fs started T tc batch outdir sources acc p)
      (loop_ends T tc (tallied acc p (len sources))
         (fun fs' p' => fs' = fs /\ p <= p' <= p + len sources)).
Proof.
  induction sources as [| source rest IH]; intros acc p H0 HT;
    cbn [convert_images].
  - apply ends_ret. cbn. split; [constructor |].
    split; [unfold len; cbn; lia |]. split; [lia |].
    exists []. rewrite app_nil_r. unfold len. cbn. split; [reflexivity | lia].
  - assert (Hlen : len (source :: rest) = 1 + len rest).
    { unfold len. cbn [length]. lia. }
    assert (0 <= len rest) by (unfold len; lia).
    rewrite Hlen in *.
    ends_step. destruct a.
    + ends_step.
      eapply ends_bind; [apply returns_cleanup_dir | intros _ t _ Ht].
      eapply ends_weaken; [apply ends_cancel_run with (S := fun fs' p' => fs' = fs /\ p <= p' <= p + (1 + len rest)); split; [reflexivity | lia] |].
      intros r t2 Hr. apply loop_ends_cons; [exact I |]. apply loop_ends_cons; [exact I |].
      apply loop_ends_app; [| exact Hr].
      eapply Forall_impl; [apply ongoing_calls_only | exact Ht].
    + ends_step.
      eapply ends_bind; [apply returns_convert_image |].
      intros [[[success original_size] converted_size] error_message] t Hout Ht.
      cbv beta iota zeta.
      eapply ends_bind; [apply returns_emit_progress; lia | intros _ t2 _ Ht2].
      eapply ends_weaken; [apply IH; lia |].
      intros r t3 Hr. apply loop_ends_cons; [exact I |]. apply loop_ends_cons; [exact I |].
      apply loop_ends_app;
        [eapply Forall_impl; [apply ongoing_calls_only | exact Ht] |].
      apply loop_ends_app; [exact Ht2 |].
      revert Hr. apply loop_ends_weaken; [| intros fs' p' [-> Hp']; split; [reflexivity | lia]].
      intros [acc' p'] (-> & Hconv & failures & Herr & Hsum).
      cbn in Hout. destruct success.
      * unfold tallied. cbn [converted_count folder_errors] in *.
        split; [lia |]. split; [lia |].
        exists failures. split; [exact Herr | lia].
      * destruct Hout as (_ & detail & ->).
        rewrite truthy_with_colon in Hconv, Herr, Hsum. unfold tallied.
        cbn [converted_count folder_errors] in *.
        split; [lia |]. split; [lia |].
        exists ((PyPath.name source ++ ": " ++ detail)%string :: failures).
        rewrite <- app_assoc in Herr. split; [exact Herr |].
        unfold len in *. cbn [length]. lia.
Qed.

End LoopsEnd.

(** ** The two output strategies *)

Section AttemptsRules.

Context {W : Type}.

Lemma attempts_first (A B : Type) (m : M W A) (k : A -> M W B) (e : Event) :
  attempts m e -> attempts (bind m k) e.
Proof.
  intros Hm w. specialize (Hm w). unfold bind.
  destruct (m w) as [[[a | x] w1] t1]; cbn in *; [| exact Hm].
  destruct (k a w1) as [[r w2] t2]. cbn. apply in_or_app. left. exact Hm.
Qed.

Lemma attempts_then (A B : Type) (m : M W A) (k : A -> M W B) (e : Event) :
  surely m anything -> (forall a, attempts (k a) e) -> attempts (bind m k) e.
Proof.
  intros Hm Hk w. destruct (Hm w) as (a & Ha & _).
  rewrite (bind_done m k w Ha). cbn [trace_of snd].
  apply in_or_app. right. apply Hk.
Qed.

Lemma attempts_call (A : Type) (c : OsCall) (op : W -> A * W) :
  attempts (call c op) (Called c).
Proof. intros w. rewrite call_trace. left. reflexivity. Qed.

Lemma attempts_ext (A : Type) (m m' : M W A) (e : Event) :
  (forall w, m w = m' w) -> attempts m' e -> attempts m e.
Proof. intros E H w. rewrite E. apply H. Qed.

End AttemptsRules.

Ltac attempts_step :=
  cbv beta iota zeta;
  lazymatch goal with
  | |- attempts (bind (call _ _) _) _ =>
      apply attempts_then; [apply surely_call; intros; exact I | intros ?]
  | |- attempts (bind (emit _) _) _ =>
      apply attempts_then; [apply surely_emit; exact I | intros ?]
  | |- attempts (bind (ret _) _) _ => eapply attempts_ext; [apply bind_ret_l |]
  | |- attempts (bind (bind _ _) _) _ => eapply attempts_ext; [apply bind_assoc |]
  | |- attempts (bind (if ?b then _ else _) _) _ => destruct b
  | |- attempts (bind (match ?x with _ => _ end) _) _ => destruct x
  | |- attempts (if ?b then _ else _) _ => destruct b
  | |- attempts (match ?x with _ => _ end) _ => destruct x
  end.

Section Strategies.

Context {W : Type} {os : OS W}.
Variable self : Worker.

Lemma attempts_cleanup_dir (directory : Path) :
  attempts (_cleanup_dir directory) (Called (CallExists directory)).
Proof. unfold _cleanup_dir. apply attempts_first, attempts_call. Qed.

Lemma returns_prepare_output_dir (folder : Path) :
  returns (_prepare_output_dir folder)
    (calls_only (fun c => c = CallExists (PyPath.child folder OUTPUT_DIR_NAME)
                          \/ c = CallRmTree (PyPath.child folder OUTPUT_DIR_NAME)
                          \/ c = CallMkdir (PyPath.child folder OUTPUT_DIR_NAME)))
    (fun r => forall outdir, r = Ok outdir -> outdir = PyPath.child folder OUTPUT_DIR_NAME).
Proof.
  unfold _prepare_output_dir.
  repeat (returns_step; try solve [exact I | intros; exact I | cbn; tauto]);
    intros; congruence.
Qed.

Lemma returns_delete_originals (batch : FolderBatch.t) (outdir : Path)
    (originals : list Path) :
  incl originals (FolderBatch.convertible_images batch) ->
  forall errors,
    returns (delete_originals originals errors)
      (calls_only (replace_call batch outdir)) anything.
Proof.
  induction originals as [| original rest IH]; intros Hincl errors;
    cbn [delete_originals].
  - returns_step. exact I.
  - assert (In original (FolderBatch.convertible_images batch))
      by (apply Hincl; left; reflexivity).
    assert (incl rest (FolderBatch.convertible_images batch))
      by (intros x Hx; apply Hincl; right; exact Hx).
    repeat (returns_step;
            try solve [exact I | intros; exact I | cbn; auto | apply IH; assumption]).
Qed.

Lemma returns_move_outputs (batch : FolderBatch.t) (outdir : Path)
    (names : list string) :
  forall errors,
    returns (move_outputs (FolderBatch.folder batch)
               (map (PyPath.child outdir) names) errors)
      (calls_only (replace_call batch outdir)) anything.
Proof.
  induction names as [| n rest IH]; intros errors; cbn [move_outputs map].
  - returns_step. exact I.
  - rewrite name_child.
    repeat (returns_step;
            try solve [exact I | intros; exact I | cbn; eauto | apply IH]).
Qed.

Lemma returns_replace_originals (batch : FolderBatch.t) (outdir : Path) :
  returns (_replace_originals batch outdir)
    (calls_only (replace_call batch outdir)) anything.
Proof.
  unfold _replace_originals, iterdir. returns_step; try exact I.
  eapply returns_bind; [apply returns_delete_originals, incl_refl | intros errors _].
  returns_step.
  returns_step; try solve [intros; exact I | cbn; auto].
  returns_step.
  eapply returns_bind; [apply returns_move_outputs | intros errors' _].
  eapply returns_bind with (Q1 := anything);
    [eapply returns_weaken; [apply returns_cleanup_dir | | auto] | intros _ _].
  { intros [] Hc; cbn in *; auto. destruct Hc as [-> | ->]; cbn; auto. }
  returns_step. exact I.
Qed.

Lemma returns_move_outputs_any (folder : Path) (outputs : list Path) :
  forall errors, returns (move_outputs folder outputs errors) anything anything.
Proof.
  induction outputs as [| optimized rest IH]; intros errors; cbn [move_outputs].
  - returns_step. exact I.
  - repeat (returns_step; try solve [exact I | intros; exact I | apply IH]).
Qed.

Lemma attempts_replace_originals (batch : FolderBatch.t) (outdir : Path) :
  attempts (_replace_originals batch outdir) (Called (CallExists outdir)).
Proof.
  unfold _replace_originals.
  apply attempts_then; [intros w; exists tt; split; [reflexivity | exact I] | intros _].
  apply attempts_then.
  { exact (returns_surely_any
             (returns_delete_originals batch outdir (@incl_refl _ _) [])). }
  intros errors. apply attempts_then.
  { exact (returns_surely_any (returns_iterdir outdir)). }
  intros outputs. apply attempts_then.
  { exact (returns_surely_any (returns_move_outputs_any _ outputs errors)). }
  intros errors'. apply attempts_first, attempts_cleanup_dir.
Qed.

Lemma cleanup_within_archive (batch : FolderBatch.t) (outdir : Path) (e : Event) :
  calls_only (fun c => c = CallExists outdir \/ c = CallRmTree outdir) e ->
  calls_only (archive_call self batch outdir) e.
Proof. destruct e; cbn; auto. intros [-> | ->]; cbn; auto. Qed.

Lemma returns_create_archive (batch : FolderBatch.t) (outdir : Path) :
  returns (_create_archive self batch outdir)
    (calls_only (archive_call self batch outdir))
    (archive_outcome self batch).
Proof.
  unfold _create_archive, iterdir. fold (archive_path_of self batch).
  repeat first
    [ eapply returns_bind with (Q1 := anything);
      [eapply returns_weaken;
       [apply returns_cleanup_dir | apply cleanup_within_archive | auto]
      | intros _ _]
    | returns_step;
      try solve [exact I | intros; exact I | cbn; auto | cbn; eauto] ].
  all: unfold archive_outcome; cbn [fst snd]; split;
    [ first [left; reflexivity
            | match goal with
              | |- context [if ?b then _ else _] => destruct b; auto
              end]
    | first [left; reflexivity | right; eexists; split; reflexivity] ].
Qed.

Lemma attempts_create_archive (batch : FolderBatch.t) (outdir : Path) :
  attempts (_create_archive self batch outdir) (Called (CallExists outdir)).
Proof.
  unfold _create_archive, iterdir.
  repeat first
    [ apply attempts_first, attempts_cleanup_dir
    | attempts_step ].
Qed.

End Strategies.

(** ** How the folder loop and [run] end *)

Lemma sum_of_one (A : Type) (f : A -> Z) (x : A) : sum_of f [x] = f x.
Proof. reflexivity. Qed.

Lemma sum_of_app (A : Type) (f : A -> Z) (xs ys : list A) :
  sum_of f (xs ++ ys) = sum_of f xs + sum_of f ys.
Proof.
  unfold sum_of at 1. rewrite fold_left_app. fold (sum_of f xs). apply sum_of_from.
Qed.

Section FolderLoopEnds.

Context {W : Type} {os : OS W}.
Variable self : Worker.
Variable T : Z.
Hypothesis T_positive : 0 < T.

Lemma advanced_one (batch : FolderBatch.t) (fs : list FolderSummary.t) (p p' : Z)
    (c s : Z) (e : list string) (bo bc : Z) (asz : option Z) (ap : option string)
    (d : Float64.pyfloat) :
  0 <= file_count batch -> p <= p' <= p + file_count batch -> 0 <= c <= p' - p ->
  advanced [batch] fs p
    (fs ++ [FolderSummary.make (PyPath.str (FolderBatch.folder batch))
              c s e bo bc asz ap d], p').
Proof.
  intros Hn Hp Hc. eexists [_]. split; [reflexivity |].
  split; [reflexivity |]. rewrite !sum_of_one. cbn [FolderSummary.converted].
  split; assumption.
Qed.

Lemma ends_process_batch (started : Q) (tc : Z) (batch : FolderBatch.t)
    (fs : list FolderSummary.t) (p : Z) :
  scanned self batch -> 0 <= p -> p + file_count batch <= T ->
  ends_with (process_batch self started T tc batch fs p)
    (loop_ends T tc (advanced [batch] fs p) (interrupted_after [batch] fs p)).
Proof.
  intros Hscanned H0 HT.
  destruct (scanned_counts Hscanned) as [Hn0 Hn].
  assert (Hstay : interrupted_after [batch] fs p fs p).
  { exists []. rewrite app_nil_r, sum_of_one. cbn.
    split; [reflexivity |]. split; [reflexivity |]. split; [lia |]. lia. }
  unfold process_batch. ends_step. destruct a.
  { ends_step.
    eapply ends_weaken; [apply ends_cancel_run; exact Hstay |].
    intros r t Hr. do 2 (apply loop_ends_cons; [exact I |]). exact Hr. }
  ends_step. ends_step.
  eapply ends_bind; [apply returns_prepare_output_dir | intros prepared t _ Ht].
  destruct prepared as [outdir | exc].
  2: { repeat ends_step. unfold loop_ends. split; [still_ongoing |].
       apply advanced_one; lia. }
  destruct (match FolderBatch.convertible_images batch with [] => true | _ => false end
            && negb (replace_originals self)).
  { ends_step.
    eapply ends_bind; [apply returns_cleanup_dir | intros _ t2 _ Ht2].
    repeat ends_step. unfold loop_ends. split; [still_ongoing |].
    apply advanced_one; lia. }
  eapply ends_bind_ends;
    [apply ends_convert_images with (p := p); [exact T_positive | exact H0 |];
     unfold convertible_count, file_count in *; lia | |].
  { intros e t2 []. }
  intros [[acc p'] |] t2 Hloop.
  2: { apply ends_ret. rewrite app_nil_r.
       do 3 (apply loop_ends_cons; [exact I |]). apply loop_ends_app; [still_ongoing |].
       destruct Hloop as (fs' & d & p' & Hc & Hd & -> & Hp').
       exists fs, d, p'. split; [exact Hc |]. split; [exact Hd |].
       exists []. rewrite app_nil_r, sum_of_one. cbn.
       split; [reflexivity |]. split; [reflexivity |]. split; [lia |].
       unfold convertible_count, file_count in *. lia. }
  destruct Hloop as [Ht2 (-> & Hconv & failures & Herr & Hsum)].
  cbn [converted_count folder_errors] in Hconv, Herr, Hsum.
  assert (0 <= len failures) by (unfold len; lia).
  assert (Hseal : forall skipped_units p'',
            p'' = (if skipped_units >? 0
                   then p + len (FolderBatch.convertible_images batch) + skipped_units
                   else p + len (FolderBatch.convertible_images batch)) ->
            skipped_units = len (FolderBatch.all_images batch)
                            - len (FolderBatch.convertible_images batch) ->
            forall s e bo bc asz ap d,
              advanced [batch] fs p
                (fs ++ [FolderSummary.make (PyPath.str (FolderBatch.folder batch))
                          (converted_count acc) s e bo bc asz ap d], p'')).
  { intros skipped_units p'' -> -> *. unfold convertible_count, file_count in *.
    apply advanced_one; unfold file_count;
      destruct (Z.gtb_spec (len (FolderBatch.all_images batch)
                            - len (FolderBatch.convertible_images batch)) 0); lia. }
  assert (Hcase : replace_originals self = true \/ replace_originals self = false)
    by (destruct (replace_originals self); auto).
  destruct Hcase as [Hreplace | Hreplace]; rewrite Hreplace.
  - apply ends_bind_assoc.
    eapply ends_bind; [apply returns_replace_originals | intros errors t3 _ Ht3].
    apply ends_bind_ret. cbv beta iota zeta.
    destruct (Z.gtb_spec (len (FolderBatch.all_images batch)
                          - len (FolderBatch.convertible_images batch)) 0) as [Hs | Hs].
    + apply ends_bind_assoc.
      eapply ends_bind;
        [apply returns_emit_progress; [exact T_positive |];
         unfold convertible_count, file_count in *; lia
        | intros _ t4 _ Ht4].
      repeat ends_step. unfold loop_ends. split; [still_ongoing |].
      eapply Hseal; [| reflexivity].
      destruct (Z.gtb_spec (len (FolderBatch.all_images batch)
                            - len (FolderBatch.convertible_images batch)) 0); [reflexivity | lia].
    + repeat ends_step. unfold loop_ends. split; [still_ongoing |].
      eapply Hseal; [| reflexivity].
      destruct (Z.gtb_spec (len (FolderBatch.all_images batch)
                            - len (FolderBatch.convertible_images batch)) 0); [lia | reflexivity].
  - apply ends_bind_assoc.
    eapply ends_bind; [apply returns_create_archive |].
    intros [[archive_path archive_size] archive_errors] t3 _ Ht3.
    apply ends_bind_ret. cbv beta iota zeta.
    destruct (Z.gtb_spec (len (FolderBatch.all_images batch)
                          - len (FolderBatch.convertible_images batch)) 0) as [Hs | Hs].
    + apply ends_bind_assoc.
      eapply ends_bind;
        [apply returns_emit_progress; [exact T_positive |];
         unfold convertible_count, file_count in *; lia
        | intros _ t4 _ Ht4].
      repeat ends_step. unfold loop_ends. split; [still_ongoing |].
      eapply Hseal; [| reflexivity].
      destruct (Z.gtb_spec (len (FolderBatch.all_images batch)
                            - len (FolderBatch.convertible_images batch)) 0); [reflexivity | lia].
    + repeat ends_step. unfold loop_ends. split; [still_ongoing |].
      eapply Hseal; [| reflexivity].
      destruct (Z.gtb_spec (len (FolderBatch.all_images batch)
                            - len (FolderBatch.convertible_images batch)) 0); [lia | reflexivity].
Qed.

End FolderLoopEnds.

Section RunEnds.

Context {W : Type} {os : OS W}.
Variable self : Worker.

Lemma advanced_next (batch : FolderBatch.t) (rest : list FolderBatch.t)
    (fs fs1 : list FolderSummary.t) (p p1 : Z) (x : list FolderSummary.t * Z) :
  advanced [batch] fs p (fs1, p1) -> advanced rest fs1 p1 x ->
  advanced (batch :: rest) fs p x.
Proof.
  destruct x as [fs2 p2].
  intros (new1 & -> & Hf1 & Hp1 & Hc1) (new2 & -> & Hf2 & Hp2 & Hc2).
  rewrite sum_of_one in Hp1. exists (new1 ++ new2).
  rewrite app_assoc, map_app, Hf1, Hf2, sum_of_cons, sum_of_app.
  split; [reflexivity |]. split; [reflexivity |]. lia.
Qed.

Lemma interrupted_next (batch : FolderBatch.t) (rest : list FolderBatch.t)
    (fs fs1 fs2 : list FolderSummary.t) (p p1 p2 : Z) :
  advanced [batch] fs p (fs1, p1) -> interrupted_after rest fs1 p1 fs2 p2 ->
  interrupted_after (batch :: rest) fs p fs2 p2.
Proof.
  intros (new1 & -> & Hf1 & Hp1 & Hc1) (new2 & -> & Hf2 & Hlen & Hp2 & Hc2).
  rewrite sum_of_one in Hp1. exists (new1 ++ new2).
  assert (Hone : length new1 = 1%nat).
  { rewrite <- (length_map FolderSummary.folder), Hf1. reflexivity. }
  rewrite app_assoc, map_app, Hf1, Hf2, sum_of_cons, sum_of_app, length_app, Hone.
  split; [reflexivity |]. split; [reflexivity |].
  split; [cbn [length]; lia | lia].
Qed.

Lemma interrupted_first (batch : FolderBatch.t) (rest : list FolderBatch.t)
    (fs fs' : list FolderSummary.t) (p p' : Z) :
  0 <= sum_of file_count rest ->
  interrupted_after [batch] fs p fs' p' ->
  interrupted_after (batch :: rest) fs p fs' p'.
Proof.
  intros Hrest (new & -> & Hf & Hlen & Hp & Hc). rewrite sum_of_one in Hp.
  exists new. destruct new as [| f new]; [| cbn in Hlen; lia].
  rewrite sum_of_cons. split; [reflexivity |]. split; [reflexivity |].
  split; [cbn; lia | lia].
Qed.

Lemma ends_process_batches (T : Z) (started : Q) (tc : Z)
    (batches : list FolderBatch.t) :
  0 < T ->
  Forall (scanned self) batches ->
  forall fs p,
    0 <= p -> p + sum_of file_count batches <= T ->
    ends_with (process_batches self started T tc batches fs p)
      (loop_ends T tc (advanced batches fs p) (interrupted_after batches fs p)).
Proof.
  intros HT Hall. induction Hall as [| batch rest Hbatch Hrest IH];
    intros fs p Hp Hsum; cbn [process_batches].
  - apply ends_ret. split; [constructor |]. exists [].
    rewrite app_nil_r. cbn. repeat split; lia.
  - rewrite sum_of_cons in Hsum.
    pose proof (scanned_totals Hrest) as Htotals.
    destruct (scanned_counts Hbatch) as [_ Hcounts].
    eapply ends_bind_ends;
      [apply ends_process_batch; [exact HT | exact Hbatch | exact Hp | lia] | |].
    { intros e t []. }
    intros [[fs1 p1] |] t Hstep.
    + destruct Hstep as [Ht Hadv].
      assert (Hp1 : p <= p1 <= p + file_count batch).
      { destruct Hadv as (new & _ & _ & Hb & _). rewrite sum_of_one in Hb. exact Hb. }
      eapply ends_weaken; [apply IH; lia |].
      intros r t2 Hr. apply loop_ends_app; [exact Ht |].
      revert Hr. apply loop_ends_weaken.
      * intros x. apply advanced_next. exact Hadv.
      * intros fs2 p2. apply interrupted_next. exact Hadv.
    + apply ends_ret. rewrite app_nil_r.
      destruct Hstep as (fs' & d & p' & Hc & Hd & HS).
      exists fs', d, p'. split; [exact Hc |]. split; [exact Hd |].
      apply interrupted_first; [lia | exact HS].
Qed.

Lemma returns_encoder_available :
  returns (W := W) _encoder_available ongoing anything.
Proof.
  unfold _encoder_available.
  repeat (returns_step; try solve [exact I | intros; exact I]).
Qed.

Lemma work_units_scanned (batches : list FolderBatch.t) :
  Forall (scanned self) batches ->
  0 <= work_units (sum_of file_count batches) (sum_of convertible_count batches)
  /\ (sum_of convertible_count batches <> 0 ->
      work_units (sum_of file_count batches) (sum_of convertible_count batches)
      = sum_of file_count batches
      /\ 0 < sum_of file_count batches).
Proof.
  intros Hall. pose proof (scanned_totals Hall). unfold work_units.
  destruct (Z.gtb_spec (sum_of file_count batches) 0); lia.
Qed.

Lemma ends_run : ends_with (run self) run_ends.
Proof.
  unfold run. ends_step.
  eapply ends_bind; [apply returns_encoder_available | intros available t _ Ht].
  destruct available; cbn [negb].
  2: { unfold _build_run_summary. repeat ends_step.
       split; [reflexivity |]. eexists [], _, 0, 0, 0, false.
       split; [conclude |]. split; [apply float_max0_nonneg |].
       unfold counted. cbn. lia. }
  eapply ends_bind; [apply returns_prepare_batches |].
  intros [[batches tc] tf] t2 H Ht2. cbn [fst snd] in H.
  destruct H as (Hall & -> & -> & _).
  destruct (work_units_scanned Hall) as [Hunits Hsome].
  destruct (Z.eqb_spec (sum_of convertible_count batches) 0) as [Hnone | Hany].
  { unfold _build_run_summary. repeat ends_step.
    split; [reflexivity |]. eexists [], _, _, 0, _, false.
    split; [conclude |].
    split; [apply float_max0_nonneg |]. unfold counted. cbn. lia. }
  destruct (Hsome Hany) as [Hunits' Hpos]. rewrite Hunits'.
  eapply ends_bind_ends;
    [apply ends_process_batches with (fs := []) (p := 0);
     [exact Hpos | exact Hall | lia | lia] | |].
  { intros e t3 []. }
  intros [[fs p] |] t3 Hloop.
  - destruct Hloop as [Ht3 (new & -> & _ & Hp & Hc)]. cbn [app].
    unfold _build_run_summary. repeat ends_step.
    split; [reflexivity |]. eexists new, _, _, p, _, false.
    split.
    { conclude. }
    split; [apply float_max0_nonneg |]. unfold counted. lia.
  - apply ends_ret. rewrite app_nil_r.
    destruct Hloop as (fs & d & p & Hconcluded & Hd & new & -> & _ & _ & Hp & Hc).
    cbn [app] in *.
    split; [reflexivity |]. exists new, d, (sum_of file_count batches), p, (sum_of convertible_count batches), true.
    split.
    { conclude. exact Hconcluded. }
    split; [exact Hd |]. unfold counted. lia.
Qed.

End RunEnds.

(** ** Every run ends with one summary *)

Lemma concluded_only (t : list Event) (s s' : pyval) :
  concluded t s -> In s' (summaries_of t) -> s' = s.
Proof.
  intros Hc Hin. destruct (concluded_summaries Hc) as [Hs _].
  rewrite Hs in Hin. destruct Hin as [<- | []]. reflexivity.
Qed.

Section EveryRun.

Context {W : Type} {os : OS W}.
Variable self : Worker.


(** X3: in the summary of every run, cancelled or not, the number of converted
    images is at most the number of processed units, which is at most the
    total number of units; none is negative, and the duration is not
    negative even if the clock runs backwards. *)
Theorem summary_counters_are_consistent (w : W) (s : pyval) :
  In s (summaries_of (trace_of (run self w))) -> consistent_counters s.
Proof.
  intros Hs.
  destruct (ends_run self w) as [_ (fs & d & T & p & tc & c & Hc & Hd & H0 & Hp & HT)].
  rewrite (@concluded_only _ _ _ Hc Hs).
  exists (sum_of FolderSummary.converted fs), p, T, d.
  split; [reflexivity |]. split; [reflexivity |]. split; [reflexivity |].
  split; [reflexivity |]. split; [lia |]. split; [exact HT | exact Hd].
Qed.

(** X4: the image loop of a folder, started with [p] processed units where
    [p + len(sources)] does not exceed the positive total: it raises
    nothing; if it is not cancelled, every source has advanced the
    processed units by one and is either one more converted image or one
    more error string appended to the folder's errors (a failed encode
    never stops the loop); if it is cancelled, the run has sent its one
    summary, cancelled, with the folder summaries it had before this
    folder. *)
Theorem image_loop_counts_every_source (T : Z) (fs : list FolderSummary.t)
    (started : Q) (tc : Z) (batch : FolderBatch.t) (outdir : Path)
    (sources : list Path) (acc : FolderAcc) (p : Z) (w : W) :
  0 < T -> 0 <= p -> p + len sources <= T ->
  let x := convert_images self fs started T tc batch outdir sources acc p w in
  match result_of x with
  | Done (Completed (acc', p')) =>
      Forall ongoing (trace_of x)
      /\ p' = p + len sources
      /\ exists failures,
           folder_errors acc' = (folder_errors acc ++ failures)%list
           /\ converted_count acc' + len failures = converted_count acc + len sources
  | Done Returned =>
      exists s p',
        concluded (trace_of x) s
        /\ py_get "cancelled" s = Some (VBool true)
        /\ folders_of s = map asdict fs
        /\ py_get "processed_images" s = Some (VInt p')
        /\ p <= p' <= p + len sources
  | Uncaught _ => False
  end.
Proof.
  intros HT H0 Hp x.
  pose proof (@ends_convert_images W os self T HT fs started tc batch outdir sources
                acc p H0 Hp w) as H.
  fold x in H. unfold loop_ends, tallied in H.
  destruct (result_of x) as [[[acc' p'] |] | e]; [| | exact H].
  - destruct H as (Hquiet & -> & _ & failures & Herrors & Hcount).
    split; [exact Hquiet |]. split; [reflexivity |].
    exists failures. split; assumption.
  - destruct H as (fs' & d & p' & Hc & _ & -> & Hp').
    exists (summary_dict fs d T p' tc true), p'.
    split; [exact Hc |]. split; [reflexivity |]. split; [reflexivity |].
    split; [reflexivity | exact Hp'].
Qed.

End EveryRun.

Lemma summary_counters_are_consistent_witness :
  exists s,
    In s (summaries_of (trace_of (run max_quality_worker failing_world)))
    /\ consistent_counters s.
Proof.
  eexists. split; [vm_compute; left; reflexivity |].
  apply (@summary_counters_are_consistent _ _ max_quality_worker failing_world).
  vm_compute. left. reflexivity.
Defined.

Lemma image_loop_counts_every_source_witness :
  (0 < 3 /\ 0 <= 0 /\ 0 + len (FolderBatch.convertible_images batch_a) <= 3)
  /\ exists acc',
       result_of (convert_images max_quality_worker [] 0 3 2 batch_a
                    (PyPath.child dir_a OUTPUT_DIR_NAME)
                    (FolderBatch.convertible_images batch_a)
                    (mkAcc 0 0 0 []) 0 failing_world)
       = Done (Completed (acc', 2))
       /\ exists failures,
            folder_errors acc' = failures
            /\ converted_count acc' + len failures = 2.
Proof.
  assert (H : 0 < 3 /\ 0 <= 0 /\ 0 + len (FolderBatch.convertible_images batch_a) <= 3)
    by (vm_compute; repeat split; discriminate).
  split; [exact H |]. destruct H as (HT & H0 & Hp).
  pose proof (@image_loop_counts_every_source Sim.t Sim.os max_quality_worker 3 [] 0 2
                batch_a (PyPath.child dir_a OUTPUT_DIR_NAME)
                (FolderBatch.convertible_images batch_a) (mkAcc 0 0 0 []) 0
                failing_world HT H0 Hp) as H.
  cbv zeta in H.
  destruct (result_of _) as [[[acc' p'] |] | e] eqn:E in H.
  - destruct H as (_ & -> & failures & Herrors & Hcount).
    exists acc'. split; [exact E |]. exists failures. split; assumption.
  - exfalso. vm_compute in E. discriminate E.
  - destruct H.
Defined.

(** ** Which folders a summary lists *)

Lemma ongoing_summaries (t : list Event) : Forall ongoing t -> summaries_of t = [].
Proof.
  induction 1 as [| e t He _ IH]; [reflexivity |].
  destruct e; cbn; try exact IH; destruct He.
Qed.

Section FoldersListed.

Context {W : Type} {os : OS W}.
Variable self : Worker.

(** X5: when the encoder is found, the summary of a run lists the scanned
    folders in scan order: all of them when the run is not cancelled (none
    when the scan found nothing to convert); when it is cancelled, at
    whichever poll the interruption was seen, between two folders or
    between two images of a folder, a proper prefix of them, so the folder
    that was being processed has no entry. *)
Theorem summary_lists_folders_in_scan_order (w : W)
    (batches : list FolderBatch.t) (total_convertible total_files : Z) (s : pyval) :
  result_of (encoder_check w) = Done true ->
  result_of (scan self w) = Done (batches, total_convertible, total_files) ->
  In s (summaries_of (trace_of (run self w))) ->
  lists_folders batches total_convertible s.
Proof.
  intros Hencoder Hscan Hs.
  pose proof (encoder_check_sends_no_summary w) as Hquiet1.
  pose proof (scan_sends_no_summary self w) as Hquiet2.
  destruct (returns_prepare_batches self (world_of (encoder_check w)))
    as [_ (r & Hr & Hpost)].
  unfold scan in Hscan. rewrite Hscan in Hr. injection Hr as <-.
  cbn [fst snd] in Hpost. destruct Hpost as (Hall & Htc & Htf & _).
  destruct (work_units_scanned Hall) as [_ Hsome].
  rewrite <- Htc, <- Htf in Hsome.
  revert Hs. unfold scan, encoder_check, run_start in *.
  unfold run. along_call. along Hencoder. cbn [negb]. along Hscan.
  cbv beta iota. destruct (Z.eqb_spec total_convertible 0) as [Hnone | Hany].
  { unfold _build_run_summary. run_command.
    rewrite !summaries_of_app, Hquiet1, Hquiet2. cbn.
    intros [<- | []]. exists [], false. cbn.
    split; [reflexivity |]. split; [reflexivity |].
    rewrite Hnone. reflexivity. }
  destruct (Hsome Hany) as [-> Hpos].
  pose proof (ends_process_batches (run_start w) total_convertible Hpos Hall
                [] (p := 0) ltac:(lia) ltac:(lia)
                (world_of (_prepare_batches self
                             (world_of (_encoder_available (snd (perf_counter w)))))))
    as Hloop.
  unfold run_start in Hloop.
  destruct (result_of (process_batches _ _ _ _ _ _ _ _)) as [[[fs p] |] | e] eqn:Hresult;
    [| | destruct Hloop].
  - destruct Hloop as [Hquiet (new & Hfs & Hfolders & _)].
    cbn [app] in Hfs. subst fs.
    along Hresult. unfold _build_run_summary. run_command.
    rewrite !summaries_of_app, Hquiet1, Hquiet2, (ongoing_summaries Hquiet). cbn.
    intros [<- | []]. exists new, false.
    split; [reflexivity |]. split; [reflexivity |].
    apply Z.eqb_neq in Hany. rewrite Hany. exact Hfolders.
  - destruct Hloop as (fs & d & p & Hc & _ & new & Hfs & Hfolders & Hlen & _).
    cbn [app] in Hfs. subst fs.
    along Hresult. cbn [ret trace_of snd].
    rewrite !summaries_of_app, Hquiet1, Hquiet2, app_nil_r.
    destruct (concluded_summaries Hc) as [-> _]. cbn.
    intros [<- | []]. exists new, true.
    split; [reflexivity |]. split; [reflexivity |]. split; assumption.
Qed.

End FoldersListed.

Lemma summary_lists_folders_in_scan_order_witness :
  exists s,
    (result_of (encoder_check interrupted_world) = Done true
     /\ result_of (scan max_quality_worker interrupted_world)
        = Done ([batch_a; batch_b], 2, 3)
     /\ In s (summaries_of (trace_of (run max_quality_worker interrupted_world))))
    /\ lists_folders [batch_a; batch_b] 2 s.
Proof.
  eexists. split; [split; [reflexivity | split; [reflexivity |]] |].
  - vm_compute. left. reflexivity.
  - apply (@summary_lists_folders_in_scan_order Sim.t Sim.os max_quality_worker
             interrupted_world [batch_a; batch_b] 2 3);
      [reflexivity | reflexivity | vm_compute; left; reflexivity].
Defined.

(** ** What the helpers of the worker do and never do *)

Section HelperContracts.

Context {W : Type} {os : OS W}.
Variable self : Worker.

(** X6: [_convert_image] raises nothing, whatever the encoder and the file
    system do.  It reports success exactly when the encoder process exits
    with status 0; on failure the converted size is 0 and the message
    starts with the file's name, on success there is no message.  Its only
    calls are the stat of the source, the encoder run, and the existence
    test and stat of [outdir / (source.stem + ".webp")]: it removes and
    moves nothing. *)
Theorem convert_image_reports_every_failure (source outdir : Path) (w : W) :
  Forall (calls_only (conversion_call self source outdir))
    (trace_of (_convert_image self source outdir w))
  /\ exists original_size converted_size error_message,
       result_of (_convert_image self source outdir w)
       = Done (exited_cleanly
                 (fst (subprocess_run
                         (_build_cwebp_command self source (target_of source outdir))
                         (snd (stat_size source w)))),
               original_size, converted_size, error_message)
       /\ conversion_outcome source
            (exited_cleanly
               (fst (subprocess_run
                       (_build_cwebp_command self source (target_of source outdir))
                       (snd (stat_size source w)))),
             original_size, converted_size, error_message).
Proof.
  destruct (returns_convert_image self source outdir w)
    as [Hcalls ([[[success o] c] msg] & Hr & Hout)].
  split; [exact Hcalls |]. exists o, c, msg.
  assert (Hsuccess : success
                     = exited_cleanly
                         (fst (subprocess_run
                                 (_build_cwebp_command self source (target_of source outdir))
                                 (snd (stat_size source w))))).
  { revert Hr. unfold _convert_image. fold (target_of source outdir).
    along_call. along_call.
    destruct (fst (subprocess_run _ _)) as [| exc | returncode stderr]; cbn [exited_cleanly].
    - along_emit. cbn. congruence.
    - along_emit. cbn. congruence.
    - destruct (returncode =? 0); cbn [negb].
      + along_call. destruct (fst (exists_ _ _)).
        * rewrite bind_assoc. along_call. cbn. congruence.
        * rewrite bind_ret_l. cbn. congruence.
      + along_emit. cbn. congruence. }
  rewrite <- Hsuccess. split; assumption.
Qed.



End HelperContracts.

(** ** Two early ways out *)

Lemma calls_of_app (t1 t2 : list Event) :
  calls_of (t1 ++ t2) = calls_of t1 ++ calls_of t2.
Proof.
  induction t1 as [| e t1 IH]; [reflexivity |].
  destruct e; cbn; rewrite IH; reflexivity.
Qed.

Section EarlyExits.

Context {W : Type} {os : OS W}.
Variable self : Worker.

(** X9: when the encoder is found and the scan finds nothing to convert, [run]
    makes no further call but one clock reading: it sends the status line
    "No images to convert in selected folder(s).", one summary, not
    cancelled, without folders, with no processed unit and with
    [total_images] the number of eligible files the scan counted (all of
    them skip-excluded), then [finished]. *)
Theorem nothing_to_convert_ends_the_run (w : W) (batches : list FolderBatch.t)
    (total_files : Z) :
  result_of (encoder_check w) = Done true ->
  result_of (scan self w) = Done (batches, 0, total_files) ->
  result_of (run self w) = Done tt
  /\ exists duration,
       trace_of (run self w)
       = Called CallPerfCounter
         :: trace_of (encoder_check w) ++ trace_of (scan self w)
         ++ [Status "No images to convert in selected folder(s).";
             Called CallPerfCounter;
             SummaryReady (summary_dict [] duration total_files 0 0 false);
             Finished].
Proof.
  intros Hencoder Hscan.
  destruct (returns_prepare_batches self (world_of (encoder_check w)))
    as [_ (r & Hr & Hpost)].
  unfold scan in Hscan. rewrite Hscan in Hr. injection Hr as <-.
  cbn [fst snd] in Hpost. destruct Hpost as (Hall & _ & Htf & _).
  pose proof (scanned_totals Hall) as Htotals. rewrite <- Htf in Htotals.
  assert (Hunits : work_units total_files 0 = total_files).
  { unfold work_units. destruct (Z.gtb_spec total_files 0); lia. }
  unfold scan, encoder_check in *.
  unfold run. along_call. along Hencoder. cbn [negb]. along Hscan.
  cbv beta iota. cbn [Z.eqb]. rewrite Hunits.
  unfold _build_run_summary. run_command.
  split; [reflexivity |]. eexists. reflexivity.
Qed.

(** X10: a folder whose temporary output directory cannot be prepared is given
    up without stopping the run: no image of it is encoded and no output
    strategy runs (after the failed preparation the iteration makes no call
    but one clock reading), the processed units stay as they were, and its
    summary holds the preparation error as its only error, with nothing
    converted. *)
Theorem unprepared_folder_is_given_up (started : Q)
    (total_work_units total_convertible : Z) (batch : FolderBatch.t)
    (fs : list FolderSummary.t) (p : Z) (exc : string) (w : W) :
  fst (isInterruptionRequested w) = false ->
  result_of (_prepare_output_dir (FolderBatch.folder batch)
               (snd (perf_counter (snd (isInterruptionRequested w)))))
    = Done (Failed exc) ->
  exists s,
    result_of (process_batch self started total_work_units total_convertible
                 batch fs p w) = Done (Completed (fs ++ [s], p))
    /\ FolderSummary.folder s = folder_path batch
    /\ FolderSummary.converted s = 0
    /\ FolderSummary.errors s
       = [("Unable to prepare output directory for "
           ++ PyPath.name (FolderBatch.folder batch) ++ ": " ++ exc)%string]
    /\ FolderSummary.skipped_existing s = len (FolderBatch.skipped_webp batch)
    /\ no_archive s
    /\ calls_of (trace_of (process_batch self started total_work_units
                             total_convertible batch fs p w))
       = [CallIsInterruptionRequested; CallPerfCounter]
         ++ calls_of (trace_of (_prepare_output_dir (FolderBatch.folder batch)
                                  (snd (perf_counter
                                          (snd (isInterruptionRequested w))))))
         ++ [CallPerfCounter].
Proof.
  intros Hpoll Hprepared.
  unfold process_batch. along_call. rewrite Hpoll.
  along_call. along_emit. along Hprepared.
  along_emit. along_call. cbn [ret result_of trace_of fst snd].
  eexists. split; [reflexivity |].
  split; [reflexivity |]. split; [reflexivity |]. split; [reflexivity |].
  split; [reflexivity |]. split; [split; reflexivity |].
  cbn [app calls_of]. rewrite calls_of_app. reflexivity.
Qed.

End EarlyExits.

Lemma nothing_to_convert_ends_the_run_witness :
  (result_of (encoder_check quiet_world) = Done true
   /\ result_of (scan (mkWorker [dir_b] 80 false false true) quiet_world)
      = Done ([batch_b], 0, 1))
  /\ result_of (run (mkWorker [dir_b] 80 false false true) quiet_world) = Done tt
  /\ exists duration,
       trace_of (run (mkWorker [dir_b] 80 false false true) quiet_world)
       = Called CallPerfCounter
         :: trace_of (encoder_check quiet_world)
         ++ trace_of (scan (mkWorker [dir_b] 80 false false true) quiet_world)
         ++ [Status "No images to convert in selected folder(s).";
             Called CallPerfCounter;
             SummaryReady (summary_dict [] duration 1 0 0 false);
             Finished].
Proof.
  split; [split; reflexivity |].
  apply (@nothing_to_convert_ends_the_run Sim.t Sim.os
           (mkWorker [dir_b] 80 false false true) quiet_world [batch_b] 1);
    reflexivity.
Defined.

Lemma unprepared_folder_is_given_up_witness :
  (fst (isInterruptionRequested locked_world) = false
   /\ result_of (_prepare_output_dir (FolderBatch.folder batch_b)
                   (snd (perf_counter (snd (isInterruptionRequested locked_world)))))
      = Done (Failed "Permission denied"))
  /\ exists s,
       result_of (process_batch max_quality_worker 0 3 2 batch_b [] 2 locked_world)
       = Done (Completed ([] ++ [s], 2))
       /\ FolderSummary.errors s
          = ["Unable to prepare output directory for b: Permission denied"].
Proof.
  split; [split; reflexivity |].
  destruct (@unprepared_folder_is_given_up Sim.t Sim.os max_quality_worker 0 3 2
              batch_b [] 2 "Permission denied" locked_world eq_refl eq_refl)
    as (s & Hresult & _ & _ & Herrors & _).
  exists s. split; [exact Hresult | exact Herrors].
Defined.

(** ** Doubles that are computed exactly *)

Module ExactFacts.

Import Float64 Float64Facts.
Local Open Scope Q_scope.

Lemma cexp_comp (x y : Q) : 0 < x -> x == y -> cexp x = cexp y.
Proof.
  intros Hx E. unfold cexp. f_equal. f_equal.
  destruct (ilog2_spec Hx) as [Hlo Hhi].
  symmetry. apply ilog2_unique; rewrite <- E; assumption.
Qed.

Lemma round_pos_comp (x y : Q) : 0 < x -> x == y -> round_pos x = round_pos y.
Proof.
  intros Hx E. unfold round_pos. rewrite <- (cexp_comp Hx E).
  rewrite (@rne_comp (x / pow2 (cexp x)) (y / pow2 (cexp x))); [reflexivity |].
  apply Qdiv_comp; [exact E | reflexivity].
Qed.

Lemma round_comp (x y : Q) : x == y -> round x = round y.
Proof.
  intros E. unfold round.
  rewrite (Qcompare_comp x y E 0 0 (Qeq_refl 0)).
  destruct (Qcompare_cases y 0) as [[-> _] | [[-> H] | [-> H]]].
  - reflexivity.
  - f_equal. apply round_pos_comp; [rewrite E; lra | rewrite E; reflexivity].
  - apply round_pos_comp; [rewrite E; exact H | exact E].
Qed.

(** A positive [m * 2^e] with [m < 2^53] and [e] not below the least
    exponent is a double: rounding leaves it as it is. *)
Lemma round_pos_exact (m e : Z) :
  (0 < m < 2 ^ 53)%Z -> (emin <= e)%Z ->
  round_pos (inject_Z m * pow2 e) == inject_Z m * pow2 e.
Proof.
  intros [Hm0 Hm] He. set (x := inject_Z m * pow2 e).
  assert (Hx : 0 < x).
  { unfold x. apply Qmult_lt_0_compat; [apply inject_Z_pos; exact Hm0 | apply pow2_pos]. }
  assert (Hlt : x < pow2 (53 + e)).
  { unfold x. rewrite pow2_add. apply Qmult_lt_compat_r; [apply pow2_pos |].
    rewrite pow2_nonneg_Z by lia. rewrite <- Zlt_Qlt. exact Hm. }
  destruct (ilog2_spec Hx) as [Hlo _].
  assert (Hlog : (ilog2 x < 53 + e)%Z).
  { apply Qpower_lt_compat_l_inv with (q := 2); [| reflexivity].
    eapply Qle_lt_trans; [exact Hlo | exact Hlt]. }
  assert (Hc : (cexp x <= e)%Z) by (unfold cexp, prec, emin in *; lia).
  unfold round_pos. set (c := cexp x) in *.
  assert (Hscaled : x / pow2 c == inject_Z (m * 2 ^ (e - c))).
  { unfold x. rewrite inject_Z_mult, <- pow2_nonneg_Z by lia.
    rewrite pow2_sub. field. pose proof (pow2_pos c). lra. }
  rewrite (rne_comp Hscaled), rne_Z.
  rewrite inject_Z_mult, <- pow2_nonneg_Z by lia. rewrite pow2_sub.
  unfold x. field. pose proof (pow2_pos c). lra.
Qed.

Lemma round_exact (m e : Z) :
  (0 <= m < 2 ^ 53)%Z -> (emin <= e)%Z ->
  round (inject_Z m * pow2 e) == inject_Z m * pow2 e.
Proof.
  intros [Hm0 Hm] He. destruct (Z.eq_dec m 0) as [-> | Hnz].
  - rewrite round_zero; ring.
  - assert (0 < inject_Z m * pow2 e).
    { apply Qmult_lt_0_compat; [apply inject_Z_pos; lia | apply pow2_pos]. }
    rewrite round_of_pos by assumption. apply round_pos_exact; [lia | exact He].
Qed.

Lemma round_opp (x : Q) : round (- x) == - round x.
Proof.
  unfold round.
  destruct (Qcompare_cases x 0) as [[E H] | [[E H] | [E H]]]; rewrite E.
  - assert (E' : Qcompare (- x) 0 = Eq) by (apply (proj1 (Qeq_alt _ _)); lra). rewrite E'. reflexivity.
  - assert (E' : Qcompare (- x) 0 = Gt) by (apply (proj1 (Qgt_alt _ _)); lra). rewrite E'. ring.
  - assert (E' : Qcompare (- x) 0 = Lt) by (apply (proj1 (Qlt_alt _ _)); lra). rewrite E'.
    rewrite (@round_pos_comp (- - x) x); [reflexivity | lra | ring].
Qed.

(** The quotient of an int below [2^53] by a power of [1024] down to
    [1024^-4] is a double. *)
Lemma round_shifted (n : Z) (j : Z) :
  (0 <= n < 2 ^ 53)%Z -> (0 <= j <= 100)%Z ->
  round (inject_Z n / inject_Z (1024 ^ j)) == inject_Z n / inject_Z (1024 ^ j).
Proof.
  intros Hn Hj.
  assert (E : inject_Z n / inject_Z (1024 ^ j) == inject_Z n * pow2 (- (10 * j))).
  { replace (1024 ^ j)%Z with (2 ^ (10 * j))%Z
      by (rewrite Z.pow_mul_r by lia; reflexivity).
    rewrite <- pow2_nonneg_Z by lia. unfold Qdiv, pow2.
    rewrite Qpower_opp. reflexivity. }
  rewrite (round_comp E), E. apply round_exact; [exact Hn | unfold emin; lia].
Qed.

Lemma not_overflows (x : Q) : 0 <= x -> x < pow2 emax -> overflows x = false.
Proof.
  intros H0 H. rewrite PercentageFacts.overflows_nonneg by exact H0.
  destruct (Qle_bool (pow2 emax) x) eqn:E; [| reflexivity].
  apply Qle_bool_iff in E. exfalso. lra.
Qed.

Lemma below_emax (n : Z) : (0 <= n < 2 ^ 53)%Z -> inject_Z n < pow2 emax.
Proof.
  intros Hn. unfold emax. rewrite pow2_nonneg_Z by lia. rewrite <- Zlt_Qlt.
  assert (2 ^ 53 < 2 ^ 1024)%Z by (apply Z.pow_lt_mono_r; lia). lia.
Qed.

End ExactFacts.

(** ** [_human_size] *)

Module HumanSizeFacts.

Import Float64 Float64Facts ExactFacts PyFloat.

Lemma tenths_whole (m : Z) : tenths (10 * m) = (PyStr.str_of_int m ++ ".0")%string.
Proof.
  unfold tenths. rewrite Z.mul_comm, Z.div_mul, Z.mod_mul by lia. reflexivity.
Qed.

Lemma append_assoc (a b c : string) : ((a ++ b) ++ c = a ++ (b ++ c))%string.
Proof. induction a as [| x a IH]; cbn; [reflexivity | rewrite IH; reflexivity]. Qed.

Section Below2p53.

Variable n : Z.
Hypothesis n_range : 0 <= n < 2 ^ 53.

Lemma shrunk_exact (j : Z) : 0 <= j <= 100 -> (shrunk n j == inject_Z n / inject_Z (1024 ^ j))%Q.
Proof. intros Hj. apply round_shifted; assumption. Qed.

Lemma pow1024_pos (j : Z) : 0 <= j -> (0 < inject_Z (1024 ^ j))%Q.
Proof. intros Hj. apply inject_Z_pos, Z.pow_pos_nonneg; lia. Qed.

Lemma shrunk_nonneg (j : Z) : 0 <= j <= 100 -> (0 <= shrunk n j)%Q.
Proof.
  intros Hj. rewrite shrunk_exact by exact Hj.
  apply Qle_shift_div_l; [apply pow1024_pos; lia |].
  ring_simplify. change 0%Q with (inject_Z 0). rewrite <- Zle_Qle. lia.
Qed.

Lemma shrunk_small (j : Z) : 0 <= j <= 100 -> (shrunk n j < pow2 emax)%Q.
Proof.
  intros Hj. rewrite shrunk_exact by exact Hj.
  eapply Qle_lt_trans; [| apply (below_emax n_range)].
  apply Qle_shift_div_r; [apply pow1024_pos; lia |].
  rewrite <- inject_Z_mult, <- Zle_Qle.
  assert (0 < 1024 ^ j) by (apply Z.pow_pos_nonneg; lia). nia.
Qed.

Lemma float_of_int_exact : float_of_int n = Value (Fin (shrunk n 0)).
Proof.
  unfold float_of_int.
  assert (E : round (inject_Z n) = shrunk n 0).
  { unfold shrunk. apply round_comp. change (1024 ^ 0) with 1. field. }
  rewrite E, (not_overflows (shrunk_nonneg (j := 0) ltac:(lia)) (shrunk_small (j := 0) ltac:(lia))).
  reflexivity.
Qed.

Lemma reaches_next (j : Z) :
  0 <= j <= 99 -> float_ge_int (Fin (shrunk n j)) 1024 = (1024 ^ (j + 1) <=? n).
Proof.
  intros Hj. cbn [float_ge_int].
  assert (Hpos := pow1024_pos (j := j) ltac:(lia)).
  rewrite Z.pow_add_r, Z.pow_1_r by lia.
  destruct (Z.leb_spec (1024 ^ j * 1024) n) as [H | H].
  - apply Qle_bool_iff. rewrite shrunk_exact by lia.
    apply Qle_shift_div_l; [exact Hpos |].
    rewrite <- inject_Z_mult, <- Zle_Qle. lia.
  - destruct (Qle_bool (inject_Z 1024) (shrunk n j)) eqn:E; [| reflexivity].
    apply Qle_bool_iff in E. rewrite shrunk_exact in E by lia.
    apply (Qmult_le_compat_r _ _ (inject_Z (1024 ^ j))) in E; [| lra].
    exfalso. revert E.
    setoid_replace (inject_Z n / inject_Z (1024 ^ j) * inject_Z (1024 ^ j))%Q
      with (inject_Z n) by (field; lra).
    rewrite <- inject_Z_mult, <- Zle_Qle. lia.
Qed.

Lemma divides_exactly (j : Z) :
  0 <= j <= 99 -> float_div_int (Fin (shrunk n j)) 1024 = Value (Fin (shrunk n (j + 1))).
Proof.
  intros Hj. unfold float_div_int. cbn [Z.eqb].
  assert (Hpos := pow1024_pos (j := j) ltac:(lia)).
  assert (E : round (shrunk n j / inject_Z 1024) = shrunk n (j + 1)).
  { unfold shrunk at 2. apply round_comp. rewrite shrunk_exact by lia.
    rewrite Z.pow_add_r, Z.pow_1_r, inject_Z_mult by lia. field. lra. }
  rewrite E, (not_overflows (shrunk_nonneg (j := j + 1) ltac:(lia))
                            (shrunk_small (j := j + 1) ltac:(lia))).
  reflexivity.
Qed.

Lemma loop_step (j j' : Z) (unit next : string) (rest : list string) :
  0 <= j <= 99 -> j' = j + 1 ->
  human_size_loop (Fin (shrunk n j)) unit (next :: rest)
  = if 1024 ^ j' <=? n then human_size_loop (Fin (shrunk n j')) next rest
    else Value (Fin (shrunk n j), unit).
Proof.
  intros Hj ->. cbn [human_size_loop].
  rewrite (reaches_next Hj), (divides_exactly Hj). reflexivity.
Qed.

Lemma format_exact (j : Z) :
  0 <= j <= 100 ->
  format_1f (Fin (shrunk n j))
  = tenths (rne (inject_Z (10 * n) / inject_Z (1024 ^ j))).
Proof.
  intros Hj. cbn [format_1f]. unfold is_neg.
  pose proof (shrunk_nonneg Hj) as H. apply Qle_bool_iff in H. rewrite H. cbn [negb].
  f_equal. apply rne_comp. rewrite shrunk_exact by exact Hj.
  rewrite inject_Z_mult. field. pose proof (pow1024_pos (j := j) ltac:(lia)). lra.
Qed.

Lemma human_size_below_2p53 :
  _human_size n
  = Value (tenths (rne (inject_Z (10 * n)
                        / inject_Z (1024 ^ Z.of_nat (unit_index n))))
           ++ " " ++ nth (unit_index n) units "")%string.
Proof.
  unfold _human_size, units, unit_index. cbn [hd tl].
  rewrite float_of_int_exact.
  rewrite (@loop_step 0 1) by lia.
  destruct (Z.ltb_spec n 1024) as [Lt1 | Ge1].
  { destruct (Z.leb_spec (1024 ^ 1) n); [lia |].
    rewrite format_exact by lia. reflexivity. }
  destruct (Z.leb_spec (1024 ^ 1) n); [| lia].
  rewrite (@loop_step 1 2) by lia.
  destruct (Z.ltb_spec n (1024 ^ 2)) as [Lt2 | Ge2].
  { destruct (Z.leb_spec (1024 ^ 2) n); [lia |].
    rewrite format_exact by lia. reflexivity. }
  destruct (Z.leb_spec (1024 ^ 2) n); [| lia].
  rewrite (@loop_step 2 3) by lia.
  destruct (Z.ltb_spec n (1024 ^ 3)) as [Lt3 | Ge3].
  { destruct (Z.leb_spec (1024 ^ 3) n); [lia |].
    rewrite format_exact by lia. reflexivity. }
  destruct (Z.leb_spec (1024 ^ 3) n); [| lia].
  rewrite (@loop_step 3 4) by lia.
  destruct (Z.ltb_spec n (1024 ^ 4)) as [Lt4 | Ge4].
  { destruct (Z.leb_spec (1024 ^ 4) n); [lia |].
    rewrite format_exact by lia. reflexivity. }
  destruct (Z.leb_spec (1024 ^ 4) n); [| lia].
  cbn [human_size_loop]. rewrite format_exact by lia. reflexivity.
Qed.

End Below2p53.

Lemma human_size_negative (n : Z) :
  - 2 ^ 53 < n < 0 ->
  _human_size n = Value ("-" ++ PyStr.str_of_int (- n) ++ ".0 B")%string.
Proof.
  intros Hn. unfold _human_size, units, float_of_int. cbn [hd tl].
  set (r := round (inject_Z n)).
  assert (E : (r == inject_Z n)%Q).
  { unfold r.
    rewrite (@round_comp (inject_Z n) (- inject_Z (- n)))
      by (rewrite inject_Z_opp; ring).
    rewrite round_opp.
    rewrite (@round_comp (inject_Z (- n)) (inject_Z (- n) * pow2 0))
      by (unfold pow2; simpl; ring).
    rewrite round_exact by (unfold emin; lia).
    unfold pow2. simpl. rewrite inject_Z_opp. ring. }
  assert (Hneg : (r < 0)%Q).
  { rewrite E. change 0%Q with (inject_Z 0). rewrite <- Zlt_Qlt. lia. }
  assert (Hover : overflows r = false).
  { unfold overflows.
    destruct (Qle_bool (pow2 emax) r) eqn:E1.
    { apply Qle_bool_iff in E1. pose proof (pow2_pos emax). exfalso. lra. }
    destruct (Qle_bool r (- pow2 emax)) eqn:E2; [| reflexivity].
    apply Qle_bool_iff in E2. rewrite E in E2.
    assert (H : (inject_Z (- n) < pow2 emax)%Q) by (apply below_emax; lia).
    rewrite inject_Z_opp in H. exfalso. lra. }
  rewrite Hover. cbn [human_size_loop float_ge_int].
  assert (Hge : Qle_bool (inject_Z 1024) r = false).
  { destruct (Qle_bool (inject_Z 1024) r) eqn:E1; [| reflexivity].
    apply Qle_bool_iff in E1. exfalso.
    assert (0 < inject_Z 1024)%Q by reflexivity. lra. }
  rewrite Hge. cbn [format_1f]. unfold is_neg.
  assert (H0 : Qle_bool 0 r = false).
  { destruct (Qle_bool 0 r) eqn:E1; [| reflexivity].
    apply Qle_bool_iff in E1. exfalso. lra. }
  rewrite H0. cbn [negb].
  rewrite (@rne_comp (- r * inject_Z 10) (inject_Z (10 * - n)))
    by (rewrite E, inject_Z_mult, inject_Z_opp; ring).
  rewrite rne_Z, tenths_whole. f_equal.
  change ("-" ++ PyStr.str_of_int (- n) ++ ".0")%string
    with (("-" ++ PyStr.str_of_int (- n)) ++ ".0")%string.
  rewrite append_assoc. reflexivity.
Qed.

End HumanSizeFacts.

(** ** [_percent_saved] *)

Module PercentSavedFacts.

Import Float64 Float64Facts ExactFacts.

Lemma round_int (m : Z) : 0 <= m < 2 ^ 53 -> (round (inject_Z m) == inject_Z m)%Q.
Proof.
  intros Hm.
  rewrite (@round_comp (inject_Z m) (inject_Z m * pow2 0))
    by (unfold pow2; simpl; ring).
  rewrite round_exact by (unfold emin; lia). unfold pow2. simpl. ring.
Qed.

Lemma round_at_most (x : Q) (m : Z) :
  0 <= m < 2 ^ 53 -> (0 <= x)%Q -> (x <= inject_Z m)%Q -> (round x <= inject_Z m)%Q.
Proof.
  intros Hm H0 Hx. rewrite <- (round_int Hm). apply round_mono; assumption.
Qed.

Lemma finite_at_most (x : Q) (m : Z) :
  0 <= m < 2 ^ 53 -> (0 <= x)%Q -> (x <= inject_Z m)%Q -> overflows x = false.
Proof.
  intros Hm H0 Hx. apply not_overflows; [exact H0 |].
  eapply Qle_lt_trans; [exact Hx | apply below_emax; exact Hm].
Qed.

Lemma is_neg_nonneg (x : Q) : (0 <= x)%Q -> is_neg x = false.
Proof. intros H. unfold is_neg. apply Qle_bool_iff in H. rewrite H. reflexivity. Qed.

(** The tenths of a percent [_percent_saved] shows. *)
Lemma percent_of_share (saved original : Z) :
  0 <= saved <= original -> 0 < original ->
  exists ratio percent,
    int_truediv saved original = Value (Fin ratio)
    /\ float_mul_int (Fin ratio) 100 = Fin percent
    /\ (0 <= percent)%Q /\ (percent <= inject_Z 100)%Q
    /\ (saved = 0 -> percent = 0%Q)
    /\ (saved = original
        -> percent = round (round (inject_Z 1) * inject_Z 100)).
Proof.
  intros Hs Ho. unfold int_truediv, float_mul_int.
  destruct (Z.eqb_spec original 0) as [-> | _]; [lia |]. cbv zeta.
  assert (Hpos : (0 < inject_Z original)%Q) by (apply inject_Z_pos; exact Ho).
  assert (H0 : (0 <= inject_Z saved / inject_Z original)%Q)
    by (apply PercentageFacts.ratio_nonneg; lia).
  assert (H1 : (inject_Z saved / inject_Z original <= inject_Z 1)%Q).
  { apply Qle_shift_div_r; [exact Hpos |].
    rewrite <- inject_Z_mult, <- Zle_Qle. lia. }
  set (ratio := round (inject_Z saved / inject_Z original)).
  assert (R0 : (0 <= ratio)%Q) by (apply round_nonneg; exact H0).
  assert (R1 : (ratio <= inject_Z 1)%Q) by (apply round_at_most; [lia | assumption ..]).
  rewrite (@finite_at_most ratio 1) by (lia || assumption).
  set (percent := round (ratio * inject_Z 100)).
  assert (P0 : (0 <= ratio * inject_Z 100)%Q)
    by (apply PercentageFacts.times100_nonneg; exact R0).
  assert (P1 : (ratio * inject_Z 100 <= inject_Z 100)%Q).
  { setoid_replace (inject_Z 100) with (inject_Z 1 * inject_Z 100)%Q at 2 by ring.
    apply Qmult_le_compat_r; [exact R1 | discriminate]. }
  assert (Q0 : (0 <= percent)%Q) by (apply round_nonneg; exact P0).
  assert (Q1 : (percent <= inject_Z 100)%Q)
    by (apply round_at_most; [lia | assumption ..]).
  exists ratio, percent. split; [reflexivity |]. split.
  { fold percent. rewrite (@finite_at_most percent 100) by (lia || assumption).
    reflexivity. }
  split; [exact Q0 |]. split; [exact Q1 |]. split.
  - intros ->. unfold percent, ratio.
    rewrite (@round_zero (inject_Z 0 / inject_Z original)) by (field; lra).
    apply round_zero. ring.
  - intros ->. unfold percent, ratio.
    rewrite (@round_comp (inject_Z original / inject_Z original) (inject_Z 1))
      by (field; lra).
    reflexivity.
Qed.

Lemma tenths_of_percent (percent : Q) :
  (0 <= percent)%Q -> (percent <= inject_Z 100)%Q ->
  0 <= rne (percent * inject_Z 10) <= 1000.
Proof.
  intros H0 H1. split.
  - rewrite <- (rne_Z 0). apply rne_mono.
    change (inject_Z 0) with 0%Q. apply Qmult_le_0_compat; [exact H0 | discriminate].
  - rewrite <- (rne_Z 1000). apply rne_mono.
    setoid_replace (inject_Z 1000) with (inject_Z 100 * inject_Z 10)%Q by reflexivity.
    apply Qmult_le_compat_r; [exact H1 | discriminate].
Qed.

End PercentSavedFacts.

(** ** The labels *)

(** X11: [_human_size] on a count of bytes below [2^53] in absolute value: none
    of its float operations rounds, so the label is the size in the largest
    unit it reaches (the unit grows at each full multiple of 1024, up to
    TB), rounded to one decimal, ties to even; a count below 1024 is shown
    in bytes with [.0]; a negative count is never scaled. *)
Theorem human_size_is_exact_below_2p53 (n : Z) :
  - 2 ^ 53 < n < 2 ^ 53 ->
  _human_size n = Float64.Value (human_size_label n)
  /\ (0 <= n < 1024 -> human_size_label n = (PyStr.str_of_int n ++ ".0 B")%string).
Proof.
  intros Hn. unfold human_size_label. split.
  - destruct (Z.ltb_spec n 0) as [Hneg | Hpos].
    + apply HumanSizeFacts.human_size_negative. lia.
    + apply HumanSizeFacts.human_size_below_2p53. lia.
  - intros Hsmall. destruct (Z.ltb_spec n 0); [lia |].
    unfold unit_index. destruct (Z.ltb_spec n 1024); [| lia].
    cbn [Z.of_nat nth units]. change (1024 ^ 0) with 1.
    rewrite (@Float64Facts.rne_comp (inject_Z (10 * n) / inject_Z 1) (inject_Z (10 * n)))
      by (field).
    rewrite Float64Facts.rne_Z, HumanSizeFacts.tenths_whole.
    apply HumanSizeFacts.append_assoc.
Qed.

Lemma human_size_is_exact_below_2p53_witness :
  - 2 ^ 53 < 1536 < 2 ^ 53
  /\ _human_size 1536 = Float64.Value "1.5 KB".
Proof.
  assert (H : - 2 ^ 53 < 1536 < 2 ^ 53) by (vm_compute; split; reflexivity).
  split; [exact H |].
  destruct (human_size_is_exact_below_2p53 H) as [E _]. rewrite E.
  vm_compute. reflexivity.
Defined.

(** X12: [_percent_saved] never divides by zero: for an original size that is
    not positive it returns the dash.  Otherwise, for a converted size that
    is not negative, it raises nothing and shows between [0.0%] and
    [100.0%]: [0.0%] when nothing was saved (the converted size is the
    original size or more), [100.0%] when the converted size is 0. *)
Theorem percent_saved_is_between_0_and_100 (original_bytes converted_bytes : Z) :
  (original_bytes <= 0 ->
   _percent_saved original_bytes converted_bytes = Float64.Value "—")
  /\ (0 < original_bytes -> 0 <= converted_bytes ->
      exists n,
        0 <= n <= 1000
        /\ _percent_saved original_bytes converted_bytes
           = Float64.Value (tenths n ++ "%")%string
        /\ (original_bytes <= converted_bytes -> n = 0)
        /\ (converted_bytes = 0 -> n = 1000)).
Proof.
  unfold _percent_saved. split.
  - intros H. destruct (Z.leb_spec original_bytes 0); [reflexivity | lia].
  - intros Ho Hc. destruct (Z.leb_spec original_bytes 0); [lia |].
    cbv zeta.
    destruct (@PercentSavedFacts.percent_of_share
                (Z.max 0 (original_bytes - converted_bytes)) original_bytes
                ltac:(lia) Ho)
      as (ratio & percent & -> & -> & P0 & P1 & Pnone & Pall).
    exists (Float64.rne (percent * inject_Z 10)).
    split; [apply PercentSavedFacts.tenths_of_percent; assumption |].
    split.
    { cbn [format_1f]. rewrite (PercentSavedFacts.is_neg_nonneg P0). reflexivity. }
    split.
    + intros Hge. rewrite Pnone by lia. reflexivity.
    + intros ->. rewrite Pall by lia. vm_compute. reflexivity.
Qed.

Lemma percent_saved_is_between_0_and_100_witness :
  (0 < 600 /\ 0 <= 240)
  /\ (exists n, 0 <= n <= 1000
                /\ _percent_saved 600 240 = Float64.Value (tenths n ++ "%")%string)
  /\ _percent_saved 0 240 = Float64.Value "—".
Proof.
  split; [split; [reflexivity | discriminate] |].
  destruct (percent_saved_is_between_0_and_100 600 240) as [_ H].
  destruct (percent_saved_is_between_0_and_100 0 240) as [Hdash _].
  split; [| apply Hdash; discriminate].
  destruct (H eq_refl ltac:(discriminate)) as (n & Hn & E & _).
  exists n. split; [exact Hn | exact E].
Defined.

(** ** The run history *)

Lemma firstn_at_most (A : Type) (n : nat) (xs : list A) : (length (firstn n xs) <= n)%nat.
Proof. rewrite length_firstn. apply Nat.le_min_l. Qed.

Lemma subsequence_filter (A : Type) (f : A -> bool) (xs : list A) :
  subsequence (filter f xs) xs.
Proof.
  induction xs as [| x xs IH]; cbn; [constructor |].
  destruct (f x); constructor; exact IH.
Qed.

Lemma subsequence_firstn (A : Type) (n : nat) (xs : list A) :
  subsequence (firstn n xs) xs.
Proof.
  revert n. induction xs as [| x xs IH]; intros [| n]; cbn; try constructor.
  - apply subsequence_refl_nil.
  - apply IH.
Qed.

Lemma subsequence_trans (A : Type) (xs ys zs : list A) :
  subsequence xs ys -> subsequence ys zs -> subsequence xs zs.
Proof.
  intros Hxy Hyz. revert xs Hxy.
  induction Hyz as [| y ys zs _ IH | z ys zs _ IH]; intros xs Hxy.
  - exact Hxy.
  - inversion Hxy as [| x xs' ys' H | y' xs' ys' H]; subst.
    + constructor. apply IH. exact H.
    + constructor. apply IH. exact H.
  - constructor. apply IH. exact Hxy.
Qed.

Section HistoryFacts.

Context {W : Type} {desk : Desk W}.


Variable str_of : pyval -> string.

(** X14: [_append_history_entry] either changes nothing (the summary is
    cancelled, or building the entry raises) or puts one new dict, stamped
    with the current time, in front of the history and drops what is
    beyond [MAX_HISTORY_ENTRIES]; it then writes exactly the new history to
    the file (a failed write is ignored) and shows it.  So the history
    never grows beyond [MAX_HISTORY_ENTRIES] entries, and holds only dicts
    if it did before. *)
Theorem append_history_entry_keeps_newest_20 (self : App) (summary : pyval) (w : W) :
  appended self w (_append_history_entry str_of self summary w)
  /\ ((length (history_entries self) <= MAX_HISTORY_ENTRIES)%nat ->
      (length (history_entries
                 (snd (fst (fst (_append_history_entry str_of self summary w)))))
       <= MAX_HISTORY_ENTRIES)%nat)
  /\ (Forall (fun entry => is_dict entry = true) (history_entries self) ->
      Forall (fun entry => is_dict entry = true)
        (history_entries
           (snd (fst (fst (_append_history_entry str_of self summary w)))))).
Proof.
  assert (H : appended self w (_append_history_entry str_of self summary w)).
  { unfold _append_history_entry, appended.
    destruct summary as [| b | n | x | s | items | summary_items];
      try (split; [reflexivity | left; repeat split; right; eexists; reflexivity]).
    destruct (py_truthy (get_or "cancelled" VNone summary_items)).
    { split; [reflexivity | left; repeat split; left; reflexivity]. }
    destruct (if negb _ && _ then _ else _) as [primary_folder | e].
    2: { split; [reflexivity | left; repeat split; right; eexists; reflexivity]. }
    destruct (datetime_now_isoformat w) as [timestamp w1] eqn:Hnow. cbn [fst].
    destruct (if py_truthy _ then _ else _) as [entry_folders | e].
    2: { split; [reflexivity | left; repeat split; right; eexists; reflexivity]. }
    unfold _save_history, _refresh_history_view. cbn [history_entries].
    destruct (refresh_history_view _ _) as [r w3].
    split; [reflexivity |]. right.
    match goal with
    | |- context [mkApp (firstn _ (?e :: _)) _ _ _ _] => exists e
    end.
    split; [reflexivity |].
    split; [reflexivity |]. split; [reflexivity |].
    cbn [history_entries app]. rewrite firstn_firstn, Nat.min_id. reflexivity. }
  split; [exact H |].
  destruct (_append_history_entry str_of self summary w) as [[[r self'] w'] t].
  cbn [fst snd]. destruct H as [_ [(-> & _) | (entry & Hdict & _ & -> & _)]].
  - split; auto.
  - split.
    + intros _. apply firstn_at_most.
    + intros Hall. apply Forall_forall. intros e Hin.
      assert (Hin' : In e (entry :: history_entries self)).
      { revert Hin. generalize (entry :: history_entries self).
        generalize MAX_HISTORY_ENTRIES. clear.
        induction n as [| n IH]; intros [| x xs]; cbn; try tauto.
        intros [<- | Hin]; [left; reflexivity | right; apply (IH _ Hin)]. }
      destruct Hin' as [<- | Hin']; [exact Hdict |].
      rewrite Forall_forall in Hall. apply Hall, Hin'.
Qed.

(** X15: a summary of the worker that is not cancelled is recorded without an
    exception, whatever its folders: with the run context that
    [start_conversion] stores, the new entry holds the time, the selected
    folder, the processed folders, the summary's totals, duration and
    counts, and the run's settings; the history becomes that entry followed
    by the previous entries, cut to [MAX_HISTORY_ENTRIES]. *)
Theorem worker_summary_is_recorded (history : list pyval)
    (selected_folder : string) (folders_to_process : list string)
    (library_mode : bool) (quality : Z) (use_cbz replace_originals skip_webp : bool)
    (fs : list FolderSummary.t) (duration : Float64.pyfloat)
    (total_work_units processed_units expected_conversions : Z)
    (latest : option (list (string * pyval))) (cancel : bool) (thread : option Worker)
    (w : W) :
  (forall s, str_of (VStr s) = s) ->
  selected_folder <> ""%string ->
  folders_to_process <> [] ->
  let context := run_context selected_folder folders_to_process library_mode
                   quality use_cbz replace_originals skip_webp in
  let summary := summary_dict fs duration total_work_units processed_units
                   expected_conversions false in
  let entry :=
    VDict [ ("timestamp"%string, VStr (fst (datetime_now_isoformat w)));
            ("primary_folder"%string, VStr selected_folder);
            ("folders"%string, VList (map VStr folders_to_process));
            ("totals"%string, totals_of summary);
            ("duration_seconds"%string, VFloat duration);
            ("processed_images"%string, VInt processed_units);
            ("expected_conversions"%string, VInt expected_conversions);
            ("quality"%string, VInt quality);
            ("use_cbz"%string, VBool use_cbz);
            ("replace_originals"%string, VBool replace_originals);
            ("library_mode"%string, VBool library_mode);
            ("skip_webp"%string, VBool skip_webp) ] in
  exists r w',
    _append_history_entry str_of (mkApp history (Some context) latest cancel thread)
      summary w
    = (r,
       mkApp (firstn MAX_HISTORY_ENTRIES (entry :: history)) (Some context)
             latest cancel thread,
       w',
       [Saved (firstn MAX_HISTORY_ENTRIES (entry :: history));
        Refreshed (firstn MAX_HISTORY_ENTRIES (entry :: history))])
    /\ (r = Returns \/ exists exc, r = RaisesInView exc).
Proof.
  intros Hstr Hselected Hfolders context summary entry.
  unfold _append_history_entry, summary, summary_dict.
  cbn [get_or dict_get String.eqb Ascii.eqb Bool.eqb py_truthy active_run_context
       context run_context].
  assert (Htruthy : PyStr.truthy selected_folder = true).
  { unfold PyStr.truthy. destruct selected_folder; [contradiction | reflexivity]. }
  rewrite Htruthy. cbn [negb andb].
  destruct (datetime_now_isoformat w) as [timestamp w1] eqn:Hnow. cbn [fst].
  destruct folders_to_process as [| f rest]; [contradiction |].
  cbn [map py_truthy]. rewrite Hstr.
  assert (Hpaths : forall l, map (path_text str_of) (map VStr l) = map VStr l).
  { induction l as [| x l IH]; [reflexivity |]. cbn. rewrite Hstr, IH. reflexivity. }
  change (VStr f :: map VStr rest) with (map VStr (f :: rest)). rewrite Hpaths.
  unfold _save_history, _refresh_history_view. cbn [history_entries].
  destruct (refresh_history_view _ _) as [r w3] eqn:Hview.
  rewrite firstn_firstn, Nat.min_id, ?Htruthy. unfold path_text. rewrite ?Hstr.
  eexists _, w3. split; [reflexivity |].
  destruct r; [left; reflexivity | right; eexists; reflexivity].
Qed.

End HistoryFacts.


Lemma append_history_entry_keeps_newest_20_witness :
  (length (history_entries (mkApp [VDict []] None None false None)) <= MAX_HISTORY_ENTRIES)%nat
  /\ (length (history_entries
                (snd (fst (fst (_append_history_entry
                                  (fun v => match v with VStr s => s | _ => ""%string end)
                                  (mkApp [VDict []] None None false None)
                                  (summary_dict [] (Float64.Fin 0) 0 0 0 false)
                                  (Shelf.make None true "2024-05-01T10:00:00"))))))
      <= MAX_HISTORY_ENTRIES)%nat.
Proof.
  assert (H : (length (history_entries (mkApp [VDict []] None None false None))
               <= MAX_HISTORY_ENTRIES)%nat) by (vm_compute; repeat constructor).
  split; [exact H |].
  apply (@append_history_entry_keeps_newest_20 Shelf.t Shelf.desk
           (fun v => match v with VStr s => s | _ => ""%string end)
           (mkApp [VDict []] None None false None)
           (summary_dict [] (Float64.Fin 0) 0 0 0 false)
           (Shelf.make None true "2024-05-01T10:00:00")).
  exact H.
Defined.

Lemma worker_summary_is_recorded_witness :
  ((forall s, (fun v => match v with VStr s => s | _ => ""%string end) (VStr s) = s)
   /\ "/lib"%string <> ""%string
   /\ ["/lib/a"%string; "/lib/b"%string] <> [])
  /\ exists r w',
       fst (_append_history_entry
              (fun v => match v with VStr s => s | _ => ""%string end)
              (mkApp [] (Some (run_context "/lib" ["/lib/a"; "/lib/b"]
                                 true 100 false false true))
                        None false None)
              (summary_dict [] (Float64.Fin 0) 3 2 2 false)
              (Shelf.make None true "2024-05-01T10:00:00"))
       = (r,
          mkApp (firstn MAX_HISTORY_ENTRIES
                   [VDict [ ("timestamp"%string, VStr "2024-05-01T10:00:00");
                            ("primary_folder"%string, VStr "/lib");
                            ("folders"%string, VList [VStr "/lib/a"; VStr "/lib/b"]);
                            ("totals"%string,
                             totals_of (summary_dict [] (Float64.Fin 0) 3 2 2 false));
                            ("duration_seconds"%string, VFloat (Float64.Fin 0));
                            ("processed_images"%string, VInt 2);
                            ("expected_conversions"%string, VInt 2);
                            ("quality"%string, VInt 100);
                            ("use_cbz"%string, VBool false);
                            ("replace_originals"%string, VBool false);
                            ("library_mode"%string, VBool true);
                            ("skip_webp"%string, VBool true) ]])
            (Some (run_context "/lib" ["/lib/a"; "/lib/b"] true 100 false false true))
            None false None,
          w').
Proof.
  assert (H : (forall s, (fun v => match v with VStr s => s | _ => ""%string end) (VStr s) = s)
              /\ "/lib"%string <> ""%string
              /\ ["/lib/a"%string; "/lib/b"%string] <> [])
    by (split; [reflexivity | split; discriminate]).
  split; [exact H |]. destruct H as (Hstr & Hsel & Hfolders).
  destruct (@worker_summary_is_recorded Shelf.t Shelf.desk
              (fun v => match v with VStr s => s | _ => ""%string end)
              [] "/lib" ["/lib/a"; "/lib/b"] true 100 false false true
              [] (Float64.Fin 0) 3 2 2 None false None
              (Shelf.make None true "2024-05-01T10:00:00") Hstr Hsel Hfolders)
    as (r & w' & E & _).
  exists r, w'. rewrite E. reflexivity.
Defined.


(** ** The end of a run in the window *)

Section FinishedFacts.

Context {W : Type} {os : OS W} {D : Type} {desk : Desk D}.
Variable str_of : pyval -> string.

(** A summary of the worker that is not cancelled is recorded whatever the
    run context holds: no dynamic operation of [_append_history_entry] can
    raise on it. *)
Lemma worker_summary_recorded_in_any_context (self : App)
    (fs : list FolderSummary.t) (d : Float64.pyfloat) (T p tc : Z) (w : D) :
  exists entry r w',
    py_get "totals" entry = py_get "totals" (summary_dict fs d T p tc false)
    /\ _append_history_entry str_of self (summary_dict fs d T p tc false) w
       = (r,
          mkApp (firstn MAX_HISTORY_ENTRIES (entry :: history_entries self))
                (active_run_context self) (latest_summary self)
                (cancel_requested self) (worker self),
          w',
          [Saved (firstn MAX_HISTORY_ENTRIES (entry :: history_entries self));
           Refreshed (firstn MAX_HISTORY_ENTRIES (entry :: history_entries self))])
    /\ (r = Returns \/ exists exc, r = RaisesInView exc).
Proof.
  unfold _append_history_entry, summary_dict.
  cbn [get_or dict_get String.eqb Ascii.eqb Bool.eqb py_truthy].
  set (options := match active_run_context self with Some c => c | None => [] end).
  generalize (get_or "selected_folder" VNone options) as chosen.
  generalize (get_or "folders" VNone options) as given. intros given chosen.
  assert (Hfirst : exists v,
             (if negb (py_truthy chosen)
                 && py_truthy (py_or (VList (map asdict fs)) (VList []))
              then first_folder (py_or (VList (map asdict fs)) (VList []))
              else Good chosen) = Good v).
  { destruct (py_truthy chosen); cbn [negb andb]; [eexists; reflexivity |].
    destruct fs as [| f rest]; cbn; eexists; reflexivity. }
  destruct Hfirst as [primary ->].
  destruct (datetime_now_isoformat w) as [timestamp w1].
  assert (Heach : exists paths,
             folder_of_each (py_or (VList (map asdict fs)) (VList [])) = Good paths).
  { destruct fs as [| f rest]; [exists []; reflexivity |].
    unfold py_or. cbn [map py_truthy folder_of_each].
    change (asdict f :: map asdict rest) with (map asdict (f :: rest)).
    induction (f :: rest) as [| g more [paths IH]]; [exists []; reflexivity |].
    cbn [map folders_of_items]. rewrite IH. eexists. reflexivity. }
  destruct Heach as [paths ->].
  assert (Hfolders : exists v,
             (if py_truthy given then Good given else Good (VList paths)) = Good v).
  { destruct (py_truthy given); eexists; reflexivity. }
  destruct Hfolders as [entry_folders ->].
  unfold _save_history, _refresh_history_view. cbn [history_entries].
  destruct (refresh_history_view _ _) as [r w3].
  rewrite firstn_firstn, Nat.min_id.
  eexists _, _, w3. split; [| split; [reflexivity |]].
  - reflexivity.
  - destruct r; [left; reflexivity | right; eexists; reflexivity].
Qed.

(** X16: what the window does when a run of the worker has ended and no
    cancellation was requested in the window, for the summary the run sent:
    [on_finished] raises no Python error on it.  If the summary is
    cancelled, the status reads [Conversion cancelled.] and nothing is
    recorded.  If it lists no folder and counts no unit, a message box says
    that no images were converted and the status reads [Idle].  Otherwise
    the status reads [Completed n image(s).] with the summary's number of
    converted images, one entry with the summary's totals is put in front
    of the history, the history is saved and shown, and the results dialog
    is opened on the summary.  In the first two cases, and in the third
    when the Qt code raises nothing, the window forgets the run: its
    summary, its context, the cancel flag and the worker. *)
Theorem finished_run_is_reported (thread : Worker) (w : W) (s : pyval)
    (self : App) (dw : D) :
  (forall n, str_of (VInt n) = PyStr.str_of_int n) ->
  In s (summaries_of (trace_of (run thread w))) ->
  cancel_requested self = false ->
  exists (cancelled : bool) (converted total : Z) (folders : list pyval),
    py_get "cancelled" s = Some (VBool cancelled)
    /\ totals_get "converted" s = Some (VInt converted)
    /\ py_get "total_images" s = Some (VInt total)
    /\ py_get "folders" s = Some (VList folders)
    /\ 0 <= total
    /\ let '(r, self', dw', t) := on_finished str_of (_on_worker_summary self s) dw in
       if cancelled then
         r = Returns /\ dw' = dw
         /\ self' = mkApp (history_entries self) None None false None
         /\ t = [ControlsEnabled false; StatusText "Conversion cancelled."]
       else if (match folders with [] => total =? 0 | _ :: _ => false end) then
         r = Returns /\ dw' = dw
         /\ self' = mkApp (history_entries self) None None false None
         /\ t = [ControlsEnabled false;
                 Information "Done" "No images were converted.";
                 StatusText "Idle"]
       else
         exists entry,
           py_get "totals" entry = py_get "totals" s
           /\ history_entries self'
              = firstn MAX_HISTORY_ENTRIES (entry :: history_entries self)
           /\ worker self' = None
           /\ ((r = Returns
                /\ self' = mkApp (history_entries self') None None false None
                /\ t = [ControlsEnabled false;
                        StatusText ("Completed " ++ PyStr.str_of_int converted
                                    ++ " image(s).");
                        Saved (history_entries self');
                        Refreshed (history_entries self');
                        ResultsDialog s])
               \/ (exists exc,
                     r = RaisesInView exc
                     /\ firstn 4 t
                        = [ControlsEnabled false;
                           StatusText ("Completed " ++ PyStr.str_of_int converted
                                       ++ " image(s).");
                           Saved (history_entries self');
                           Refreshed (history_entries self')])).
Proof.
  intros Hstr Hs Hquiet.
  destruct (ends_run thread w) as [_ (fs & d & T & p & tc & c & Hc & _ & H0 & Hp & HT)].
  rewrite (@concluded_only _ _ _ Hc Hs). clear Hc Hs s.
  exists c, (sum_of FolderSummary.converted fs), T, (map asdict fs).
  split; [reflexivity |]. split; [reflexivity |]. split; [reflexivity |].
  split; [reflexivity |]. split; [lia |].
  destruct c.
  { unfold on_finished, _on_worker_summary, summary_dict, forget_run.
    cbn [latest_summary cancel_requested history_entries worker get_or dict_get
         String.eqb Ascii.eqb Bool.eqb py_truthy orb].
    rewrite Bool.orb_true_r. repeat split. }
  set (self0 := mkApp (history_entries self) (active_run_context self)
                      (latest_summary (_on_worker_summary self
                                         (summary_dict fs d T p tc false)))
                      (cancel_requested self) None).
  destruct (worker_summary_recorded_in_any_context self0 fs d T p tc dw)
    as (entry & r & dw1 & Htotals & E & Hr).
  unfold on_finished.
  change (_append_history_entry str_of _ _ dw)
    with (_append_history_entry str_of self0 (summary_dict fs d T p tc false) dw).
  rewrite E. clear E.
  unfold _on_worker_summary, summary_dict, forget_run.
  cbn [latest_summary cancel_requested history_entries worker get_or dict_get
       String.eqb Ascii.eqb Bool.eqb py_truthy orb method_get_or self0
       active_run_context py_gt_zero].
  rewrite Hquiet, Hstr. cbn [orb].
  assert (Hshown :
            match fs with [] => T =? 0 | _ :: _ => false end = false ->
            (if py_truthy (VList (map asdict fs)) then Good true else Good (T >? 0))
            = Good true).
  { destruct fs as [| f rest]; cbn [map py_truthy]; [| reflexivity].
    intros Hpos. apply Z.eqb_neq in Hpos.
    replace (T >? 0) with true; [reflexivity |]. symmetry. apply Z.gtb_lt. lia. }
  destruct (match map asdict fs with [] => T =? 0 | _ :: _ => false end) eqn:Hnone.
  { destruct fs as [| f rest]; [| discriminate]. cbn [map py_truthy].
    apply Z.eqb_eq in Hnone. subst T. cbn. repeat split. }
  change (if match map asdict fs with [] => false | _ :: _ => true end
          then Good true else Good (T >? 0))
    with (if py_truthy (VList (map asdict fs)) then Good true else Good (T >? 0)).
  rewrite Hshown by (destruct fs; [exact Hnone | reflexivity]).
  destruct Hr as [-> | [exc ->]].
  - destruct (show_results_dialog _ dw1) as [[[] | exc] dw2];
      exists entry; (split; [exact Htotals |]); cbn [history_entries worker app].
    + repeat split. left. repeat split.
    + repeat split. right. exists exc. repeat split.
  - exists entry. split; [exact Htotals |].
    cbn [history_entries worker app]. repeat split. right. exists exc. repeat split.
Qed.

(** X17: a cancellation requested in the window while the worker runs discards
    the run, whatever summary the worker then sends, even one of a run that
    completed: [cancel_conversion] asks the thread to stop, and [on_finished]
    then reads [Conversion cancelled.], records nothing in the history,
    writes no file, opens no dialog and forgets the run. *)
Theorem cancel_request_discards_the_run (self : App) (thread : Worker) (s : pyval)
    (dw : D) :
  worker self = Some thread ->
  fst (worker_is_running dw) = true ->
  let '(self1, dw1, t1) := cancel_conversion self dw in
  t1 = [StatusText "Attempting to cancel..."; InterruptionRequested;
        CancelEnabled false]
  /\ history_entries self1 = history_entries self
  /\ on_finished str_of (_on_worker_summary self1 s) dw1
     = (Returns, mkApp (history_entries self) None None false None, dw1,
        [ControlsEnabled false; StatusText "Conversion cancelled."]).
Proof.
  intros Hthread Hrunning. unfold cancel_conversion. rewrite Hthread.
  destruct (worker_is_running dw) as [running dw1]. cbn [fst] in Hrunning.
  subst running. cbn [negb].
  split; [reflexivity |]. split; [reflexivity |].
  unfold on_finished, _on_worker_summary, forget_run.
  destruct s; reflexivity.
Qed.

End FinishedFacts.

Lemma finished_run_is_reported_witness :
  ((forall n, (fun v => match v with
                        | VInt n => PyStr.str_of_int n
                        | _ => ""%string
                        end) (VInt n) = PyStr.str_of_int n)
   /\ cancel_requested (mkApp [] None None false (Some max_quality_worker)) = false)
  /\ exists s,
       In s (summaries_of (trace_of (run max_quality_worker failing_world)))
       /\ exists total, py_get "total_images" s = Some (VInt total) /\ 0 <= total.
Proof.
  assert (H : (forall n, (fun v => match v with
                                   | VInt n => PyStr.str_of_int n
                                   | _ => ""%string
                                   end) (VInt n) = PyStr.str_of_int n)
              /\ cancel_requested (mkApp [] None None false (Some max_quality_worker))
                 = false)
    by (split; reflexivity).
  split; [exact H |]. destruct H as [Hstr Hquiet].
  eexists. split; [vm_compute; left; reflexivity |].
  destruct (@finished_run_is_reported Sim.t Sim.os Shelf.t Shelf.desk
              (fun v => match v with
                        | VInt n => PyStr.str_of_int n
                        | _ => ""%string
                        end)
              max_quality_worker failing_world _
              (mkApp [] None None false (Some max_quality_worker))
              (Shelf.make None true "2024-05-01T10:00:00") Hstr
              ltac:(vm_compute; left; reflexivity) Hquiet)
    as (cancelled & converted & total & folders & _ & _ & Htotal & _ & H0 & _).
  exists total. split; [exact Htotal | exact H0].
Defined.

Lemma cancel_request_discards_the_run_witness :
  (worker (mkApp [VDict []] None None false (Some max_quality_worker))
   = Some max_quality_worker
   /\ fst (worker_is_running (Shelf.make None true "2024-05-01T10:00:00")) = true)
  /\ fst (fst (fst (on_finished
                      (fun v => match v with VStr s => s | _ => ""%string end)
                      (_on_worker_summary
                         (fst (fst (cancel_conversion
                                      (mkApp [VDict []] None None false
                                             (Some max_quality_worker))
                                      (Shelf.make None true "2024-05-01T10:00:00"))))
                         (summary_dict [] (Float64.Fin 0) 3 3 2 false))
                      (snd (fst (cancel_conversion
                                   (mkApp [VDict []] None None false
                                          (Some max_quality_worker))
                                   (Shelf.make None true "2024-05-01T10:00:00")))))))
     = Returns.
Proof.
  assert (H : worker (mkApp [VDict []] None None false (Some max_quality_worker))
              = Some max_quality_worker
              /\ fst (worker_is_running (Shelf.make None true "2024-05-01T10:00:00"))
                 = true)
    by (split; reflexivity).
  split; [exact H |]. destruct H as [Hthread Hrunning].
  pose proof (@cancel_request_discards_the_run Shelf.t Shelf.desk
                (fun v => match v with VStr s => s | _ => ""%string end)
                (mkApp [VDict []] None None false (Some max_quality_worker))
                max_quality_worker (summary_dict [] (Float64.Fin 0) 3 3 2 false)
                (Shelf.make None true "2024-05-01T10:00:00") Hthread Hrunning) as H.
  destruct (cancel_conversion _ _) as [[self1 dw1] t1]. cbn [fst snd].
  destruct H as (_ & _ & ->). reflexivity.
Defined.
